(** * IBM PC keyboard converter (converter/ibmpc_usb): matrix, Code Set 2
      decoder, keyboard identification and action resolution.

    A shallow embedding of [unimap_trans.h] and [matrix.c].  The firmware
    targets AVR, where [int] is 16 bits wide; fixed-width C integers are
    integers of [Z] with the wrap-around written out at every conversion. *)

From Stdlib Require Import ZArith Lia Bool String.
From stdpp Require Import base list.

Local Open Scope Z_scope.

(** ** Fixed-width integers *)

Definition u8 (z : Z) : Z := z mod 256.
Definition u16 (z : Z) : Z := z mod 65536.
Definition i16 (z : Z) : Z := (z + 32768) mod 65536 - 32768.

Definition is_u8 (z : Z) : Prop := 0 <= z < 256.
Definition is_u16 (z : Z) : Prop := 0 <= z < 65536.

(** ** Enumerations of the sources *)

(** The [static enum] of [process_cs2]: scan code reading states. *)
Module cs2.
Inductive state : Set :=
  | INIT
  | F0
  | E0
  | E0_F0
  (* Pause *)
  | E1
  | E1_14
  | E1_14_77
  | E1_14_77_E1
  | E1_14_77_E1_F0
  | E1_14_77_E1_F0_14
  | E1_14_77_E1_F0_14_F0
  (* Control'd Pause *)
  | E0_7E
  | E0_7E_E0
  | E0_7E_E0_F0.
End cs2.

(** The [static enum] of [matrix_scan]. *)
Module scan.
Inductive state : Set :=
  | INIT
  | WAIT_STARTUP
  | READ_ID
  | LED_SET
  | LOOP
  | END.
End scan.

(** [static enum { NONE, PC_XT, PC_AT, PC_TERMINAL, OTHER } keyboard_kind]. *)
Inductive kind : Set := NONE | PC_XT | PC_AT | PC_TERMINAL | OTHER.

(** The two values [ibmpc_protocol] takes. *)
Inductive protocol : Set := IBMPC_PROTOCOL_AT | IBMPC_PROTOCOL_XT.

(** ** The converter and its collaborators

    The transport driver, the timer, the host and the debug console are not
    part of the sources.  What they answer is scripted in the state; what
    the converter asks of them is recorded in a trace. *)

(** Calls that leave the converter, in program order. *)
Inductive event : Type :=
  | EvHostSend (data : Z)               (* ibmpc_host_send(data) *)
  | EvHostSetLed (led : Z)              (* ibmpc_host_set_led(led) *)
  | EvClearKeyboard                     (* clear_keyboard() *)
  | EvPrint (fmt : string) (args : list Z). (* xprintf(fmt, args...) *)

(** One answer of the transport driver: the value the call returns and the
    value [ibmpc_error] holds when the call is over. *)
Record reply : Type := Reply { reply_value : Z; reply_error : Z }.

Record world : Type := World {
  matrix : list Z;
  cs2_state : cs2.state;
  scan_state : scan.state;
  keyboard_kind : kind;
  keyboard_id : Z;
  last_time : Z;
  ibmpc_error : Z;
  ibmpc_protocol : protocol;
  rx : list reply;
  tx : list reply;
  now : Z;
  ticks : list Z;
  host_leds : Z;
  trace : list event
}.

(** Assignments to one variable; every other one keeps its value. *)

Definition set_matrix (x : list Z) (w : world) : world :=
  {| matrix := x; cs2_state := cs2_state w; scan_state := scan_state w;
     keyboard_kind := keyboard_kind w; keyboard_id := keyboard_id w; last_time
     := last_time w; ibmpc_error := ibmpc_error w; ibmpc_protocol :=
     ibmpc_protocol w; rx := rx w; tx := tx w; now := now w; ticks := ticks w;
     host_leds := host_leds w; trace := trace w |}.

Definition set_cs2_state (x : cs2.state) (w : world) : world :=
  {| matrix := matrix w; cs2_state := x; scan_state := scan_state w;
     keyboard_kind := keyboard_kind w; keyboard_id := keyboard_id w; last_time
     := last_time w; ibmpc_error := ibmpc_error w; ibmpc_protocol :=
     ibmpc_protocol w; rx := rx w; tx := tx w; now := now w; ticks := ticks w;
     host_leds := host_leds w; trace := trace w |}.

Definition set_scan_state (x : scan.state) (w : world) : world :=
  {| matrix := matrix w; cs2_state := cs2_state w; scan_state := x;
     keyboard_kind := keyboard_kind w; keyboard_id := keyboard_id w; last_time
     := last_time w; ibmpc_error := ibmpc_error w; ibmpc_protocol :=
     ibmpc_protocol w; rx := rx w; tx := tx w; now := now w; ticks := ticks w;
     host_leds := host_leds w; trace := trace w |}.

Definition set_keyboard_kind (x : kind) (w : world) : world :=
  {| matrix := matrix w; cs2_state := cs2_state w; scan_state := scan_state w;
     keyboard_kind := x; keyboard_id := keyboard_id w; last_time := last_time
     w; ibmpc_error := ibmpc_error w; ibmpc_protocol := ibmpc_protocol w; rx :=
     rx w; tx := tx w; now := now w; ticks := ticks w; host_leds := host_leds
     w; trace := trace w |}.

Definition set_keyboard_id (x : Z) (w : world) : world :=
  {| matrix := matrix w; cs2_state := cs2_state w; scan_state := scan_state w;
     keyboard_kind := keyboard_kind w; keyboard_id := x; last_time := last_time
     w; ibmpc_error := ibmpc_error w; ibmpc_protocol := ibmpc_protocol w; rx :=
     rx w; tx := tx w; now := now w; ticks := ticks w; host_leds := host_leds
     w; trace := trace w |}.

Definition set_last_time (x : Z) (w : world) : world :=
  {| matrix := matrix w; cs2_state := cs2_state w; scan_state := scan_state w;
     keyboard_kind := keyboard_kind w; keyboard_id := keyboard_id w; last_time
     := x; ibmpc_error := ibmpc_error w; ibmpc_protocol := ibmpc_protocol w; rx
     := rx w; tx := tx w; now := now w; ticks := ticks w; host_leds :=
     host_leds w; trace := trace w |}.

Definition set_ibmpc_error (x : Z) (w : world) : world :=
  {| matrix := matrix w; cs2_state := cs2_state w; scan_state := scan_state w;
     keyboard_kind := keyboard_kind w; keyboard_id := keyboard_id w; last_time
     := last_time w; ibmpc_error := x; ibmpc_protocol := ibmpc_protocol w; rx
     := rx w; tx := tx w; now := now w; ticks := ticks w; host_leds :=
     host_leds w; trace := trace w |}.

Definition set_ibmpc_protocol (x : protocol) (w : world) : world :=
  {| matrix := matrix w; cs2_state := cs2_state w; scan_state := scan_state w;
     keyboard_kind := keyboard_kind w; keyboard_id := keyboard_id w; last_time
     := last_time w; ibmpc_error := ibmpc_error w; ibmpc_protocol := x; rx :=
     rx w; tx := tx w; now := now w; ticks := ticks w; host_leds := host_leds
     w; trace := trace w |}.

Definition set_rx (x : list reply) (w : world) : world :=
  {| matrix := matrix w; cs2_state := cs2_state w; scan_state := scan_state w;
     keyboard_kind := keyboard_kind w; keyboard_id := keyboard_id w; last_time
     := last_time w; ibmpc_error := ibmpc_error w; ibmpc_protocol :=
     ibmpc_protocol w; rx := x; tx := tx w; now := now w; ticks := ticks w;
     host_leds := host_leds w; trace := trace w |}.

Definition set_tx (x : list reply) (w : world) : world :=
  {| matrix := matrix w; cs2_state := cs2_state w; scan_state := scan_state w;
     keyboard_kind := keyboard_kind w; keyboard_id := keyboard_id w; last_time
     := last_time w; ibmpc_error := ibmpc_error w; ibmpc_protocol :=
     ibmpc_protocol w; rx := rx w; tx := x; now := now w; ticks := ticks w;
     host_leds := host_leds w; trace := trace w |}.

Definition set_now (x : Z) (w : world) : world :=
  {| matrix := matrix w; cs2_state := cs2_state w; scan_state := scan_state w;
     keyboard_kind := keyboard_kind w; keyboard_id := keyboard_id w; last_time
     := last_time w; ibmpc_error := ibmpc_error w; ibmpc_protocol :=
     ibmpc_protocol w; rx := rx w; tx := tx w; now := x; ticks := ticks w;
     host_leds := host_leds w; trace := trace w |}.

Definition set_ticks (x : list Z) (w : world) : world :=
  {| matrix := matrix w; cs2_state := cs2_state w; scan_state := scan_state w;
     keyboard_kind := keyboard_kind w; keyboard_id := keyboard_id w; last_time
     := last_time w; ibmpc_error := ibmpc_error w; ibmpc_protocol :=
     ibmpc_protocol w; rx := rx w; tx := tx w; now := now w; ticks := x;
     host_leds := host_leds w; trace := trace w |}.

Definition set_trace (x : list event) (w : world) : world :=
  {| matrix := matrix w; cs2_state := cs2_state w; scan_state := scan_state w;
     keyboard_kind := keyboard_kind w; keyboard_id := keyboard_id w; last_time
     := last_time w; ibmpc_error := ibmpc_error w; ibmpc_protocol :=
     ibmpc_protocol w; rx := rx w; tx := tx w; now := now w; ticks := ticks w;
     host_leds := host_leds w; trace := x |}.

(** ** Matrix state

    [static uint8_t matrix[MATRIX_ROWS]], one byte per row. *)

(** Modelled from the spec: MATRIX_ROWS is defined in config.h, which is not
    among the sources; the matrix is "32 rows x 8 columns = 256 cells". *)
Definition MATRIX_ROWS : nat := 32.

Definition ROW (code : Z) : Z := Z.shiftr code 3.
Definition COL (code : Z) : Z := Z.land code 7.

(** [matrix[row]].  Every caller in this file passes a row below MATRIX_ROWS;
    a read outside the array is undefined in C and yields 0 here. *)
Definition matrix_get_row (w : world) (row : Z) : Z :=
  default 0 (matrix w !! Z.to_nat row).

(** [return (matrix[row] & (1<<col));] converted to [bool]. *)
Definition matrix_is_on (w : world) (row col : Z) : bool :=
  negb (Z.land (matrix_get_row w row) (Z.shiftl 1 col) =? 0).

(** [matrix[ROW(code)] |= 1<<COL(code)] when the bit is off. *)
Definition matrix_make (code : Z) (w : world) : world :=
  if negb (matrix_is_on w (ROW code) (COL code))
  then set_matrix
         (<[Z.to_nat (ROW code) :=
              u8 (Z.lor (matrix_get_row w (ROW code)) (Z.shiftl 1 (COL code)))]>
            (matrix w)) w
  else w.

(** [matrix[ROW(code)] &= ~(1<<COL(code))] when the bit is on. *)
Definition matrix_break (code : Z) (w : world) : world :=
  if matrix_is_on w (ROW code) (COL code)
  then set_matrix
         (<[Z.to_nat (ROW code) :=
              u8 (Z.land (matrix_get_row w (ROW code))
                         (Z.lnot (Z.shiftl 1 (COL code))))]>
            (matrix w)) w
  else w.

(** [for (uint8_t i=0; i < MATRIX_ROWS; i++) matrix[i] = 0x00;] *)
Definition matrix_clear (w : world) : world :=
  set_matrix (foldl (fun m i => <[i := 0]> m) (matrix w) (seq 0 MATRIX_ROWS)) w.

Arguments matrix_make : simpl never.
Arguments matrix_break : simpl never.
Arguments matrix_clear : simpl never.

(** The matrices the firmware can hold: MATRIX_ROWS rows of one byte each. *)
Definition matrix_wf (m : list Z) : Prop :=
  length m = MATRIX_ROWS /\ Forall is_u8 m.

#[global] Instance is_u8_dec (z : Z) : Decision (is_u8 z).
Proof. unfold is_u8. apply _. Defined.

#[global] Instance matrix_wf_dec (m : list Z) : Decision (matrix_wf m).
Proof. unfold matrix_wf. apply _. Defined.

Definition matrix_zero : list Z := replicate MATRIX_ROWS 0.

(** Matrix positions for exceptional keys. *)
Definition F7 : Z := 0x83.
Definition PRINT_SCREEN : Z := 0xFC.
Definition PAUSE : Z := 0xFE.

(** ** Collaborators *)

(** Modelled from the spec: the debug logger ("byte-oriented printf-like
    output used only for diagnostics"); [xprintf(fmt, ...)] is recorded. *)
Definition xprintf (fmt : string) (args : list Z) (w : world) : world :=
  set_trace (trace w ++ [EvPrint fmt args]) w.

(** Modelled from the spec: the host's [clear_keyboard()] ("flushes stuck keys
    from the host-side state"); the call is recorded. *)
Definition clear_keyboard (w : world) : world :=
  set_trace (trace w ++ [EvClearKeyboard]) w.

(** Modelled from the spec: the host's [keyboard_leds() -> mask]. *)
Definition host_keyboard_leds (w : world) : Z := u8 (host_leds w).

(** Modelled from the spec: the transport's [recv() -> byte | empty], with
    "a mutable error flag readable after each operation";
    [int16_t ibmpc_host_recv(void)] gives the next scripted answer, and a
    script that has run out is a silent line (no byte, -1). *)
Definition ibmpc_host_recv (w : world) : Z * world :=
  match rx w with
  | [] => (-1, w)
  | r :: rest => (i16 (reply_value r), set_ibmpc_error (u8 (reply_error r)) (set_rx rest w))
  end.

(** Modelled from the spec: the transport's [send(byte) -> ok | fail];
    [int16_t ibmpc_host_send(uint8_t data)] is recorded, its answer is
    scripted, and with no answer left the send fails (-1). *)
Definition ibmpc_host_send (data : Z) (w : world) : Z * world :=
  let w := set_trace (trace w ++ [EvHostSend data]) w in
  match tx w with
  | [] => (-1, w)
  | r :: rest => (i16 (reply_value r), set_ibmpc_error (u8 (reply_error r)) (set_tx rest w))
  end.

(** Modelled from the spec: the transport's [set_led(mask)];
    [ibmpc_host_set_led(led)] is recorded. *)
Definition ibmpc_host_set_led (led : Z) (w : world) : world :=
  set_trace (trace w ++ [EvHostSetLed led]) w.

(** Modelled from the spec: timer.c is not among the sources; the timer is
    "now() -> tick, elapsed(tick) -> ms".  The millisecond counter advances
    by the next scripted amount before it is read (by nothing once the
    script has run out). *)
Definition timer_read (w : world) : Z * world :=
  let w :=
    match ticks w with
    | [] => w
    | d :: rest => set_ticks rest (set_now (now w + d) w)
    end in
  (u16 (now w), w).

Definition timer_elapsed (last : Z) (w : world) : Z * world :=
  let '(t, w) := timer_read w in (u16 (t - last), w).

(** ** Keyboard identification *)

(** [while ((code = ibmpc_host_recv()) == -1 && timer_elapsed(start) < wait_ms);]
    One unit of fuel pays for one turn of the loop. *)
Fixpoint read_wait_loop (fuel : nat) (start wait_ms : Z) (w : world)
  : option (Z * world) :=
  match fuel with
  | O => None
  | S fuel =>
      let '(code, w) := ibmpc_host_recv w in
      if code =? -1 then
        let '(elapsed, w) := timer_elapsed start w in
        if elapsed <? wait_ms then read_wait_loop fuel start wait_ms w
        else Some (code, w)
      else Some (code, w)
  end.

Definition read_wait (fuel : nat) (wait_ms : Z) (w : world) : option (Z * world) :=
  let '(start, w) := timer_read w in
  read_wait_loop fuel start wait_ms w.

Definition read_keyboard_id (fuel : nat) (w : world) : option (Z * world) :=
  (* Disable *)
  let '(code, w) := ibmpc_host_send 0xF5 w in
  (* Read ID *)
  let '(code, w) := ibmpc_host_send 0xF2 w in
  if code =? -1 then Some (0xFFFF, w)          (* XT or No keyboard *)
  else if negb (code =? 0xFA) then Some (0xFFFE, w)  (* Broken PS/2? *)
  else
    '(code, w) ← read_wait fuel 1000 w;
    if code =? -1 then Some (0x0000, w)         (* AT *)
    else
      (* [id = (code & 0xFF)<<8;] the 16 bits that [uint16_t id] keeps *)
      let id := u16 (Z.shiftl (Z.land code 0xFF) 8) in
      '(code, w) ← read_wait fuel 1000 w;
      let id := u16 (Z.lor id (Z.land code 0xFF)) in
      (* Enable *)
      let '(code, w) := ibmpc_host_send 0xF4 w in
      Some (id, w).

(** ** Code Set 2 decoder *)

(** The [switch (state)] statement of [process_cs2], entered with the byte
    that was received, and the value the function returns. *)
Definition process_cs2_switch (code : Z) (w : world) : Z * world :=
  match cs2_state w with
  | cs2.INIT =>
      if code =? 0xE0 then (0, set_cs2_state cs2.E0 w)
      else if code =? 0xF0 then (0, set_cs2_state cs2.F0 w)
      else if code =? 0xE1 then (0, set_cs2_state cs2.E1 w)
      else if code =? 0x83 then          (* F7 *)
        (0, set_cs2_state cs2.INIT (matrix_make F7 w))
      else if code =? 0x84 then          (* Alt'd PrintScreen *)
        (0, set_cs2_state cs2.INIT (matrix_make PRINT_SCREEN w))
      else if code =? 0x00 then          (* Overrun [3]p.26 *)
        (0, set_cs2_state cs2.INIT
              (xprintf "!CS2_OVERRUN!\n" [] (clear_keyboard (matrix_clear w))))
      else if (code =? 0xAA) || (code =? 0xFC) then
        (* Self-test passed / failed: reset or plugin-in new keyboard *)
        (-1, set_cs2_state cs2.INIT w)
      else                               (* normal key make *)
        (0, set_cs2_state cs2.INIT
              (if code <? 0x80 then matrix_make (u8 code) w
               else xprintf "!CS2_INIT!\n" [] (clear_keyboard (matrix_clear w))))
  | cs2.E0 =>                            (* E0-Prefixed *)
      if (code =? 0x12) || (code =? 0x59) then   (* to be ignored *)
        (0, set_cs2_state cs2.INIT w)
      else if code =? 0x7E then          (* Control'd Pause *)
        (0, set_cs2_state cs2.E0_7E w)
      else if code =? 0xF0 then (0, set_cs2_state cs2.E0_F0 w)
      else
        (0, set_cs2_state cs2.INIT
              (if code <? 0x80 then matrix_make (u8 (Z.lor code 0x80)) w
               else xprintf "!CS2_E0!\n" [] (clear_keyboard (matrix_clear w))))
  | cs2.F0 =>                            (* Break code *)
      if code =? 0x83 then               (* F7 *)
        (0, set_cs2_state cs2.INIT (matrix_break F7 w))
      else if code =? 0x84 then          (* Alt'd PrintScreen *)
        (0, set_cs2_state cs2.INIT (matrix_break PRINT_SCREEN w))
      else
        (0, set_cs2_state cs2.INIT
              (if code <? 0x80 then matrix_break (u8 code) w
               else xprintf "!CS2_F0!\n" [] (clear_keyboard (matrix_clear w))))
  | cs2.E0_F0 =>                         (* Break code of E0-prefixed *)
      if (code =? 0x12) || (code =? 0x59) then   (* to be ignored *)
        (0, set_cs2_state cs2.INIT w)
      else
        (0, set_cs2_state cs2.INIT
              (if code <? 0x80 then matrix_break (u8 (Z.lor code 0x80)) w
               else xprintf "!CS2_E0_F0!\n" [] (clear_keyboard (matrix_clear w))))
  (* following are states of Pause *)
  | cs2.E1 =>
      if code =? 0x14 then (0, set_cs2_state cs2.E1_14 w)
      else (0, set_cs2_state cs2.INIT w)
  | cs2.E1_14 =>
      if code =? 0x77 then (0, set_cs2_state cs2.E1_14_77 w)
      else (0, set_cs2_state cs2.INIT w)
  | cs2.E1_14_77 =>
      if code =? 0xE1 then (0, set_cs2_state cs2.E1_14_77_E1 w)
      else (0, set_cs2_state cs2.INIT w)
  | cs2.E1_14_77_E1 =>
      if code =? 0xF0 then (0, set_cs2_state cs2.E1_14_77_E1_F0 w)
      else (0, set_cs2_state cs2.INIT w)
  | cs2.E1_14_77_E1_F0 =>
      if code =? 0x14 then (0, set_cs2_state cs2.E1_14_77_E1_F0_14 w)
      else (0, set_cs2_state cs2.INIT w)
  | cs2.E1_14_77_E1_F0_14 =>
      if code =? 0xF0 then (0, set_cs2_state cs2.E1_14_77_E1_F0_14_F0 w)
      else (0, set_cs2_state cs2.INIT w)
  | cs2.E1_14_77_E1_F0_14_F0 =>
      if code =? 0x77 then (0, set_cs2_state cs2.INIT (matrix_make PAUSE w))
      else (0, set_cs2_state cs2.INIT w)
  (* Following are states of Control'd Pause *)
  | cs2.E0_7E =>
      if code =? 0xE0 then (0, set_cs2_state cs2.E0_7E_E0 w)
      else (0, set_cs2_state cs2.INIT w)
  | cs2.E0_7E_E0 =>
      if code =? 0xF0 then (0, set_cs2_state cs2.E0_7E_E0_F0 w)
      else (0, set_cs2_state cs2.INIT w)
  | cs2.E0_7E_E0_F0 =>
      (0, set_cs2_state cs2.INIT
            (if code =? 0x7E then matrix_make PAUSE w else w))
  end.

(** The 'pseudo break code' hack that opens [process_cs2]:
    [if (matrix_is_on(ROW(PAUSE), COL(PAUSE))) matrix_break(PAUSE);] *)
Definition pause_pseudo_break (w : world) : world :=
  if matrix_is_on w (ROW PAUSE) (COL PAUSE) then matrix_break PAUSE w else w.

Arguments pause_pseudo_break : simpl never.

(** [int8_t process_cs2(void)].  [code] is a [uint16_t]: the -1 of an empty
    receive buffer is stored as 0xFFFF and compared with -1 converted to
    [unsigned int], which is 0xFFFF as well. *)
Definition process_cs2 (w : world) : Z * world :=
  let w := pause_pseudo_break w in
  let '(r, w) := ibmpc_host_recv w in
  let code := u16 r in
  if code =? u16 (-1) then (0, w)
  else process_cs2_switch code w.

(** The decoder called once for every answer the receive script holds. *)
Fixpoint process_cs2_n (n : nat) (w : world) : list Z * world :=
  match n with
  | O => ([], w)
  | S n =>
      let '(r, w) := process_cs2 w in
      let '(rs, w) := process_cs2_n n w in
      (r :: rs, w)
  end.

(** ** Lifecycle *)

(** Constants of ibmpc.h and led.h, which are not among the sources. *)
Class headers : Type := Headers {
  IBMPC_ERR_NONE : Z;
  IBMPC_ERR_SEND : Z;
  IBMPC_ERR_FULL : Z;
  IBMPC_LED_SCROLL_LOCK : Z;
  IBMPC_LED_NUM_LOCK : Z;
  IBMPC_LED_CAPS_LOCK : Z;
  USB_LED_SCROLL_LOCK : Z;
  USB_LED_NUM_LOCK : Z;
  USB_LED_CAPS_LOCK : Z
}.

(** The ReadId classification of [matrix_scan]: the [if] chain over
    [keyboard_id]; the mouse is reported on the console. *)
Definition classify_keyboard_id (w : world) : world :=
  if 0xAB00 =? Z.land (keyboard_id w) 0xFF00 then
    set_keyboard_kind PC_AT w            (* CodeSet2 PS/2 *)
  else if 0xBF00 =? Z.land (keyboard_id w) 0xFF00 then
    set_keyboard_kind PC_TERMINAL w      (* CodeSet3 Terminal *)
  else if 0x0000 =? keyboard_id w then
    set_keyboard_kind PC_AT w            (* CodeSet2 AT *)
  else if 0xFFFF =? keyboard_id w then
    set_keyboard_kind PC_XT w            (* CodeSet1 XT *)
  else if 0xFFFE =? keyboard_id w then
    set_keyboard_kind PC_AT w            (* CodeSet2 PS/2 fails to response? *)
  else if 0x00FF =? keyboard_id w then   (* Mouse is not supported *)
    set_keyboard_kind NONE (xprintf "Mouse: not supported\n" [] w)
  else
    set_keyboard_kind PC_AT w.

(** The protocol selection that follows it. *)
Definition select_protocol (w : world) : world :=
  match keyboard_kind w with
  | PC_XT => set_ibmpc_protocol IBMPC_PROTOCOL_XT (xprintf "kbd: XT\n" [] w)
  | PC_AT => set_ibmpc_protocol IBMPC_PROTOCOL_AT (xprintf "kbd: AT\n" [] w)
  | PC_TERMINAL =>
      set_ibmpc_protocol IBMPC_PROTOCOL_AT (xprintf "kbd: Terminal\n" [] w)
  | _ => set_ibmpc_protocol IBMPC_PROTOCOL_AT (xprintf "kbd: Unknown\n" [] w)
  end.

Section Lifecycle.
Context `{headers}.

Definition led_set (usb_led : Z) (w : world) : world :=
  match keyboard_kind w with
  | PC_AT =>
      let ibmpc_led := 0 in
      let ibmpc_led :=
        if negb (Z.land usb_led (Z.shiftl 1 USB_LED_SCROLL_LOCK) =? 0)
        then Z.lor ibmpc_led (Z.shiftl 1 IBMPC_LED_SCROLL_LOCK) else ibmpc_led in
      let ibmpc_led :=
        if negb (Z.land usb_led (Z.shiftl 1 USB_LED_NUM_LOCK) =? 0)
        then Z.lor ibmpc_led (Z.shiftl 1 IBMPC_LED_NUM_LOCK) else ibmpc_led in
      let ibmpc_led :=
        if negb (Z.land usb_led (Z.shiftl 1 USB_LED_CAPS_LOCK) =? 0)
        then Z.lor ibmpc_led (Z.shiftl 1 IBMPC_LED_CAPS_LOCK) else ibmpc_led in
      ibmpc_host_set_led (u8 ibmpc_led) w
  | _ => w
  end.

(** The [if (ibmpc_error)] block that opens [matrix_scan]. *)
Definition scan_error_check (w : world) : world :=
  if negb (ibmpc_error w =? 0) then
    let w := xprintf "err: %02X\n" [ibmpc_error w] w in
    (* when recv error, neither send error nor buffer full *)
    let w :=
      if Z.land (ibmpc_error w) (Z.lor IBMPC_ERR_SEND IBMPC_ERR_FULL) =? 0 then
        (* keyboard init again *)
        match scan_state w with
        | scan.LOOP => set_scan_state scan.INIT (xprintf "init\n" [] w)
        | _ => w
        end
      else w in
    (* clear or process error *)
    set_ibmpc_error (u8 IBMPC_ERR_NONE) w
  else w.

(** [case LOOP:] of [matrix_scan]. *)
Definition scan_loop (w : world) : world :=
  match keyboard_kind w with
  | PC_AT => snd (process_cs2 w)
  | _ => w
  end.

(** [case READ_ID:] of [matrix_scan]. *)
Definition scan_read_id (fuel : nat) (w : world) : option world :=
  '(id, w) ← read_keyboard_id fuel w;
  let w := set_keyboard_id id w in
  let w :=
    if negb (ibmpc_error w =? 0) then
      set_ibmpc_error (u8 IBMPC_ERR_NONE) (xprintf "err: %02X\n" [ibmpc_error w] w)
    else w in
  let w := xprintf "ID: %04X\n" [keyboard_id w] w in
  let w := classify_keyboard_id w in
  (* protocol *)
  let w := select_protocol w in
  Some (set_scan_state scan.LED_SET w).

(** [uint8_t matrix_scan(void)]; [fuel] bounds the polling of [read_wait]. *)
Definition matrix_scan (fuel : nat) (w : world) : option (Z * world) :=
  let w := scan_error_check w in
  w ← match scan_state w with
      | scan.INIT =>
          let w := set_ibmpc_protocol IBMPC_PROTOCOL_AT w in
          let w := set_keyboard_kind NONE w in
          let w := set_keyboard_id 0x0000 w in
          let '(t, w) := timer_read w in
          let w := set_last_time t w in
          let w := set_scan_state scan.WAIT_STARTUP w in
          Some (matrix_clear w)
      | scan.WAIT_STARTUP =>
          (* read and ignore BAT code and other codes when power-up *)
          let '(code, w) := ibmpc_host_recv w in
          let '(elapsed, w) := timer_elapsed (last_time w) w in
          Some (if 1000 <? elapsed then set_scan_state scan.READ_ID w else w)
      | scan.READ_ID => scan_read_id fuel w
      | scan.LED_SET =>
          let w := led_set (host_keyboard_leds w) w in
          let w := set_scan_state scan.LOOP w in
          Some (scan_loop w)
      | scan.LOOP => Some (scan_loop w)
      | scan.END => Some w
      end;
  Some (1, w).

End Lifecycle.

(** ** Action resolution (unimap_trans.h) *)

(** [keypos_t]. *)
Record keypos_t : Type := Keypos { col : Z; row : Z }.

Section ActionForKey.

(** The three translation tables as [pgm_read_byte] reads them at
    [[row][col]], the layered action table as [pgm_read_word] reads it, and
    the two constants of unimap.h and action_code.h the resolver names.  The
    entries of the tables are constants of unimap.h, which is not among the
    sources. *)
Variable unimap_cs1 unimap_cs2 unimap_cs3 : Z -> Z -> Z.
Variable actionmaps : Z -> Z -> Z -> Z.
Variable UNIMAP_NO : Z.
Variable ACTION_NO : Z.

Definition action_for_key (layer : Z) (key : keypos_t) (w : world) : Z :=
  match
    match keyboard_kind w with
    | PC_XT => Some (unimap_cs1 (row key) (col key))
    | PC_AT => Some (unimap_cs2 (row key) (col key))
    | PC_TERMINAL => Some (unimap_cs3 (row key) (col key))
    | _ => None
    end
  with
  | None => ACTION_NO
  | Some unimap_pos =>
      if unimap_pos =? UNIMAP_NO then ACTION_NO
      else actionmaps layer (Z.shiftr (Z.land unimap_pos 0x70) 4)
                            (Z.land unimap_pos 0x0f)
  end.

(** What the universal layout holds: no position, or one of 8 rows of 16
    columns (the high nibble is the row, the low nibble the column). *)
Definition unimap_entry (u : Z) : Prop := u = UNIMAP_NO \/ 0 <= u < 0x80.

(** The resolver in the words of the specification (4.5): look up the
    position in the table of the active family, no action when the family is
    unset or the position is NO, else the action at
    [(layer, ukp >> 4, ukp & 0x0F)]. *)
Definition action_for_key_spec (layer : Z) (key : keypos_t) (w : world) : Z :=
  let resolve ukp :=
    if ukp =? UNIMAP_NO then ACTION_NO
    else actionmaps layer (Z.shiftr ukp 4) (Z.land ukp 0x0F) in
  match keyboard_kind w with
  | PC_XT => resolve (unimap_cs1 (row key) (col key))
  | PC_AT => resolve (unimap_cs2 (row key) (col key))
  | PC_TERMINAL => resolve (unimap_cs3 (row key) (col key))
  | NONE | OTHER => ACTION_NO
  end.

End ActionForKey.

(** ** Key count (matrix.c) *)

(** Modelled from the spec: [bitpop] of util.c is not among the sources; it
    is the "population count" of a byte. *)
Definition bitpop (bits : Z) : Z :=
  foldl (fun c j => c + Z.b2z (Z.testbit bits (Z.of_nat j))) 0 (seq 0 8).

(** [uint8_t matrix_key_count(void)]: [count += bitpop(matrix[i])] over the
    rows, in a [uint8_t]. *)
Definition matrix_key_count (w : world) : Z :=
  foldl (fun count i => u8 (count + bitpop (matrix_get_row w (Z.of_nat i))))
        0 (seq 0 MATRIX_ROWS).

(** The number of codes 0..255 whose bit [matrix_is_on] reports on. *)
Definition keys_on (w : world) : Z :=
  foldl (fun n c => n + Z.b2z (matrix_is_on w (ROW (Z.of_nat c)) (COL (Z.of_nat c))))
        0 (seq 0 256).

(** ** Vocabulary of the decoder's properties *)

(** The byte a Pause or Control'd Pause state waits for; the four states of
    ordinary make and break codes wait for none in particular. *)
Definition pause_next (st : cs2.state) : option Z :=
  match st with
  | cs2.INIT | cs2.F0 | cs2.E0 | cs2.E0_F0 => None
  | cs2.E1 => Some 0x14
  | cs2.E1_14 => Some 0x77
  | cs2.E1_14_77 => Some 0xE1
  | cs2.E1_14_77_E1 => Some 0xF0
  | cs2.E1_14_77_E1_F0 => Some 0x14
  | cs2.E1_14_77_E1_F0_14 => Some 0xF0
  | cs2.E1_14_77_E1_F0_14_F0 => Some 0x77
  | cs2.E0_7E => Some 0xE0
  | cs2.E0_7E_E0 => Some 0xF0
  | cs2.E0_7E_E0_F0 => Some 0x7E
  end.

(** The bytes from 0x80 up that a state of ordinary codes has a [case] for. *)
Definition has_case (st : cs2.state) (code : Z) : bool :=
  match st with
  | cs2.INIT =>
      (code =? 0xE0) || (code =? 0xF0) || (code =? 0xE1) || (code =? 0x83)
      || (code =? 0x84) || (code =? 0xAA) || (code =? 0xFC)
  | cs2.E0 => code =? 0xF0
  | cs2.F0 => (code =? 0x83) || (code =? 0x84)
  | _ => false
  end.

(** A byte is unexpected in a state when it is not the byte a Pause state
    waits for, or, in a state of ordinary codes, when it is neither a key
    code (below 0x80) nor a byte with a [case] of its own. *)
Definition unexpected (st : cs2.state) (code : Z) : bool :=
  match pause_next st with
  | Some b => negb (code =? b)
  | None => (0x80 <=? code) && negb (has_case st code)
  end.

(** The last byte of [E1 14 77 E1 F0 14 F0 77] or of [E0 7E E0 F0 7E]. *)
Definition completes_pause (st : cs2.state) (code : Z) : bool :=
  match st with
  | cs2.E1_14_77_E1_F0_14_F0 => code =? 0x77
  | cs2.E0_7E_E0_F0 => code =? 0x7E
  | _ => false
  end.

(** The shadow-shift sequences of the keyboard. *)
Definition shadow_shift_sequences : list (list Z) :=
  [[0xE0; 0x12]; [0xE0; 0x59]; [0xE0; 0xF0; 0x12]; [0xE0; 0xF0; 0x59]].

(** The value of the next [ibmpc_host_recv()], as [process_cs2] stores it
    in its [uint16_t code]. *)
Definition next_code (w : world) : Z := u16 (fst (ibmpc_host_recv w)).

(** What [process_cs2] has no business with: the lifecycle, the family, the
    ID, the protocol, the send script, the clock and the host's LEDs. *)
Definition outside_decoder (w : world) :=
  (scan_state w, keyboard_kind w, keyboard_id w, last_time w, ibmpc_protocol w,
   tx w, now w, ticks w, host_leds w).

(** The converter's own variables, as opposed to the scripts, the trace and
    the error flag of the driver. *)
Definition converter_statics (w : world) :=
  (matrix w, cs2_state w, scan_state w, keyboard_kind w, keyboard_id w,
   last_time w, ibmpc_protocol w).

(** A byte that only moves the decoder from one state to another. *)
Definition quiet_transition (s : cs2.state) (b : Z) (s' : cs2.state) : Prop :=
  is_u8 b /\ forall w, cs2_state w = s ->
                process_cs2_switch b w = (0, set_cs2_state s' w).

(** A run of such bytes, each with the state it leads to. *)
Fixpoint quiet_path (s : cs2.state) (p : list (Z * cs2.state)) : Prop :=
  match p with
  | [] => True
  | (b, s') :: p => quiet_transition s b s' /\ quiet_path s' p
  end.

Fixpoint path_end (s : cs2.state) (p : list (Z * cs2.state)) : cs2.state :=
  match p with
  | [] => s
  | (_, s') :: p => path_end s' p
  end.

(** The bytes on which the decoder gives the matrix up: the overrun byte in
    INIT, and the unexpected bytes of the states of ordinary codes. *)
Definition cs2_clears (st : cs2.state) (code : Z) : bool :=
  match pause_next st with
  | Some _ => false
  | None =>
      unexpected st code
      || match st with cs2.INIT => code =? 0x00 | _ => false end
  end.

(** The matrix positions no byte sequence turns on: 00 is the overrun byte,
    and E0 12 and E0 59 are the shadow shifts. *)
Definition never_made : list Z := [0x00; 0x92; 0xD9].

(** The Pause sequences without their last byte, as quiet paths from INIT. *)
Definition pause_path : list (Z * cs2.state) :=
  [(0xE1, cs2.E1); (0x14, cs2.E1_14); (0x77, cs2.E1_14_77);
   (0xE1, cs2.E1_14_77_E1); (0xF0, cs2.E1_14_77_E1_F0);
   (0x14, cs2.E1_14_77_E1_F0_14); (0xF0, cs2.E1_14_77_E1_F0_14_F0)].

Definition ctrl_pause_path : list (Z * cs2.state) :=
  [(0xE0, cs2.E0); (0x7E, cs2.E0_7E); (0xE0, cs2.E0_7E_E0);
   (0xF0, cs2.E0_7E_E0_F0)].

(** ** Sample states *)

(** The converter at power-on: every static at its initial value, and
    collaborators that stay silent. *)
Definition power_on : world :=
  {| matrix := matrix_zero; cs2_state := cs2.INIT; scan_state := scan.INIT;
     keyboard_kind := NONE; keyboard_id := 0x0000; last_time := 0;
     ibmpc_error := 0; ibmpc_protocol := IBMPC_PROTOCOL_AT;
     rx := []; tx := []; now := 0; ticks := []; host_leds := 0; trace := [] |}.

(** A script of bytes that arrive without transport error. *)
Definition bytes (l : list Z) : list reply := map (fun b => Reply b 0) l.

(** The matrix after the decoder, started at power-on, has been called once
    for each of the given bytes. *)
Definition decode (l : list Z) : list Z :=
  matrix (snd (process_cs2_n (length l) (set_rx (bytes l) power_on))).

(** The matrix with the given codes on and every other bit off. *)
Definition keys_down (codes : list Z) : list Z :=
  matrix (foldl (fun w c => matrix_make c w) power_on codes).

(** The A key (scan code 1C) held down. *)
Definition key_A_down : world := matrix_make 0x1C power_on.

(** The A key held down, the decoder one byte into a Pause sequence, and a
    byte on the line that is not the 0x14 the sequence goes on with. *)
Definition pause_interrupted : world :=
  set_rx (bytes [0x00]) (set_cs2_state cs2.E1 key_A_down).

(** The A key held down, the decoder in INIT, and 0x85 on the line. *)
Definition stray_byte : world := set_rx (bytes [0x85]) key_A_down.

(** The A key held down and [E0 F0 12] on the line. *)
Definition shadow_shift_release : world :=
  set_rx (bytes [0xE0; 0xF0; 0x12]) key_A_down.

(** The A key held down and its break code on the line. *)
Definition key_A_release : world := set_rx (bytes [0xF0; 0x1C]) key_A_down.

(** The make code of the Up arrow, of PrintScreen, and of PrintScreen with
    Alt, on the line at power-on. *)
Definition up_arrow_press : world := set_rx (bytes [0xE0; 0x75]) power_on.
Definition print_screen_press : world := set_rx (bytes [0xE0; 0x7C]) power_on.
Definition alt_print_screen_press : world := set_rx (bytes [0x84]) power_on.

(** Pause pressed, then the shadow shift [E0 12]: the line, and the
    converter once the eight bytes of Pause are decoded. *)
Definition pause_then_shadow_shift : world :=
  set_rx (bytes [0xE1; 0x14; 0x77; 0xE1; 0xF0; 0x14; 0xF0; 0x77; 0xE0; 0x12])
    power_on.

Definition pause_pressed : world := snd (process_cs2_n 8 pause_then_shadow_shift).

(** The values of ibmpc.h and led.h in the TMK tree, for the examples. *)
Definition tmk_headers : headers :=
  {| IBMPC_ERR_NONE := 0; IBMPC_ERR_SEND := 0x10; IBMPC_ERR_FULL := 0x40;
     IBMPC_LED_SCROLL_LOCK := 0; IBMPC_LED_NUM_LOCK := 1; IBMPC_LED_CAPS_LOCK := 2;
     USB_LED_SCROLL_LOCK := 2; USB_LED_NUM_LOCK := 0; USB_LED_CAPS_LOCK := 1 |}.

(** The host calling [matrix_scan] [n] times in a row. *)
Fixpoint matrix_scan_n `{headers} (n fuel : nat) (w : world) : option world :=
  match n with
  | O => Some w
  | S n => '(_, w) ← matrix_scan fuel w; matrix_scan_n n fuel w
  end.

(** A PS/2 keyboard plugged in at power-on: the self-test byte AA during the
    start-up wait, the ID bytes AB 83, then the A key pressed. *)
Definition ps2_keyboard_plugged : world :=
  set_tx (bytes [0xFA; 0xFA; 0xFA])
    (set_rx (bytes [0xAA; 0xAB; 0x83; 0x1C])
       (set_ticks [0; 1001; 0; 0] power_on)).

(** An AT keyboard in the steady state with A held down: a byte waiting, and
    the same after a receive error (parity) and after a send error. *)
Definition at_loop : world :=
  set_rx (bytes [0xAA])
    (set_scan_state scan.LOOP
       (set_keyboard_id 0xAB83 (set_keyboard_kind PC_AT key_A_down))).


(** An XT keyboard in the steady state, with a byte waiting. *)
Definition xt_loop : world :=
  set_rx (bytes [0x1E])
    (set_scan_state scan.LOOP
       (set_keyboard_id 0xFFFF (set_keyboard_kind PC_XT power_on))).


(** Keyboards under identification.  The driver answers 0xFA to a command
    it could send; the millisecond counter stands still until a wait is
    polled with nothing to read, and then jumps by a second. *)

(** A PS/2 keyboard: both commands acknowledged, then the ID bytes AB 83. *)
Definition ps2_keyboard : world :=
  set_tx (bytes [0xFA; 0xFA; 0xFA]) (set_rx (bytes [0xAB; 0x83])
    (set_ticks [0; 0] (set_scan_state scan.READ_ID power_on))).

(** An 84-key AT keyboard: both commands acknowledged, no ID byte. *)
Definition at_84key_keyboard : world :=
  set_tx (bytes [0xFA; 0xFA; 0xFA])
    (set_ticks [0; 1000] (set_scan_state scan.READ_ID power_on)).

(** An XT keyboard: nothing can be sent to it. *)
Definition xt_keyboard : world := set_scan_state scan.READ_ID power_on.

(** A keyboard that answers 0xF2 with something else than 0xFA. *)
Definition broken_ps2_keyboard : world :=
  set_tx (bytes [0xFA; 0xFE; 0xFA]) (set_scan_state scan.READ_ID power_on).

(** A keyboard that goes silent after the first ID byte, AB. *)
Definition half_id_keyboard : world :=
  set_tx (bytes [0xFA; 0xFA; 0xFA]) (set_rx (bytes [0xAB])
    (set_ticks [0; 0; 1000] (set_scan_state scan.READ_ID power_on))).

(** The same keyboards further on: [ps2_keyboard] when [read_keyboard_id]
    returns, [half_id_keyboard] after the first and after the second wait. *)
Definition ps2_keyboard_identified : world :=
  Eval vm_compute in
    default power_on (snd <$> read_keyboard_id 1 (@scan_error_check tmk_headers ps2_keyboard)).

Definition half_id_first_wait : world :=
  Eval vm_compute in
    default power_on
      (snd <$> read_wait 1 1000
         (snd (ibmpc_host_send 0xF2 (snd (ibmpc_host_send 0xF5 half_id_keyboard))))).

Definition half_id_second_wait : world :=
  Eval vm_compute in default power_on (snd <$> read_wait 1 1000 half_id_first_wait).


(** An AT keyboard that has just been identified, with Caps Lock lit on the
    host and the make code of A on the line. *)
Definition at_led_set : world :=
  {| matrix := matrix_zero; cs2_state := cs2.INIT; scan_state := scan.LED_SET;
     keyboard_kind := PC_AT; keyboard_id := 0xAB83; last_time := 0;
     ibmpc_error := 0; ibmpc_protocol := IBMPC_PROTOCOL_AT;
     rx := bytes [0x1C]; tx := []; now := 0; ticks := []; host_leds := 0x02;
     trace := [] |}.

(** [ps2_keyboard] after the call of [matrix_scan] that identifies it. *)
Definition ps2_keyboard_scanned : world :=
  Eval vm_compute in
    default power_on (snd <$> @matrix_scan tmk_headers 1 ps2_keyboard).

(** A line with nothing to read, at 65000 ms, the counter about to wrap: it
    advances by 5, 400, 700 and 3 ms at the next four readings. *)
Definition silent_line : world :=
  set_now 65000 (set_ticks [5; 400; 700; 3] power_on).

(** [silent_line] when a wait of one second on it returns. *)
Definition silent_line_timed_out : world :=
  Eval vm_compute in default power_on (snd <$> read_wait 2 1000 silent_line).

(** A translation table with one key, at row 3 and column 4, and an action
    table that tells its indices apart. *)
Definition one_key_table (r c : Z) : Z :=
  if (r =? 3) && (c =? 4) then 0x4B else 0x80.

Definition index_actions (layer r c : Z) : Z := 0x1000 * layer + 0x10 * r + c.

(** * Properties *)

(** A decidable statement about given values holds when its decision
    procedure says so. *)
Ltac by_decide :=
  match goal with
  | |- ?P =>
      let d := constr:(_ : Decision P) in
      apply (@bool_decide_unpack P d); vm_compute; exact I
  end.

(** ** The scenarios of the specification *)

Example decode_1C : decode [0x1C] = keys_down [0x1C]
                    /\ decode [0x1C; 0xF0; 0x1C] = matrix_zero.
Proof. split; vm_compute; reflexivity. Qed.

Example decode_up_arrow : decode [0xE0; 0x75] = keys_down [0xF5]
                          /\ decode [0xE0; 0x75; 0xE0; 0xF0; 0x75] = matrix_zero.
Proof. split; vm_compute; reflexivity. Qed.

Example decode_print_screen :
  decode [0xE0; 0x12; 0xE0; 0x7C] = keys_down [PRINT_SCREEN]
  /\ decode [0xE0; 0x12; 0xE0; 0x7C; 0xE0; 0xF0; 0x7C; 0xE0; 0xF0; 0x12] = matrix_zero
  /\ decode [0x84] = keys_down [PRINT_SCREEN]
  /\ decode [0x84; 0xF0; 0x84] = matrix_zero.
Proof. repeat split; vm_compute; reflexivity. Qed.

Example decode_pause :
  decode [0xE1; 0x14; 0x77; 0xE1; 0xF0; 0x14; 0xF0; 0x77] = keys_down [PAUSE]
  /\ decode [0xE0; 0x7E; 0xE0; 0xF0; 0x7E] = keys_down [PAUSE]
  /\ matrix (pause_pseudo_break pause_pressed) = matrix_zero.
Proof. repeat split; vm_compute; reflexivity. Qed.

Example startup_ps2_keyboard :
  (fun w => (scan_state w, keyboard_id w, keyboard_kind w, ibmpc_protocol w,
             matrix w, trace w))
    <$> @matrix_scan_n tmk_headers 5 1 ps2_keyboard_plugged
  = Some (scan.LOOP, 0xAB83, PC_AT, IBMPC_PROTOCOL_AT, keys_down [0x1C],
          [EvHostSend 0xF5; EvHostSend 0xF2; EvHostSend 0xF4;
           EvPrint "ID: %04X\n" [0xAB83]; EvPrint "kbd: AT\n" [];
           EvHostSetLed 0]).
Proof. vm_compute. reflexivity. Qed.

(** ** Bits and bytes *)

Lemma u8_id (z : Z) : is_u8 z -> u8 z = z.
Proof. intros Hz. apply Z.mod_small. exact Hz. Qed.

Lemma is_u8_high_bits (z i : Z) : is_u8 z -> 8 <= i -> Z.testbit z i = false.
Proof.
  intros Hz Hi. rewrite <- (u8_id z Hz). unfold u8.
  change 256 with (2 ^ 8). apply Z.mod_pow2_bits_high. lia.
Qed.

Lemma u8_testbit (z i : Z) : Z.testbit (u8 z) i = (i <? 8) && Z.testbit z i.
Proof. unfold u8. change 256 with (2 ^ 8). apply Z.testbit_mod_pow2. lia. Qed.

Lemma u8_is_u8 (z : Z) : is_u8 (u8 z).
Proof. unfold is_u8, u8. apply Z.mod_pos_bound. lia. Qed.

Lemma land_bit_testbit (r c : Z) :
  0 <= c -> (Z.land r (Z.shiftl 1 c) =? 0) = negb (Z.testbit r c).
Proof.
  intros Hc. rewrite Z.shiftl_1_l.
  destruct (Z.testbit r c) eqn:Hb; simpl.
  - apply Z.eqb_neq. intros Hz.
    assert (Z.testbit (Z.land r (2 ^ c)) c = false) as Hf
      by (rewrite Hz; apply Z.bits_0).
    rewrite Z.land_spec, Hb, Z.pow2_bits_true in Hf by lia. discriminate.
  - apply Z.eqb_eq. apply Z.bits_inj'. intros n Hn.
    rewrite Z.land_spec, Z.bits_0, Z.pow2_bits_eqb by lia.
    destruct (Z.eqb_spec c n); subst; [rewrite Hb|rewrite andb_false_r]; reflexivity.
Qed.

Lemma COL_range (code : Z) : 0 <= COL code < 8.
Proof.
  unfold COL. change 7 with (Z.ones 3). rewrite Z.land_ones by lia.
  apply Z.mod_pos_bound. lia.
Qed.

Lemma ROW_range (code : Z) : is_u8 code -> 0 <= ROW code < 32.
Proof.
  unfold is_u8, ROW. intros Hc. rewrite Z.shiftr_div_pow2 by lia.
  change (2 ^ 3) with 8. split.
  - apply Z.div_pos; lia.
  - apply Z.div_lt_upper_bound; lia.
Qed.

Lemma ROW_COL_inj (c d : Z) : ROW c = ROW d -> COL c = COL d -> c = d.
Proof.
  unfold ROW, COL. change 7 with (Z.ones 3).
  rewrite !Z.land_ones, !Z.shiftr_div_pow2 by lia. change (2 ^ 3) with 8.
  intros Hr Hc. rewrite (Z.div_mod c 8), (Z.div_mod d 8) by lia. congruence.
Qed.

Lemma matrix_is_on_testbit (w : world) (r c : Z) :
  0 <= c -> matrix_is_on w r c = Z.testbit (matrix_get_row w r) c.
Proof.
  intros Hc. unfold matrix_is_on. rewrite land_bit_testbit by exact Hc.
  apply negb_involutive.
Qed.

Lemma matrix_get_row_u8 (w : world) (r : Z) :
  matrix_wf (matrix w) -> is_u8 (matrix_get_row w r).
Proof.
  intros [_ Hall]. unfold matrix_get_row.
  destruct (matrix w !! Z.to_nat r) as [x|] eqn:Hx; simpl.
  - eapply Forall_lookup_1; eassumption.
  - unfold is_u8. lia.
Qed.

(** Setting a bit of a byte yields a byte, with that one bit changed. *)
Lemma set_bit_testbit (r c i : Z) :
  is_u8 r -> 0 <= c < 8 -> 0 <= i ->
  Z.testbit (u8 (Z.lor r (Z.shiftl 1 c))) i = Z.testbit r i || (c =? i).
Proof.
  intros Hr Hc Hi. rewrite u8_testbit, Z.lor_spec, Z.shiftl_1_l, Z.pow2_bits_eqb by lia.
  destruct (Z.ltb_spec i 8); simpl; [reflexivity|].
  rewrite is_u8_high_bits by (assumption || lia).
  symmetry. simpl. apply Z.eqb_neq. lia.
Qed.

(** Clearing a bit of a byte yields a byte, with that one bit changed. *)
Lemma clear_bit_testbit (r c i : Z) :
  is_u8 r -> 0 <= c < 8 -> 0 <= i ->
  Z.testbit (u8 (Z.land r (Z.lnot (Z.shiftl 1 c)))) i
  = Z.testbit r i && negb (c =? i).
Proof.
  intros Hr Hc Hi.
  rewrite u8_testbit, Z.land_spec, Z.lnot_spec, Z.shiftl_1_l, Z.pow2_bits_eqb by lia.
  destruct (Z.ltb_spec i 8); simpl; [reflexivity|].
  rewrite is_u8_high_bits by (assumption || lia). reflexivity.
Qed.

(** ** Matrix primitives *)

Ltac split4 := split; [|split; [|split]].

Lemma set_matrix_id (w : world) : set_matrix (matrix w) w = w.
Proof. destruct w; reflexivity. Qed.

Lemma set_matrix_twice (m m' : list Z) (w : world) :
  set_matrix m (set_matrix m' w) = set_matrix m w.
Proof. reflexivity. Qed.

Lemma row_in_matrix (m : list Z) (code : Z) :
  matrix_wf m -> is_u8 code -> (Z.to_nat (ROW code) < length m)%nat.
Proof.
  intros [Hlen _] Hc. rewrite Hlen. unfold MATRIX_ROWS.
  pose proof (ROW_range code Hc). lia.
Qed.

Lemma matrix_get_row_written (w : world) (r x : Z) :
  (Z.to_nat r < length (matrix w))%nat ->
  matrix_get_row (set_matrix (<[Z.to_nat r := x]> (matrix w)) w) r = x.
Proof.
  intros Hr. unfold matrix_get_row. simpl.
  rewrite list_lookup_insert_eq by exact Hr. reflexivity.
Qed.

Lemma matrix_wf_insert (m : list Z) (i : nat) (x : Z) :
  matrix_wf m -> is_u8 x -> matrix_wf (<[i := x]> m).
Proof.
  intros [Hlen Hall] Hx. split.
  - rewrite length_insert. exact Hlen.
  - apply Forall_insert; assumption.
Qed.

(** The effect of [matrix_make] on every bit of the matrix. *)
Lemma matrix_make_bits (w : world) (code : Z) :
  matrix_wf (matrix w) -> is_u8 code ->
  set_matrix (matrix w) (matrix_make code w) = w
  /\ matrix_wf (matrix (matrix_make code w))
  /\ (forall i : nat, i <> Z.to_nat (ROW code) ->
        matrix (matrix_make code w) !! i = matrix w !! i)
  /\ (forall j : Z, 0 <= j ->
        Z.testbit (matrix_get_row (matrix_make code w) (ROW code)) j
        = Z.testbit (matrix_get_row w (ROW code)) j || (COL code =? j)).
Proof.
  intros Hwf Hc. pose proof (COL_range code) as Hcol.
  pose proof (matrix_get_row_u8 w (ROW code) Hwf) as Hrow.
  unfold matrix_make. rewrite matrix_is_on_testbit by lia.
  destruct (Z.testbit (matrix_get_row w (ROW code)) (COL code)) eqn:Hb; simpl negb; cbv iota.
  - split4; auto using set_matrix_id.
    intros j Hj. destruct (Z.eqb_spec (COL code) j) as [<-|_].
    + rewrite Hb. reflexivity.
    + rewrite orb_false_r. reflexivity.
  - split4.
    + rewrite set_matrix_twice. apply set_matrix_id.
    + simpl. apply matrix_wf_insert; [exact Hwf|apply u8_is_u8].
    + intros i Hi. simpl. apply list_lookup_insert_ne. congruence.
    + intros j Hj. rewrite matrix_get_row_written by (apply row_in_matrix; assumption).
      apply set_bit_testbit; assumption.
Qed.

(** The effect of [matrix_break] on every bit of the matrix. *)
Lemma matrix_break_bits (w : world) (code : Z) :
  matrix_wf (matrix w) -> is_u8 code ->
  set_matrix (matrix w) (matrix_break code w) = w
  /\ matrix_wf (matrix (matrix_break code w))
  /\ (forall i : nat, i <> Z.to_nat (ROW code) ->
        matrix (matrix_break code w) !! i = matrix w !! i)
  /\ (forall j : Z, 0 <= j ->
        Z.testbit (matrix_get_row (matrix_break code w) (ROW code)) j
        = Z.testbit (matrix_get_row w (ROW code)) j && negb (COL code =? j)).
Proof.
  intros Hwf Hc. pose proof (COL_range code) as Hcol.
  pose proof (matrix_get_row_u8 w (ROW code) Hwf) as Hrow.
  unfold matrix_break. rewrite matrix_is_on_testbit by lia.
  destruct (Z.testbit (matrix_get_row w (ROW code)) (COL code)) eqn:Hb; cbv iota.
  - split4.
    + rewrite set_matrix_twice. apply set_matrix_id.
    + simpl. apply matrix_wf_insert; [exact Hwf|apply u8_is_u8].
    + intros i Hi. simpl. apply list_lookup_insert_ne. congruence.
    + intros j Hj. rewrite matrix_get_row_written by (apply row_in_matrix; assumption).
      apply clear_bit_testbit; assumption.
  - split4; auto using set_matrix_id.
    intros j Hj. destruct (Z.eqb_spec (COL code) j) as [<-|_].
    + rewrite Hb. reflexivity.
    + rewrite andb_true_r. reflexivity.
Qed.

(** Two well-formed matrices with the same bits are the same matrix. *)
Lemma matrix_ext (m m' : list Z) :
  matrix_wf m -> matrix_wf m' ->
  (forall (i : nat) (j : Z), 0 <= j ->
     Z.testbit (default 0 (m !! i)) j = Z.testbit (default 0 (m' !! i)) j) ->
  m = m'.
Proof.
  intros [Hl _] [Hl' _] Hbits. apply list_eq_same_length with (n := MATRIX_ROWS); auto.
  intros i x y Hi Hx Hy. specialize (Hbits i). rewrite Hx, Hy in Hbits. simpl in Hbits.
  apply Z.bits_inj'. exact Hbits.
Qed.

(** C10: [matrix_make] and [matrix_break] write nothing but the matrix, and
    in the matrix they change at most bit [1 << (c & 7)] of row [c >> 3]:
    every other row and every other bit of that row keep their value. *)
Theorem matrix_make_break_frame (w w' : world) (c : Z) :
  matrix_wf (matrix w) -> is_u8 c ->
  w' = matrix_make c w \/ w' = matrix_break c w ->
  set_matrix (matrix w) w' = w
  /\ length (matrix w') = length (matrix w)
  /\ (forall i : nat, i <> Z.to_nat (ROW c) -> matrix w' !! i = matrix w !! i)
  /\ (forall j : Z, j <> COL c ->
        Z.testbit (matrix_get_row w' (ROW c)) j
        = Z.testbit (matrix_get_row w (ROW c)) j).
Proof.
  intros Hwf Hc [-> | ->].
  - destruct (matrix_make_bits w c Hwf Hc) as (Hw & [Hlen _] & Hrows & Hbits).
    split4; auto.
    + rewrite Hlen. symmetry. apply Hwf.
    + intros j Hj. destruct (Z.ltb_spec j 0) as [Hneg|Hpos].
      * rewrite !Z.testbit_neg_r by exact Hneg. reflexivity.
      * rewrite Hbits by exact Hpos.
        replace (COL c =? j) with false by (symmetry; apply Z.eqb_neq; congruence).
        apply orb_false_r.
  - destruct (matrix_break_bits w c Hwf Hc) as (Hw & [Hlen _] & Hrows & Hbits).
    split4; auto.
    + rewrite Hlen. symmetry. apply Hwf.
    + intros j Hj. destruct (Z.ltb_spec j 0) as [Hneg|Hpos].
      * rewrite !Z.testbit_neg_r by exact Hneg. reflexivity.
      * rewrite Hbits by exact Hpos.
        replace (COL c =? j) with false by (symmetry; apply Z.eqb_neq; congruence).
        apply andb_true_r.
Qed.

Lemma matrix_make_break_frame_witness :
  matrix_is_on (matrix_make 0x1C power_on) 3 4 = true
  /\ set_matrix (matrix power_on) (matrix_make 0x1C power_on) = power_on.
Proof.
  assert (matrix_wf (matrix power_on)) as Hwf by by_decide.
  assert (is_u8 0x1C) as Hc by by_decide.
  split; [reflexivity|].
  apply (matrix_make_break_frame power_on (matrix_make 0x1C power_on) 0x1C Hwf Hc).
  left. reflexivity.
Defined.

Lemma set_matrix_frame (m : list Z) (a b : world) :
  set_matrix m a = b -> a = set_matrix (matrix a) b.
Proof. intros <-. destruct a; reflexivity. Qed.

Lemma matrix_break_off (w : world) (c : Z) :
  matrix_is_on w (ROW c) (COL c) = false -> matrix_break c w = w.
Proof. intros Hoff. unfold matrix_break. rewrite Hoff. reflexivity. Qed.

Lemma matrix_make_on (w : world) (c : Z) :
  matrix_is_on w (ROW c) (COL c) = true -> matrix_make c w = w.
Proof. intros Hon. unfold matrix_make. rewrite Hon. reflexivity. Qed.

(** After [matrix_break] the bit is off. *)
Lemma matrix_break_is_off (w : world) (c : Z) :
  matrix_wf (matrix w) -> is_u8 c ->
  matrix_is_on (matrix_break c w) (ROW c) (COL c) = false.
Proof.
  intros Hwf Hc. pose proof (COL_range c).
  destruct (matrix_break_bits w c Hwf Hc) as (_ & _ & _ & Hbits).
  rewrite matrix_is_on_testbit, Hbits, Z.eqb_refl by lia. apply andb_false_r.
Qed.

(** [matrix_make] on a bit that is off, then [matrix_break]: the matrix is
    back where it was. *)
Lemma matrix_make_break_off (w : world) (c : Z) :
  matrix_wf (matrix w) -> is_u8 c ->
  matrix_is_on w (ROW c) (COL c) = false ->
  matrix_break c (matrix_make c w) = w.
Proof.
  intros Hwf Hc Hoff. pose proof (COL_range c) as Hcol.
  destruct (matrix_make_bits w c Hwf Hc) as (Hw1 & Hwf1 & Hrows1 & Hbits1).
  destruct (matrix_break_bits _ c Hwf1 Hc) as (Hw2 & Hwf2 & Hrows2 & Hbits2).
  set (w1 := matrix_make c w) in *. set (w2 := matrix_break c w1) in *.
  apply set_matrix_frame in Hw1, Hw2.
  rewrite Hw2, Hw1, set_matrix_twice.
  rewrite <- (set_matrix_id w) at 2. f_equal.
  apply matrix_ext; auto. intros i j Hj.
  destruct (decide (i = Z.to_nat (ROW c))) as [->|Hi].
  - change (Z.testbit (matrix_get_row w2 (ROW c)) j
            = Z.testbit (matrix_get_row w (ROW c)) j).
    rewrite Hbits2, Hbits1 by exact Hj.
    destruct (Z.eqb_spec (COL c) j) as [<-|_].
    + rewrite matrix_is_on_testbit in Hoff by lia. rewrite Hoff. reflexivity.
    + rewrite orb_false_r. apply andb_true_r.
  - rewrite Hrows2, Hrows1 by exact Hi. reflexivity.
Qed.

(** C7, as the code has it: [matrix_make c] then [matrix_break c] always
    ends where [matrix_break c] alone would.  That is the prior state when
    the bit of [c] was off beforehand; when it was already on, the pair
    leaves the bit off, which is not the prior state. *)
Theorem matrix_make_break_roundtrip (w : world) (c : Z) :
  matrix_wf (matrix w) -> is_u8 c ->
  matrix_break c (matrix_make c w) = matrix_break c w
  /\ (matrix_is_on w (ROW c) (COL c) = false ->
        matrix_break c (matrix_make c w) = w)
  /\ (matrix_is_on w (ROW c) (COL c) = true ->
        matrix_break c (matrix_make c w) <> w
        /\ matrix_is_on (matrix_break c (matrix_make c w)) (ROW c) (COL c) = false).
Proof.
  intros Hwf Hc.
  destruct (matrix_is_on w (ROW c) (COL c)) eqn:Hon.
  - rewrite (matrix_make_on w c Hon). split; [reflexivity|].
    split; [discriminate|]. intros _.
    pose proof (matrix_break_is_off w c Hwf Hc) as Hoff.
    split; [|exact Hoff]. intros Heq. rewrite Heq in Hoff. congruence.
  - rewrite (matrix_make_break_off w c Hwf Hc Hon), (matrix_break_off w c Hon).
    split; [reflexivity|]. split; [reflexivity|discriminate].
Qed.

(** C7, as it is stated, fails when the bit was already on: with A held
    down, [matrix_make 0x1C] then [matrix_break 0x1C] releases A. *)
Lemma matrix_make_break_counterexample :
  matrix_wf (matrix key_A_down)
  /\ is_u8 0x1C
  /\ matrix_is_on key_A_down (ROW 0x1C) (COL 0x1C) = true
  /\ matrix_is_on (matrix_break 0x1C (matrix_make 0x1C key_A_down))
                  (ROW 0x1C) (COL 0x1C) = false
  /\ matrix_break 0x1C (matrix_make 0x1C key_A_down) <> key_A_down.
Proof.
  split; [by_decide|]. split; [by_decide|].
  split; [reflexivity|]. split; [reflexivity|]. vm_compute. discriminate.
Qed.

Lemma matrix_make_break_roundtrip_witness :
  matrix_is_on power_on (ROW 0x1C) (COL 0x1C) = false
  /\ matrix_break 0x1C (matrix_make 0x1C power_on) = power_on.
Proof.
  assert (matrix_wf (matrix power_on)) as Hwf by by_decide.
  assert (is_u8 0x1C) as Hc by by_decide.
  split; [reflexivity|].
  apply (matrix_make_break_roundtrip power_on 0x1C Hwf Hc). reflexivity.
Defined.

(** ** The decoder, one call at a time *)

Lemma i16_range (z : Z) : -32768 <= i16 z < 32768.
Proof. unfold i16. pose proof (Z.mod_pos_bound (z + 32768) 65536). lia. Qed.

Lemma ibmpc_host_recv_range (w : world) :
  -32768 <= fst (ibmpc_host_recv w) < 32768.
Proof.
  unfold ibmpc_host_recv. destruct (rx w); simpl; [lia|apply i16_range].
Qed.

(** Receiving touches the receive script and the error flag only. *)
Lemma ibmpc_host_recv_frame (w : world) :
  matrix (snd (ibmpc_host_recv w)) = matrix w
  /\ cs2_state (snd (ibmpc_host_recv w)) = cs2_state w
  /\ trace (snd (ibmpc_host_recv w)) = trace w
  /\ rx (snd (ibmpc_host_recv w)) = tail (rx w).
Proof.
  unfold ibmpc_host_recv.
  destruct (rx w) eqn:Hrx; simpl; rewrite ?Hrx; split4; reflexivity.
Qed.

(** The pseudo break touches the matrix only. *)
Lemma pause_pseudo_break_frame (w : world) :
  pause_pseudo_break w = set_matrix (matrix (pause_pseudo_break w)) w.
Proof.
  unfold pause_pseudo_break, matrix_break.
  destruct (matrix_is_on w (ROW PAUSE) (COL PAUSE)); [reflexivity|].
  symmetry. apply set_matrix_id.
Qed.

Lemma next_code_pseudo_break (w : world) :
  next_code (pause_pseudo_break w) = next_code w.
Proof.
  rewrite pause_pseudo_break_frame. unfold next_code, ibmpc_host_recv. simpl.
  destruct (rx w); reflexivity.
Qed.

(** [process_cs2] in terms of the byte it is about to receive. *)
Lemma process_cs2_eq (w : world) :
  process_cs2 w =
  let w' := snd (ibmpc_host_recv (pause_pseudo_break w)) in
  if next_code w =? 0xFFFF then (0, w') else process_cs2_switch (next_code w) w'.
Proof.
  unfold process_cs2. rewrite <- next_code_pseudo_break. unfold next_code.
  destruct (ibmpc_host_recv (pause_pseudo_break w)) as [r w']. reflexivity.
Qed.

(** No byte in the receive buffer is the one way to read 0xFFFF. *)
Lemma next_code_empty (w : world) :
  next_code w = 0xFFFF <-> fst (ibmpc_host_recv w) = -1.
Proof.
  unfold next_code, u16. pose proof (ibmpc_host_recv_range w).
  split; intros Heq; [|rewrite Heq; reflexivity].
  pose proof (Z.mod_pos_bound (fst (ibmpc_host_recv w)) 65536).
  pose proof (Z.div_mod (fst (ibmpc_host_recv w)) 65536). lia.
Qed.

(** A byte that was received is stored as it is. *)
Lemma next_code_byte (w : world) :
  0 <= fst (ibmpc_host_recv w) -> next_code w = fst (ibmpc_host_recv w).
Proof.
  intros Hpos. unfold next_code, u16. pose proof (ibmpc_host_recv_range w).
  apply Z.mod_small. lia.
Qed.

Lemma next_code_negative (w : world) :
  fst (ibmpc_host_recv w) < 0 -> 0x8000 <= next_code w.
Proof.
  intros Hneg. unfold next_code, u16. pose proof (ibmpc_host_recv_range w).
  pose proof (Z.mod_pos_bound (fst (ibmpc_host_recv w)) 65536).
  pose proof (Z.div_mod (fst (ibmpc_host_recv w)) 65536). lia.
Qed.

(** Case analysis on every comparison of the goal. *)
Ltac cases_on_code :=
  repeat match goal with
    | |- context [Z.eqb ?a ?b] => destruct (Z.eqb_spec a b)
    | |- context [Z.ltb ?a ?b] => destruct (Z.ltb_spec a b)
    | |- context [Z.leb ?a ?b] => destruct (Z.leb_spec a b)
    end.

(** The switch returns -1 for a self-test byte in INIT and 0 otherwise. *)
Lemma process_cs2_switch_return (code : Z) (w : world) :
  fst (process_cs2_switch code w)
  = if match cs2_state w with cs2.INIT => (code =? 0xAA) || (code =? 0xFC) | _ => false end
    then -1 else 0.
Proof.
  unfold process_cs2_switch.
  destruct (cs2_state w); cases_on_code; simpl; try reflexivity; lia.
Qed.

(** C3: [process_cs2] returns -1 when it receives 0xAA or 0xFC in the INIT
    state, and 0 in every other case: with no byte to receive, and with any
    byte, 0xAA and 0xFC included, in any other state. *)
Theorem process_cs2_return (w : world) :
  (cs2_state w = cs2.INIT
   /\ (fst (ibmpc_host_recv w) = 0xAA \/ fst (ibmpc_host_recv w) = 0xFC)
   <-> fst (process_cs2 w) = -1)
  /\ (fst (process_cs2 w) = -1 \/ fst (process_cs2 w) = 0)
  /\ (fst (ibmpc_host_recv w) = -1 -> fst (process_cs2 w) = 0).
Proof.
  rewrite process_cs2_eq. cbv zeta.
  destruct (ibmpc_host_recv_frame (pause_pseudo_break w)) as (_ & Hst & _).
  rewrite (pause_pseudo_break_frame w) in Hst at 2. simpl in Hst.
  pose proof (ibmpc_host_recv_range w) as Hr.
  destruct (Z.eqb_spec (next_code w) 0xFFFF) as [Hnone|Hsome].
  - apply next_code_empty in Hnone. simpl. rewrite Hnone.
    split; [|split; [right; reflexivity|reflexivity]].
    split; [intros [_ [?|?]]; lia|discriminate].
  - rewrite process_cs2_switch_return, Hst.
    assert (fst (ibmpc_host_recv w) <> -1) as Hne
      by (intros Heq; apply Hsome, next_code_empty, Heq).
    destruct (Z.ltb_spec (fst (ibmpc_host_recv w)) 0) as [Hneg|Hpos].
    + apply next_code_negative in Hneg as Hbig.
      destruct (cs2_state w); cases_on_code;
        try (exfalso; lia);
        (split; [split; [intros [? [?|?]]; (discriminate || lia)|discriminate]
                |split; [right; reflexivity|intros; reflexivity]]).
    + rewrite (next_code_byte w Hpos).
      destruct (cs2_state w); cases_on_code; simpl;
        (split; [split; [intros [? [?|?]]; (reflexivity || discriminate || lia)
                        |intros; (discriminate || (split; [reflexivity|lia]))]
                |split; [(left; reflexivity) || (right; reflexivity)
                        |intros; (reflexivity || lia)]]).
Qed.

(** ** The Pause bit *)

Lemma lor_0x80 (code : Z) : 0 <= code < 0x80 -> Z.lor code 0x80 = code + 0x80.
Proof.
  intros Hc.
  assert (Z.land code 0x80 = 0) as Hdisj.
  { apply Z.eqb_eq. change 0x80 with (Z.shiftl 1 7).
    rewrite land_bit_testbit by lia. apply negb_true_iff.
    apply Z.testbit_false; [lia|]. change (2 ^ 7) with 128.
    rewrite Z.div_small by lia. reflexivity. }
  rewrite <- Z.lxor_lor by exact Hdisj. symmetry.
  apply Z.add_nocarry_lxor. exact Hdisj.
Qed.

(** [matrix_is_on] reads the matrix and nothing else. *)
Lemma matrix_is_on_ext (w w' : world) (r c : Z) :
  matrix w = matrix w' -> matrix_is_on w r c = matrix_is_on w' r c.
Proof. intros Heq. unfold matrix_is_on, matrix_get_row. rewrite Heq. reflexivity. Qed.

Lemma matrix_zero_off (w : world) (r c : Z) :
  matrix w = matrix_zero -> matrix_is_on w r c = false.
Proof.
  intros Heq. unfold matrix_is_on, matrix_get_row. rewrite Heq.
  unfold matrix_zero, MATRIX_ROWS.
  destruct (replicate 32 0 !! Z.to_nat r) as [x|] eqn:Hx; simpl.
  - apply lookup_replicate in Hx as [-> _]. reflexivity.
  - reflexivity.
Qed.

Lemma matrix_clear_zero (w : world) :
  length (matrix w) = MATRIX_ROWS -> matrix (matrix_clear w) = matrix_zero.
Proof.
  unfold matrix_clear. cbn [matrix set_matrix]. generalize (matrix w).
  intros m Hlen.
  do 32 (destruct m as [|? m]; [discriminate Hlen|]).
  destruct m; [reflexivity|discriminate Hlen].
Qed.

(** A make or break of one code leaves the bit of every other code alone. *)
Lemma matrix_make_other (w : world) (c d : Z) :
  matrix_wf (matrix w) -> is_u8 c -> is_u8 d -> c <> d ->
  matrix_is_on (matrix_make c w) (ROW d) (COL d) = matrix_is_on w (ROW d) (COL d).
Proof.
  intros Hwf Hc Hd Hne. pose proof (COL_range d).
  pose proof (ROW_range c Hc). pose proof (ROW_range d Hd).
  destruct (matrix_make_bits w c Hwf Hc) as (_ & _ & Hrows & Hbits).
  destruct (Z.eq_dec (ROW c) (ROW d)) as [Hrow|Hrow].
  - rewrite !matrix_is_on_testbit by lia. rewrite <- Hrow, Hbits by lia.
    replace (COL c =? COL d) with false; [apply orb_false_r|].
    symmetry. apply Z.eqb_neq. intros Hcol. apply Hne, ROW_COL_inj; assumption.
  - unfold matrix_is_on, matrix_get_row. rewrite Hrows by lia. reflexivity.
Qed.

Lemma matrix_break_other (w : world) (c d : Z) :
  matrix_wf (matrix w) -> is_u8 c -> is_u8 d -> c <> d ->
  matrix_is_on (matrix_break c w) (ROW d) (COL d) = matrix_is_on w (ROW d) (COL d).
Proof.
  intros Hwf Hc Hd Hne. pose proof (COL_range d).
  pose proof (ROW_range c Hc). pose proof (ROW_range d Hd).
  destruct (matrix_break_bits w c Hwf Hc) as (_ & _ & Hrows & Hbits).
  destruct (Z.eq_dec (ROW c) (ROW d)) as [Hrow|Hrow].
  - rewrite !matrix_is_on_testbit by lia. rewrite <- Hrow, Hbits by lia.
    replace (COL c =? COL d) with false; [apply andb_true_r|].
    symmetry. apply Z.eqb_neq. intros Hcol. apply Hne, ROW_COL_inj; assumption.
  - unfold matrix_is_on, matrix_get_row. rewrite Hrows by lia. reflexivity.
Qed.

Lemma is_u8_PAUSE : is_u8 PAUSE.
Proof. unfold is_u8, PAUSE. lia. Qed.

Lemma pause_pseudo_break_wf (w : world) :
  matrix_wf (matrix w) -> matrix_wf (matrix (pause_pseudo_break w)).
Proof.
  intros Hwf. unfold pause_pseudo_break.
  destruct (matrix_is_on w (ROW PAUSE) (COL PAUSE)); [|exact Hwf].
  apply (matrix_break_bits w PAUSE Hwf is_u8_PAUSE).
Qed.

Lemma pause_pseudo_break_off (w : world) :
  matrix_wf (matrix w) ->
  matrix_is_on (pause_pseudo_break w) (ROW PAUSE) (COL PAUSE) = false.
Proof.
  intros Hwf. unfold pause_pseudo_break.
  destruct (matrix_is_on w (ROW PAUSE) (COL PAUSE)) eqn:Hon; [|exact Hon].
  apply matrix_break_is_off; [exact Hwf|exact is_u8_PAUSE].
Qed.

(** With the Pause bit off, the switch turns it on for the last byte of a
    Pause sequence only. *)
Lemma process_cs2_switch_pause (code : Z) (w : world) :
  matrix_wf (matrix w) -> 0 <= code ->
  matrix_is_on w (ROW PAUSE) (COL PAUSE) = false ->
  completes_pause (cs2_state w) code = false ->
  matrix_is_on (snd (process_cs2_switch code w)) (ROW PAUSE) (COL PAUSE) = false.
Proof.
  intros Hwf Hcode Hoff Hlast.
  assert (Hclear : forall fmt,
    matrix_is_on (xprintf fmt [] (clear_keyboard (matrix_clear w)))
                 (ROW PAUSE) (COL PAUSE) = false).
  { intros fmt. apply matrix_zero_off.
    change (matrix (matrix_clear w) = matrix_zero).
    apply (matrix_clear_zero w), Hwf. }
  assert (Hmake : forall c, is_u8 c -> c <> PAUSE ->
    matrix_is_on (matrix_make c w) (ROW PAUSE) (COL PAUSE) = false).
  { intros c Hc Hne. rewrite matrix_make_other; auto using is_u8_PAUSE. }
  assert (Hbreak : forall c, is_u8 c ->
    matrix_is_on (matrix_break c w) (ROW PAUSE) (COL PAUSE) = false).
  { intros c Hc. destruct (Z.eq_dec c PAUSE) as [->|Hne].
    - apply matrix_break_is_off; assumption.
    - rewrite matrix_break_other; auto using is_u8_PAUSE. }
  unfold process_cs2_switch.
  destruct (cs2_state w); simpl in Hlast; try apply Z.eqb_neq in Hlast;
    cases_on_code; simpl snd;
    match goal with
    | |- matrix_is_on (set_cs2_state ?s ?x) ?r ?c = false =>
        change (matrix_is_on x r c = false)
    end;
    try exact Hoff; try apply Hclear; try contradiction;
    first [ apply Hbreak; first [apply u8_is_u8 | unfold is_u8, F7, PRINT_SCREEN; lia]
          | apply Hmake;
            [ first [apply u8_is_u8 | unfold is_u8, F7, PRINT_SCREEN; lia]
            | unfold PAUSE, F7, PRINT_SCREEN, u8; rewrite ?lor_0x80 by lia;
              try rewrite Z.mod_small by lia; lia ] ].
Qed.

(** C4: every call of [process_cs2] starts by clearing the Pause bit (matrix
    position 0xFE: row 0x1F, column 6), before it asks for a byte and whether
    or not there is one; so the bit is off after every call whose byte does
    not complete a Pause sequence. *)
Theorem process_cs2_pause_cleared (w : world) :
  matrix_wf (matrix w) ->
  (ROW PAUSE = 0x1F /\ COL PAUSE = 6)
  /\ matrix_is_on (pause_pseudo_break w) 0x1F 6 = false
  /\ rx (pause_pseudo_break w) = rx w
  /\ (fst (ibmpc_host_recv w) = -1 ->
        snd (process_cs2 w) = snd (ibmpc_host_recv (pause_pseudo_break w)))
  /\ (completes_pause (cs2_state w) (next_code w) = false ->
        matrix_is_on (snd (process_cs2 w)) 0x1F 6 = false).
Proof.
  intros Hwf. split; [split; reflexivity|].
  pose proof (pause_pseudo_break_off w Hwf) as Hoff.
  pose proof (pause_pseudo_break_wf w Hwf) as Hwf1.
  change (ROW PAUSE) with 0x1F in Hoff. change (COL PAUSE) with 6 in Hoff.
  split; [exact Hoff|].
  split; [rewrite pause_pseudo_break_frame; reflexivity|].
  rewrite process_cs2_eq. cbv zeta.
  destruct (ibmpc_host_recv_frame (pause_pseudo_break w)) as (Hm & Hst & _).
  rewrite (pause_pseudo_break_frame w) in Hst at 2. simpl in Hst.
  split.
  - intros Hnone. apply next_code_empty in Hnone. rewrite Hnone. reflexivity.
  - intros Hlast. destruct (Z.eqb_spec (next_code w) 0xFFFF) as [Hnone|Hsome].
    + simpl. rewrite (matrix_is_on_ext _ _ _ _ Hm). exact Hoff.
    + apply process_cs2_switch_pause.
      * rewrite Hm. exact Hwf1.
      * unfold next_code, u16. apply Z.mod_pos_bound. lia.
      * rewrite (matrix_is_on_ext _ _ _ _ Hm). exact Hoff.
      * rewrite Hst. exact Hlast.
Qed.

Lemma process_cs2_pause_cleared_witness :
  matrix_is_on pause_pressed 0x1F 6 = true
  /\ matrix_is_on (snd (process_cs2 pause_pressed)) 0x1F 6 = false.
Proof.
  assert (matrix_wf (matrix pause_pressed)) as Hwf by by_decide.
  split; [reflexivity|].
  apply (process_cs2_pause_cleared pause_pressed Hwf). reflexivity.
Defined.

(** ** Unexpected bytes *)

Lemma trace_after_recover (fmt : string) (w : world) :
  trace (xprintf fmt [] (clear_keyboard (matrix_clear w)))
  = trace w ++ [EvClearKeyboard; EvPrint fmt []].
Proof. unfold matrix_clear. simpl. rewrite <- app_assoc. reflexivity. Qed.

Lemma matrix_after_recover (fmt : string) (w : world) :
  matrix_wf (matrix w) ->
  matrix (xprintf fmt [] (clear_keyboard (matrix_clear w))) = matrix_zero.
Proof. intros [Hlen _]. apply (matrix_clear_zero w Hlen). Qed.

(** What the switch does with an unexpected byte. *)
Lemma process_cs2_switch_unexpected (code : Z) (w : world) :
  matrix_wf (matrix w) ->
  unexpected (cs2_state w) code = true ->
  fst (process_cs2_switch code w) = 0
  /\ cs2_state (snd (process_cs2_switch code w)) = cs2.INIT
  /\ match pause_next (cs2_state w) with
     | None =>
         matrix (snd (process_cs2_switch code w)) = matrix_zero
         /\ exists tag, trace (snd (process_cs2_switch code w))
                        = trace w ++ [EvClearKeyboard; EvPrint tag []]
     | Some _ =>
         matrix (snd (process_cs2_switch code w)) = matrix w
         /\ trace (snd (process_cs2_switch code w)) = trace w
     end.
Proof.
  intros Hwf Hun. unfold process_cs2_switch, unexpected in *.
  destruct (cs2_state w); cbn [pause_next has_case] in *;
    try (apply andb_true_iff in Hun as [Hhigh Hcase]; apply Z.leb_le in Hhigh);
    cases_on_code; try lia;
    try (subst code; discriminate);
    cbn [fst snd];
    (split; [reflexivity|split; [reflexivity|]]);
    first [ split; [reflexivity|reflexivity]
          | split; [apply matrix_after_recover, Hwf
                   |eexists; apply trace_after_recover] ].
Qed.

(** C1, as the code has it: an unexpected byte returns the decoder to INIT
    in every state.  In the four states of ordinary make and break codes
    (INIT, E0, F0, E0_F0) the matrix is cleared and [clear_keyboard] is
    called, followed by a console message.  In the Pause and Control'd Pause
    states a byte that is not the next one of the sequence changes nothing
    else: the matrix stays as the pseudo break left it and nothing is
    called. *)
Theorem process_cs2_unexpected (w : world) :
  matrix_wf (matrix w) ->
  next_code w <> 0xFFFF ->
  unexpected (cs2_state w) (next_code w) = true ->
  fst (process_cs2 w) = 0
  /\ cs2_state (snd (process_cs2 w)) = cs2.INIT
  /\ match pause_next (cs2_state w) with
     | None =>
         matrix (snd (process_cs2 w)) = matrix_zero
         /\ exists tag, trace (snd (process_cs2 w))
                        = trace w ++ [EvClearKeyboard; EvPrint tag []]
     | Some _ =>
         matrix (snd (process_cs2 w)) = matrix (pause_pseudo_break w)
         /\ trace (snd (process_cs2 w)) = trace w
     end.
Proof.
  intros Hwf Hbyte Hun. rewrite process_cs2_eq. cbv zeta.
  apply Z.eqb_neq in Hbyte. rewrite Hbyte.
  destruct (ibmpc_host_recv_frame (pause_pseudo_break w)) as (Hm & Hst & Htr & _).
  rewrite (pause_pseudo_break_frame w) in Hst at 2. simpl in Hst.
  rewrite (pause_pseudo_break_frame w) in Htr at 2. simpl in Htr.
  set (w' := snd (ibmpc_host_recv (pause_pseudo_break w))) in *.
  assert (matrix_wf (matrix w')) as Hwf'
    by (rewrite Hm; apply pause_pseudo_break_wf, Hwf).
  rewrite <- Hst in Hun.
  destruct (process_cs2_switch_unexpected (next_code w) w' Hwf' Hun)
    as (Hret & Hnext & Hrest).
  rewrite Hst, Hm, Htr in Hrest. auto.
Qed.

(** C1, as it is stated, fails in a Pause state: with A held down and the
    decoder in E1, the byte 0x00 (which is not 0x14) takes the decoder back
    to INIT, and A stays in the matrix and [clear_keyboard] is not called. *)
Lemma process_cs2_unexpected_counterexample :
  matrix_wf (matrix pause_interrupted)
  /\ cs2_state pause_interrupted = cs2.E1
  /\ next_code pause_interrupted = 0x00
  /\ unexpected (cs2_state pause_interrupted) (next_code pause_interrupted) = true
  /\ cs2_state (snd (process_cs2 pause_interrupted)) = cs2.INIT
  /\ matrix_is_on (snd (process_cs2 pause_interrupted)) 3 4 = true
  /\ matrix (snd (process_cs2 pause_interrupted)) <> matrix_zero
  /\ trace (snd (process_cs2 pause_interrupted)) = [].
Proof.
  split; [by_decide|].
  repeat (split; [reflexivity|]).
  split; [vm_compute; discriminate|reflexivity].
Qed.

Lemma process_cs2_unexpected_witness :
  matrix_is_on stray_byte 3 4 = true
  /\ cs2_state (snd (process_cs2 stray_byte)) = cs2.INIT
  /\ matrix (snd (process_cs2 stray_byte)) = matrix_zero.
Proof.
  assert (matrix_wf (matrix stray_byte)) as Hwf by by_decide.
  assert (next_code stray_byte <> 0xFFFF) as Hbyte by (vm_compute; discriminate).
  assert (unexpected (cs2_state stray_byte) (next_code stray_byte) = true) as Hun
    by reflexivity.
  destruct (process_cs2_unexpected stray_byte Hwf Hbyte Hun) as (_ & Hst & Hm).
  split; [reflexivity|]. split; [exact Hst|]. exact (proj1 Hm).
Defined.

(** ** Byte sequences *)

Lemma process_cs2_n_S (n : nat) (w : world) :
  process_cs2_n (S n) w
  = (fst (process_cs2 w) :: fst (process_cs2_n n (snd (process_cs2 w))),
     snd (process_cs2_n n (snd (process_cs2 w)))).
Proof.
  simpl. destruct (process_cs2 w) as [r w1]. cbn [fst snd].
  destruct (process_cs2_n n w1) as [rs w2]. reflexivity.
Qed.

Lemma u16_i16_byte (b : Z) : is_u8 b -> u16 (i16 b) = b.
Proof.
  unfold is_u8, u16, i16. intros Hb.
  rewrite (Z.mod_small (b + 32768)) by lia.
  replace (b + 32768 - 32768) with b by lia. apply Z.mod_small. lia.
Qed.

(** One call of [process_cs2] with a byte on the line. *)
Lemma process_cs2_step (w : world) (r : reply) (rest : list reply) :
  rx w = r :: rest -> is_u8 (reply_value r) ->
  process_cs2 w
  = process_cs2_switch (reply_value r)
      (set_ibmpc_error (u8 (reply_error r)) (set_rx rest (pause_pseudo_break w))).
Proof.
  intros Hrx Hb. unfold process_cs2, ibmpc_host_recv.
  assert (rx (pause_pseudo_break w) = r :: rest) as ->
    by (rewrite pause_pseudo_break_frame; exact Hrx).
  rewrite (u16_i16_byte _ Hb). change (u16 (-1)) with 65535.
  destruct (Z.eqb_spec (reply_value r) 65535) as [Heq|_]; [|reflexivity].
  unfold is_u8 in Hb. lia.
Qed.

Lemma pause_pseudo_break_idle (w : world) :
  matrix_is_on w (ROW PAUSE) (COL PAUSE) = false -> pause_pseudo_break w = w.
Proof. intros Hoff. unfold pause_pseudo_break. rewrite Hoff. reflexivity. Qed.

(** A call whose byte only moves the decoder to another state. *)
Lemma process_cs2_quiet_step (w : world) (r : reply) (rest : list reply)
    (st : cs2.state) :
  matrix_wf (matrix w) -> rx w = r :: rest -> is_u8 (reply_value r) ->
  (forall w', cs2_state w' = cs2_state w ->
     process_cs2_switch (reply_value r) w' = (0, set_cs2_state st w')) ->
  fst (process_cs2 w) = 0
  /\ cs2_state (snd (process_cs2 w)) = st
  /\ matrix (snd (process_cs2 w)) = matrix (pause_pseudo_break w)
  /\ trace (snd (process_cs2 w)) = trace w
  /\ rx (snd (process_cs2 w)) = rest.
Proof.
  intros Hwf Hrx Hb Hquiet. rewrite (process_cs2_step w r rest Hrx Hb).
  rewrite Hquiet by (rewrite pause_pseudo_break_frame; reflexivity).
  cbn [fst snd]. pose proof (pause_pseudo_break_frame w) as Hframe.
  set (m := matrix (pause_pseudo_break w)) in *. clearbody m. rewrite Hframe.
  split; [reflexivity|]. split4; reflexivity.
Qed.

(** Two and three quiet calls in a row: after the first one the Pause bit
    is off and the pseudo break has nothing left to do. *)
Lemma process_cs2_quiet_next (w w1 : world) :
  matrix_wf (matrix w) -> matrix w1 = matrix (pause_pseudo_break w) ->
  matrix_wf (matrix w1) /\ pause_pseudo_break w1 = w1.
Proof.
  intros Hwf Hm. split.
  - rewrite Hm. apply pause_pseudo_break_wf, Hwf.
  - apply pause_pseudo_break_idle.
    rewrite (matrix_is_on_ext _ _ _ _ Hm). apply pause_pseudo_break_off, Hwf.
Qed.

Lemma process_cs2_quiet_2 (w : world) (r1 r2 : reply) (rest : list reply)
    (s0 s1 : cs2.state) :
  matrix_wf (matrix w) -> cs2_state w = s0 -> rx w = r1 :: r2 :: rest ->
  is_u8 (reply_value r1) -> is_u8 (reply_value r2) ->
  (forall w', cs2_state w' = s0 ->
     process_cs2_switch (reply_value r1) w' = (0, set_cs2_state s1 w')) ->
  (forall w', cs2_state w' = s1 ->
     process_cs2_switch (reply_value r2) w' = (0, set_cs2_state cs2.INIT w')) ->
  fst (process_cs2_n 2 w) = [0; 0]
  /\ cs2_state (snd (process_cs2_n 2 w)) = cs2.INIT
  /\ matrix (snd (process_cs2_n 2 w)) = matrix (pause_pseudo_break w)
  /\ trace (snd (process_cs2_n 2 w)) = trace w
  /\ rx (snd (process_cs2_n 2 w)) = rest.
Proof.
  intros Hwf Hs0 Hrx Hb1 Hb2 Hq1 Hq2. rewrite <- Hs0 in Hq1.
  destruct (process_cs2_quiet_step w r1 _ s1 Hwf Hrx Hb1 Hq1)
    as (Hr1 & Hst1 & Hm1 & Ht1 & Hrx1).
  destruct (process_cs2_quiet_next _ _ Hwf Hm1) as [Hwf1 Hidle1].
  rewrite <- Hst1 in Hq2.
  destruct (process_cs2_quiet_step _ r2 _ cs2.INIT Hwf1 Hrx1 Hb2 Hq2)
    as (Hr2 & Hst2 & Hm2 & Ht2 & Hrx2).
  rewrite !process_cs2_n_S. cbn [process_cs2_n fst snd].
  rewrite Hr1, Hr2, Hst2, Hm2, Hidle1, Hm1, Ht2, Ht1, Hrx2.
  split; [reflexivity|]. split4; reflexivity.
Qed.

Lemma process_cs2_quiet_3 (w : world) (r1 r2 r3 : reply) (rest : list reply)
    (s0 s1 s2 : cs2.state) :
  matrix_wf (matrix w) -> cs2_state w = s0 -> rx w = r1 :: r2 :: r3 :: rest ->
  is_u8 (reply_value r1) -> is_u8 (reply_value r2) -> is_u8 (reply_value r3) ->
  (forall w', cs2_state w' = s0 ->
     process_cs2_switch (reply_value r1) w' = (0, set_cs2_state s1 w')) ->
  (forall w', cs2_state w' = s1 ->
     process_cs2_switch (reply_value r2) w' = (0, set_cs2_state s2 w')) ->
  (forall w', cs2_state w' = s2 ->
     process_cs2_switch (reply_value r3) w' = (0, set_cs2_state cs2.INIT w')) ->
  fst (process_cs2_n 3 w) = [0; 0; 0]
  /\ cs2_state (snd (process_cs2_n 3 w)) = cs2.INIT
  /\ matrix (snd (process_cs2_n 3 w)) = matrix (pause_pseudo_break w)
  /\ trace (snd (process_cs2_n 3 w)) = trace w
  /\ rx (snd (process_cs2_n 3 w)) = rest.
Proof.
  intros Hwf Hs0 Hrx Hb1 Hb2 Hb3 Hq1 Hq2 Hq3. rewrite <- Hs0 in Hq1.
  destruct (process_cs2_quiet_step w r1 _ s1 Hwf Hrx Hb1 Hq1)
    as (Hr1 & Hst1 & Hm1 & Ht1 & Hrx1).
  destruct (process_cs2_quiet_next _ _ Hwf Hm1) as [Hwf1 Hidle1].
  destruct (process_cs2_quiet_2 _ r2 r3 rest s1 s2 Hwf1 Hst1 Hrx1 Hb2 Hb3 Hq2 Hq3)
    as (Hr2 & Hst2 & Hm2 & Ht2 & Hrx2).
  rewrite process_cs2_n_S. cbn [fst snd].
  rewrite Hr1, Hr2, Hst2, Hm2, Hidle1, Hm1, Ht2, Ht1, Hrx2.
  split; [reflexivity|]. split4; reflexivity.
Qed.

(** C8, as the code has it: fed to the decoder in INIT, each of the
    shadow-shift sequences [E0 12], [E0 59], [E0 F0 12] and [E0 F0 59] is
    consumed with every call returning 0, no key made or broken, nothing
    asked of the host, and the decoder back in INIT.  The matrix ends as the
    pseudo break of the first call left it: unchanged when the Pause bit was
    off on entry, and with the Pause bit cleared otherwise. *)
Theorem shadow_shift_ignored (w : world) (codes : list Z)
    (replies rest : list reply) :
  matrix_wf (matrix w) -> cs2_state w = cs2.INIT ->
  In codes shadow_shift_sequences ->
  map reply_value replies = codes -> rx w = replies ++ rest ->
  fst (process_cs2_n (length codes) w) = replicate (length codes) 0
  /\ cs2_state (snd (process_cs2_n (length codes) w)) = cs2.INIT
  /\ matrix (snd (process_cs2_n (length codes) w)) = matrix (pause_pseudo_break w)
  /\ (matrix_is_on w 0x1F 6 = false ->
        matrix (snd (process_cs2_n (length codes) w)) = matrix w)
  /\ trace (snd (process_cs2_n (length codes) w)) = trace w
  /\ rx (snd (process_cs2_n (length codes) w)) = rest.
Proof.
  intros Hwf Hst Hin Hmap Hrx.
  assert (Hgoal :
    fst (process_cs2_n (length codes) w) = replicate (length codes) 0
    /\ cs2_state (snd (process_cs2_n (length codes) w)) = cs2.INIT
    /\ matrix (snd (process_cs2_n (length codes) w)) = matrix (pause_pseudo_break w)
    /\ trace (snd (process_cs2_n (length codes) w)) = trace w
    /\ rx (snd (process_cs2_n (length codes) w)) = rest).
  { simpl in Hin. destruct Hin as [<-|[<-|[<-|[<-|[]]]]];
      repeat (destruct replies as [|[? ?] replies]; try discriminate Hmap);
      simpl in Hmap; injection Hmap as; subst; simpl app in Hrx.
    - apply (process_cs2_quiet_2 w _ _ rest cs2.INIT cs2.E0 Hwf Hst Hrx);
        [by_decide|by_decide|..]; intros w' Hw'; unfold process_cs2_switch;
        rewrite Hw'; reflexivity.
    - apply (process_cs2_quiet_2 w _ _ rest cs2.INIT cs2.E0 Hwf Hst Hrx);
        [by_decide|by_decide|..]; intros w' Hw'; unfold process_cs2_switch;
        rewrite Hw'; reflexivity.
    - apply (process_cs2_quiet_3 w _ _ _ rest cs2.INIT cs2.E0 cs2.E0_F0 Hwf Hst Hrx);
        [by_decide|by_decide|by_decide|..]; intros w' Hw'; unfold process_cs2_switch;
        rewrite Hw'; reflexivity.
    - apply (process_cs2_quiet_3 w _ _ _ rest cs2.INIT cs2.E0 cs2.E0_F0 Hwf Hst Hrx);
        [by_decide|by_decide|by_decide|..]; intros w' Hw'; unfold process_cs2_switch;
        rewrite Hw'; reflexivity. }
  destruct Hgoal as (Hret & Hstate & Hm & Htrace & Hrest).
  split; [exact Hret|]. split; [exact Hstate|]. split; [exact Hm|].
  split; [|split; assumption].
  intros Hoff. rewrite Hm, pause_pseudo_break_idle; [reflexivity|exact Hoff].
Qed.

(** C8, as it is stated, fails for a matrix in which Pause is on: after the
    eight bytes of Pause the decoder is in INIT with the Pause bit set, and
    the two calls that consume [E0 12] leave a different matrix. *)
Lemma shadow_shift_counterexample :
  matrix_wf (matrix pause_pressed)
  /\ cs2_state pause_pressed = cs2.INIT
  /\ map reply_value (rx pause_pressed) = [0xE0; 0x12]
  /\ In [0xE0; 0x12] shadow_shift_sequences
  /\ matrix_is_on pause_pressed 0x1F 6 = true
  /\ cs2_state (snd (process_cs2_n 2 pause_pressed)) = cs2.INIT
  /\ matrix_is_on (snd (process_cs2_n 2 pause_pressed)) 0x1F 6 = false
  /\ matrix (snd (process_cs2_n 2 pause_pressed)) <> matrix pause_pressed.
Proof.
  split; [by_decide|].
  split; [reflexivity|]. split; [reflexivity|]. split; [left; reflexivity|].
  split; [reflexivity|]. split; [reflexivity|]. split; [reflexivity|].
  vm_compute. discriminate.
Qed.

Lemma shadow_shift_ignored_witness :
  matrix_is_on shadow_shift_release 3 4 = true
  /\ cs2_state (snd (process_cs2_n 3 shadow_shift_release)) = cs2.INIT
  /\ matrix (snd (process_cs2_n 3 shadow_shift_release))
     = matrix shadow_shift_release.
Proof.
  assert (matrix_wf (matrix shadow_shift_release)) as Hwf by by_decide.
  assert (In [0xE0; 0xF0; 0x12] shadow_shift_sequences) as Hin
    by (right; right; left; reflexivity).
  destruct (shadow_shift_ignored shadow_shift_release [0xE0; 0xF0; 0x12]
              (bytes [0xE0; 0xF0; 0x12]) [] Hwf eq_refl Hin eq_refl eq_refl)
    as (_ & Hst & _ & Hsame & _).
  split; [reflexivity|]. split; [exact Hst|]. apply Hsame. reflexivity.
Defined.

(** ** Keyboard identification *)

Lemma is_u16_high_bits (z i : Z) : is_u16 z -> 16 <= i -> Z.testbit z i = false.
Proof.
  intros Hz Hi. rewrite <- (Z.mod_small z 65536) by exact Hz.
  change 65536 with (2 ^ 16). apply Z.mod_pow2_bits_high. lia.
Qed.

(** Masking with 0xFF00 keeps the high byte in place. *)
Lemma high_byte_mask (id : Z) :
  is_u16 id -> Z.land id 0xFF00 = 256 * Z.shiftr id 8.
Proof.
  intros Hid. rewrite Z.mul_comm. change 256 with (2 ^ 8).
  rewrite <- Z.shiftl_mul_pow2 by lia.
  change 0xFF00 with (Z.shiftl (Z.ones 8) 8).
  apply Z.bits_inj'. intros n Hn.
  rewrite Z.land_spec, !Z.shiftl_spec by exact Hn.
  destruct (Z.ltb_spec n 8) as [Hlow|Hhigh].
  - rewrite !(Z.testbit_neg_r _ (n - 8)) by lia. apply andb_false_r.
  - rewrite Z.shiftr_spec, Z.testbit_ones_nonneg by lia.
    replace (n - 8 + 8) with n by lia.
    destruct (Z.ltb_spec (n - 8) 8) as [Hin|Hout].
    + replace (0 <=? n - 8) with true by (symmetry; apply Z.leb_le; lia).
      apply andb_true_r.
    + rewrite is_u16_high_bits by (assumption || lia). reflexivity.
Qed.

Lemma high_byte_range (id : Z) : is_u16 id -> 0 <= Z.shiftr id 8 < 256.
Proof.
  unfold is_u16. intros Hid. rewrite Z.shiftr_div_pow2 by lia.
  change (2 ^ 8) with 256. split.
  - apply Z.div_pos; lia.
  - apply Z.div_lt_upper_bound; lia.
Qed.

Lemma high_byte_split (id : Z) :
  is_u16 id -> exists lo, 0 <= lo < 256 /\ id = 256 * Z.shiftr id 8 + lo.
Proof.
  intros Hid. exists (id mod 256). split; [apply Z.mod_pos_bound; lia|].
  rewrite Z.shiftr_div_pow2 by lia. change (2 ^ 8) with 256.
  apply Z.div_mod. lia.
Qed.

(** The classification, ID by ID. *)
Lemma classify_keyboard_id_kind (w : world) :
  is_u16 (keyboard_id w) ->
  keyboard_id (classify_keyboard_id w) = keyboard_id w
  /\ keyboard_kind (classify_keyboard_id w)
     = if Z.shiftr (keyboard_id w) 8 =? 0xAB then PC_AT
       else if Z.shiftr (keyboard_id w) 8 =? 0xBF then PC_TERMINAL
       else if keyboard_id w =? 0xFFFF then PC_XT
       else if keyboard_id w =? 0x00FF then NONE
       else PC_AT.
Proof.
  intros Hid. unfold classify_keyboard_id.
  rewrite (high_byte_mask _ Hid).
  destruct (high_byte_split _ Hid) as (lo & Hlo & Hsplit).
  pose proof (high_byte_range _ Hid) as Hhi.
  generalize dependent (Z.shiftr (keyboard_id w) 8). intros hi Hsplit Hhi.
  cases_on_code; try (split; reflexivity); exfalso; lia.
Qed.

(** The protocol follows the family. *)
Lemma select_protocol_spec (w : world) :
  keyboard_id (select_protocol w) = keyboard_id w
  /\ keyboard_kind (select_protocol w) = keyboard_kind w
  /\ ibmpc_protocol (select_protocol w)
     = match keyboard_kind w with
       | PC_XT => IBMPC_PROTOCOL_XT
       | _ => IBMPC_PROTOCOL_AT
       end.
Proof.
  unfold select_protocol.
  destruct (keyboard_kind w) eqn:Hk; simpl; rewrite ?Hk;
    (split; [|split]); reflexivity.
Qed.

(** Every keyboard ID is a 16-bit value. *)
Lemma read_keyboard_id_u16 (fuel : nat) (w w' : world) (id : Z) :
  read_keyboard_id fuel w = Some (id, w') -> is_u16 id.
Proof.
  unfold read_keyboard_id.
  destruct (ibmpc_host_send 0xF5 w) as [c0 w0].
  destruct (ibmpc_host_send 0xF2 w0) as [c1 w1].
  destruct (c1 =? -1); [intros [= <- _]; unfold is_u16; lia|].
  destruct (negb (c1 =? 0xFA)); [intros [= <- _]; unfold is_u16; lia|].
  destruct (read_wait fuel 1000 w1) as [[c2 w2]|]; cbn [mbind option_bind];
    [|discriminate].
  destruct (c2 =? -1); [intros [= <- _]; unfold is_u16; lia|].
  destruct (read_wait fuel 1000 w2) as [[c3 w3]|]; cbn [mbind option_bind];
    [|discriminate].
  destruct (ibmpc_host_send 0xF4 w3) as [c4 w4].
  intros [= <- _]. unfold is_u16, u16. apply Z.mod_pos_bound. lia.
Qed.

Section ReadId.
Context `{headers}.

Lemma scan_error_check_read_id (w : world) :
  scan_state w = scan.READ_ID -> scan_state (scan_error_check w) = scan.READ_ID.
Proof.
  intros Hst. unfold scan_error_check.
  destruct (negb (ibmpc_error w =? 0)); [|exact Hst].
  cbn [xprintf set_trace ibmpc_error scan_state]. rewrite Hst.
  destruct (Z.land (ibmpc_error w) (Z.lor IBMPC_ERR_SEND IBMPC_ERR_FULL) =? 0);
    exact Hst.
Qed.

(** C5: in the READ_ID state [matrix_scan] stores the ID that
    [read_keyboard_id] returns and derives the family from it: high byte
    0xAB gives AT, high byte 0xBF gives Terminal, 0x0000 gives AT, 0xFFFF
    gives XT, 0xFFFE gives AT, 0x00FF gives no family, and every other ID
    gives AT; the protocol is XT exactly when the family is XT, and AT
    otherwise. *)
Theorem read_id_classification (fuel : nat) (w w1 : world) (id : Z) :
  scan_state w = scan.READ_ID ->
  read_keyboard_id fuel (scan_error_check w) = Some (id, w1) ->
  exists w',
    matrix_scan fuel w = Some (1, w')
    /\ scan_state w' = scan.LED_SET
    /\ keyboard_id w' = id
    /\ (Z.shiftr id 8 = 0xAB -> keyboard_kind w' = PC_AT)
    /\ (Z.shiftr id 8 = 0xBF -> keyboard_kind w' = PC_TERMINAL)
    /\ (id = 0x0000 -> keyboard_kind w' = PC_AT)
    /\ (id = 0xFFFF -> keyboard_kind w' = PC_XT)
    /\ (id = 0xFFFE -> keyboard_kind w' = PC_AT)
    /\ (id = 0x00FF -> keyboard_kind w' = NONE)
    /\ (Z.shiftr id 8 <> 0xAB -> Z.shiftr id 8 <> 0xBF ->
        id <> 0xFFFF -> id <> 0x00FF -> keyboard_kind w' = PC_AT)
    /\ (ibmpc_protocol w' = IBMPC_PROTOCOL_XT <-> keyboard_kind w' = PC_XT)
    /\ (keyboard_kind w' <> PC_XT -> ibmpc_protocol w' = IBMPC_PROTOCOL_AT).
Proof.
  intros Hst Hread. pose proof (read_keyboard_id_u16 _ _ _ _ Hread) as Hid.
  unfold matrix_scan. rewrite (scan_error_check_read_id w Hst).
  unfold scan_read_id. rewrite Hread. cbn [mbind option_bind].
  set (w2 := if negb (ibmpc_error (set_keyboard_id id w1) =? 0)
             then set_ibmpc_error (u8 IBMPC_ERR_NONE)
                    (xprintf "err: %02X\n" [ibmpc_error (set_keyboard_id id w1)]
                       (set_keyboard_id id w1))
             else set_keyboard_id id w1).
  set (w3 := xprintf "ID: %04X\n" [keyboard_id w2] w2).
  assert (keyboard_id w3 = id) as Hid3
    by (unfold w3, w2; destruct (negb (_ =? 0)); reflexivity).
  destruct (classify_keyboard_id_kind w3) as [Hid4 Hkind4];
    [rewrite Hid3; exact Hid|].
  destruct (select_protocol_spec (classify_keyboard_id w3)) as (Hid5 & Hkind5 & Hproto).
  eexists. split; [reflexivity|].
  cbn [scan_state keyboard_id keyboard_kind ibmpc_protocol set_scan_state].
  rewrite Hid5, Hid4, Hkind5, Hproto, Hkind4, Hid3.
  split; [reflexivity|]. split; [reflexivity|].
  split; [intros ->; reflexivity|]. split; [intros ->; reflexivity|].
  split; [intros ->; reflexivity|]. split; [intros ->; reflexivity|].
  split; [intros ->; reflexivity|]. split; [intros ->; reflexivity|].
  split; [intros; cases_on_code; congruence|].
  split; [|cases_on_code; congruence].
  cases_on_code; split; congruence.
Qed.

End ReadId.

Lemma ibmpc_host_send_trace (data : Z) (w : world) :
  trace (snd (ibmpc_host_send data w)) = trace w ++ [EvHostSend data].
Proof. unfold ibmpc_host_send. simpl. destruct (tx w); reflexivity. Qed.

Lemma timer_read_trace (w : world) : trace (snd (timer_read w)) = trace w.
Proof. unfold timer_read. destruct (ticks w); reflexivity. Qed.

Lemma read_wait_loop_trace (fuel : nat) (start wait_ms : Z) (w w' : world) (code : Z) :
  read_wait_loop fuel start wait_ms w = Some (code, w') -> trace w' = trace w.
Proof.
  revert w. induction fuel as [|fuel IH]; intros w; cbn [read_wait_loop];
    [discriminate|].
  destruct (ibmpc_host_recv_frame w) as (_ & _ & Htr & _).
  destruct (ibmpc_host_recv w) as [c w1]. cbn [snd] in Htr.
  destruct (c =? -1).
  - unfold timer_elapsed. pose proof (timer_read_trace w1) as Htr1.
    destruct (timer_read w1) as [t w2]. cbn [snd] in Htr1.
    destruct (u16 (t - start) <? wait_ms).
    + intros Hloop. rewrite (IH _ Hloop). congruence.
    + intros [= _ <-]. congruence.
  - intros [= _ <-]. exact Htr.
Qed.

(** Waiting for a byte sends nothing. *)
Lemma read_wait_trace (fuel : nat) (wait_ms : Z) (w w' : world) (code : Z) :
  read_wait fuel wait_ms w = Some (code, w') -> trace w' = trace w.
Proof.
  unfold read_wait. pose proof (timer_read_trace w) as Htr.
  destruct (timer_read w) as [t w1]. cbn [snd] in Htr.
  intros Hloop. rewrite (read_wait_loop_trace _ _ _ _ _ _ Hloop). exact Htr.
Qed.

(** X27: what [read_keyboard_id] sends: 0xF5 and 0xF2 always, and 0xF4 only
    on the path on which a first ID byte was received. *)
Lemma read_keyboard_id_sends (fuel : nat) (w w' : world) (id : Z) :
  read_keyboard_id fuel w = Some (id, w') ->
  let ack := fst (ibmpc_host_send 0xF2 (snd (ibmpc_host_send 0xF5 w))) in
  let first := read_wait fuel 1000 (snd (ibmpc_host_send 0xF2 (snd (ibmpc_host_send 0xF5 w)))) in
  if (ack =? 0xFA) && negb (default (-1) (fst <$> first) =? -1)
  then trace w' = trace w ++ [EvHostSend 0xF5; EvHostSend 0xF2; EvHostSend 0xF4]
  else trace w' = trace w ++ [EvHostSend 0xF5; EvHostSend 0xF2].
Proof.
  unfold read_keyboard_id.
  pose proof (ibmpc_host_send_trace 0xF5 w) as Ht0.
  destruct (ibmpc_host_send 0xF5 w) as [c0 w0]. cbn [fst snd] in *.
  pose proof (ibmpc_host_send_trace 0xF2 w0) as Ht1.
  destruct (ibmpc_host_send 0xF2 w0) as [c1 w1]. cbn [fst snd] in *.
  assert (trace w1 = trace w ++ [EvHostSend 0xF5; EvHostSend 0xF2]) as Ht
    by (rewrite Ht1, Ht0, <- app_assoc; reflexivity).
  destruct (Z.eqb_spec c1 (-1)) as [->|Hsent].
  { intros [= _ <-]. exact Ht. }
  destruct (Z.eqb_spec c1 0xFA) as [->|Hnak]; cbn [negb andb].
  2: { intros [= _ <-]. exact Ht. }
  destruct (read_wait fuel 1000 w1) as [[c2 w2]|] eqn:Hfirst;
    cbn [mbind option_bind fmap option_fmap option_map from_option fst];
    unfold Datatypes.id; [|discriminate].
  apply read_wait_trace in Hfirst.
  destruct (Z.eqb_spec c2 (-1)) as [->|Hbyte]; cbn [negb].
  { intros [= _ <-]. congruence. }
  destruct (read_wait fuel 1000 w2) as [[c3 w3]|] eqn:Hsecond;
    cbn [mbind option_bind]; [|discriminate].
  apply read_wait_trace in Hsecond.
  pose proof (ibmpc_host_send_trace 0xF4 w3) as Ht4.
  destruct (ibmpc_host_send 0xF4 w3) as [c4 w4]. cbn [snd] in Ht4.
  intros [= _ <-]. rewrite Ht4, Hsecond, Hfirst, Ht, <- app_assoc. reflexivity.
Qed.

(** C6 does not hold of the code: 0xF4 is sent on the path with a first ID
    byte only.  With an 84-key AT keyboard (ID 0x0000), an XT keyboard (ID
    0xFFFF) and a broken handshake (ID 0xFFFE), [read_keyboard_id] returns
    after 0xF5 and 0xF2, and scanning, disabled by 0xF5, is not enabled
    again; with the ID bytes AB 83 the three commands are sent. *)
Theorem read_keyboard_id_skips_enable :
  (fst <$> read_keyboard_id 1 at_84key_keyboard = Some 0x0000
   /\ trace ∘ snd <$> read_keyboard_id 1 at_84key_keyboard
      = Some [EvHostSend 0xF5; EvHostSend 0xF2])
  /\ (fst <$> read_keyboard_id 1 xt_keyboard = Some 0xFFFF
      /\ trace ∘ snd <$> read_keyboard_id 1 xt_keyboard
         = Some [EvHostSend 0xF5; EvHostSend 0xF2])
  /\ (fst <$> read_keyboard_id 1 broken_ps2_keyboard = Some 0xFFFE
      /\ trace ∘ snd <$> read_keyboard_id 1 broken_ps2_keyboard
         = Some [EvHostSend 0xF5; EvHostSend 0xF2])
  /\ (fst <$> read_keyboard_id 1 ps2_keyboard = Some 0xAB83
      /\ trace ∘ snd <$> read_keyboard_id 1 ps2_keyboard
         = Some [EvHostSend 0xF5; EvHostSend 0xF2; EvHostSend 0xF4]).
Proof. repeat split; vm_compute; reflexivity. Qed.

Lemma land_0xFF_byte (b : Z) : is_u8 b -> Z.land b 0xFF = b.
Proof.
  intros Hb. change 0xFF with (Z.ones 8). rewrite Z.land_ones by lia.
  apply Z.mod_small. exact Hb.
Qed.

(** A byte shifted into the high half of the ID, with 0xFF below it. *)
Lemma id_of_byte_and_timeout (b : Z) :
  is_u8 b ->
  u16 (Z.lor (u16 (Z.shiftl (Z.land b 0xFF) 8)) (Z.land (-1) 0xFF))
  = Z.lor (Z.shiftl b 8) 0xFF
  /\ Z.lor (Z.shiftl b 8) 0xFF = 256 * b + 255.
Proof.
  intros Hb. rewrite (land_0xFF_byte b Hb). change (Z.land (-1) 0xFF) with 0xFF.
  assert (Z.shiftl b 8 = 256 * b) as Hshift
    by (rewrite Z.shiftl_mul_pow2 by lia; change (2 ^ 8) with 256; lia).
  assert (Z.land (Z.shiftl b 8) 0xFF = 0) as Hdisj.
  { change 0xFF with (Z.ones 8). rewrite Z.land_ones by lia.
    rewrite Hshift. change (2 ^ 8) with 256.
    rewrite Z.mul_comm. apply Z.mod_mul. lia. }
  assert (Z.lor (Z.shiftl b 8) 0xFF = 256 * b + 255) as Hlor.
  { rewrite <- Z.lxor_lor, <- Z.add_nocarry_lxor by exact Hdisj. lia. }
  unfold is_u8 in Hb. split; [|exact Hlor].
  unfold u16. rewrite (Z.mod_small (Z.shiftl b 8)) by lia.
  rewrite Hlor. apply Z.mod_small. lia.
Qed.

(** C9: when 0xF2 is acknowledged, a first ID byte arrives and the wait for
    the second one times out, the -1 of the timeout is masked to 0xFF and
    [read_keyboard_id] returns [(first_byte << 8) | 0xFF] (after sending
    0xF4); a first byte 0xAB gives 0xABFF, which is classified as AT. *)
Theorem read_keyboard_id_second_byte_timeout (fuel : nat) (w w3 w4 : world)
    (b : Z) :
  fst (ibmpc_host_send 0xF2 (snd (ibmpc_host_send 0xF5 w))) = 0xFA ->
  read_wait fuel 1000 (snd (ibmpc_host_send 0xF2 (snd (ibmpc_host_send 0xF5 w))))
  = Some (b, w3) ->
  is_u8 b ->
  read_wait fuel 1000 w3 = Some (-1, w4) ->
  read_keyboard_id fuel w
  = Some (Z.lor (Z.shiftl b 8) 0xFF, snd (ibmpc_host_send 0xF4 w4))
  /\ (b = 0xAB ->
      Z.lor (Z.shiftl b 8) 0xFF = 0xABFF
      /\ forall w', keyboard_id w' = 0xABFF ->
           keyboard_kind (classify_keyboard_id w') = PC_AT).
Proof.
  intros Hack Hfirst Hb Hsecond. split.
  - unfold read_keyboard_id.
    destruct (ibmpc_host_send 0xF5 w) as [c0 w0]. cbn [fst snd] in *.
    destruct (ibmpc_host_send 0xF2 w0) as [c1 w1]. cbn [fst snd] in *.
    subst c1. change (0xFA =? -1) with false.
    change (negb (0xFA =? 0xFA)) with false. cbv iota.
    rewrite Hfirst. cbn [mbind option_bind].
    destruct (Z.eqb_spec b (-1)) as [->|_]; [unfold is_u8 in Hb; lia|].
    rewrite Hsecond. cbn [mbind option_bind].
    destruct (ibmpc_host_send 0xF4 w4) as [c4 w5]. cbn [snd].
    rewrite (proj1 (id_of_byte_and_timeout b Hb)). reflexivity.
  - intros ->. split; [reflexivity|].
    intros w' Hid. unfold classify_keyboard_id. rewrite Hid. reflexivity.
Qed.

Lemma read_keyboard_id_second_byte_timeout_witness :
  fst <$> read_keyboard_id 1 half_id_keyboard = Some 0xABFF.
Proof.
  assert (fst (ibmpc_host_send 0xF2 (snd (ibmpc_host_send 0xF5 half_id_keyboard)))
          = 0xFA) as Hack by (vm_compute; reflexivity).
  assert (read_wait 1 1000
            (snd (ibmpc_host_send 0xF2 (snd (ibmpc_host_send 0xF5 half_id_keyboard))))
          = Some (0xAB, half_id_first_wait)) as Hfirst by (vm_compute; reflexivity).
  assert (is_u8 0xAB) as Hb by by_decide.
  assert (read_wait 1 1000 half_id_first_wait = Some (-1, half_id_second_wait))
    as Hsecond by (vm_compute; reflexivity).
  destruct (read_keyboard_id_second_byte_timeout 1 half_id_keyboard
              half_id_first_wait half_id_second_wait 0xAB Hack Hfirst Hb Hsecond)
    as [Hid _].
  rewrite Hid. vm_compute. reflexivity.
Defined.

Lemma read_id_classification_witness :
  exists w',
    @matrix_scan tmk_headers 1 ps2_keyboard = Some (1, w')
    /\ keyboard_id w' = 0xAB83
    /\ keyboard_kind w' = PC_AT
    /\ ibmpc_protocol w' = IBMPC_PROTOCOL_AT.
Proof.
  assert (scan_state ps2_keyboard = scan.READ_ID) as Hst by reflexivity.
  assert (read_keyboard_id 1 (@scan_error_check tmk_headers ps2_keyboard)
          = Some (0xAB83, ps2_keyboard_identified)) as Hread
    by (vm_compute; reflexivity).
  destruct (@read_id_classification tmk_headers 1 ps2_keyboard
              ps2_keyboard_identified 0xAB83 Hst Hread)
    as (w' & Hscan & _ & Hid & Hat & _ & _ & _ & _ & _ & _ & _ & Hproto).
  exists w'. split; [exact Hscan|]. split; [exact Hid|].
  assert (keyboard_kind w' = PC_AT) as Hkind by (apply Hat; reflexivity).
  split; [exact Hkind|]. apply Hproto. rewrite Hkind. discriminate.
Defined.

(** Start-up on an XT keyboard and on a keyboard that stops after AB. *)
Example matrix_scan_xt_keyboard :
  (fun r => (keyboard_id (snd r), keyboard_kind (snd r), ibmpc_protocol (snd r)))
    <$> @matrix_scan tmk_headers 1 xt_keyboard
  = Some (0xFFFF, PC_XT, IBMPC_PROTOCOL_XT).
Proof. vm_compute. reflexivity. Qed.

Example matrix_scan_half_id_keyboard :
  (fun r => (keyboard_id (snd r), keyboard_kind (snd r), ibmpc_protocol (snd r)))
    <$> @matrix_scan tmk_headers 1 half_id_keyboard
  = Some (0xABFF, PC_AT, IBMPC_PROTOCOL_AT).
Proof. vm_compute. reflexivity. Qed.

(** ** Action resolution *)

Lemma unimap_row_mask (u : Z) :
  0 <= u < 0x80 -> Z.shiftr (Z.land u 0x70) 4 = Z.shiftr u 4.
Proof.
  intros Hu. apply Z.bits_inj'. intros n Hn.
  rewrite !Z.shiftr_spec, Z.land_spec by exact Hn.
  destruct (Z.ltb_spec n 3) as [Hlow|Hhigh].
  - assert (n = 0 \/ n = 1 \/ n = 2) as [-> | [-> | ->]] by lia;
      apply andb_true_r.
  - assert (Z.testbit u (n + 4) = false) as ->; [|reflexivity].
    apply Z.testbit_false; [lia|].
    rewrite Z.div_small; [reflexivity|]. split; [lia|].
    apply Z.lt_le_trans with (2 ^ 7); [exact (proj2 Hu)|].
    apply Z.pow_le_mono_r; lia.
Qed.

(** C2: on tables whose entries are universal positions, [action_for_key]
    is the resolver of the specification: no action when the family is
    unset, else the position from the table of the active family (unimap_cs1
    for XT, unimap_cs2 for AT, unimap_cs3 for Terminal), no action when that
    position is NO, and else the action at [(layer, ukp >> 4, ukp & 0x0F)]. *)
Theorem action_for_key_resolves
    (unimap_cs1 unimap_cs2 unimap_cs3 : Z -> Z -> Z) (actionmaps : Z -> Z -> Z -> Z)
    (UNIMAP_NO ACTION_NO : Z) (layer : Z) (key : keypos_t) (w : world) :
  (forall r c, unimap_entry UNIMAP_NO (unimap_cs1 r c)) ->
  (forall r c, unimap_entry UNIMAP_NO (unimap_cs2 r c)) ->
  (forall r c, unimap_entry UNIMAP_NO (unimap_cs3 r c)) ->
  action_for_key unimap_cs1 unimap_cs2 unimap_cs3 actionmaps UNIMAP_NO ACTION_NO
    layer key w
  = action_for_key_spec unimap_cs1 unimap_cs2 unimap_cs3 actionmaps UNIMAP_NO
      ACTION_NO layer key w
  /\ (keyboard_kind w = NONE ->
      action_for_key unimap_cs1 unimap_cs2 unimap_cs3 actionmaps UNIMAP_NO
        ACTION_NO layer key w = ACTION_NO).
Proof.
  intros H1 H2 H3. unfold action_for_key, action_for_key_spec.
  split; [|intros ->; reflexivity].
  assert (Hresolve : forall u, unimap_entry UNIMAP_NO u ->
    (if u =? UNIMAP_NO then ACTION_NO
     else actionmaps layer (Z.shiftr (Z.land u 0x70) 4) (Z.land u 0x0f))
    = (if u =? UNIMAP_NO then ACTION_NO
       else actionmaps layer (Z.shiftr u 4) (Z.land u 0x0F))).
  { intros u [Hno|Hu].
    - rewrite Hno, Z.eqb_refl. reflexivity.
    - rewrite (unimap_row_mask u Hu). reflexivity. }
  destruct (keyboard_kind w); try reflexivity; apply Hresolve; auto.
Qed.

Lemma action_for_key_resolves_witness :
  action_for_key one_key_table one_key_table one_key_table index_actions 0x80 0
    2 (Keypos 4 3) (set_keyboard_kind PC_AT power_on)
  = index_actions 2 4 0xB.
Proof.
  assert (forall r c, unimap_entry 0x80 (one_key_table r c)) as Htable.
  { intros r c. unfold unimap_entry, one_key_table.
    destruct ((r =? 3) && (c =? 4)); [right; lia|left; reflexivity]. }
  destruct (action_for_key_resolves one_key_table one_key_table one_key_table
              index_actions 0x80 0 2 (Keypos 4 3)
              (set_keyboard_kind PC_AT power_on) Htable Htable Htable)
    as [Hspec _].
  rewrite Hspec. reflexivity.
Defined.

(** * Further properties *)

(** ** Make, break and clear as operations on keys *)

Lemma ROW_COL_of_cell (i j : Z) :
  0 <= j < 8 -> ROW (8 * i + j) = i /\ COL (8 * i + j) = j.
Proof.
  intros Hj. unfold ROW, COL. rewrite Z.shiftr_div_pow2 by lia.
  change 7 with (Z.ones 3). rewrite Z.land_ones by lia. change (2 ^ 3) with 8.
  split.
  - rewrite Z.mul_comm, Z.div_add_l by lia. rewrite Z.div_small by lia. lia.
  - rewrite Z.add_comm, Z.mul_comm, Z.mod_add by lia. apply Z.mod_small. lia.
Qed.

(** Two well-formed matrices in which the same keys are on are equal. *)
Lemma matrix_ext_keys (a b : world) :
  matrix_wf (matrix a) -> matrix_wf (matrix b) ->
  (forall d, is_u8 d ->
     matrix_is_on a (ROW d) (COL d) = matrix_is_on b (ROW d) (COL d)) ->
  matrix a = matrix b.
Proof.
  intros Hwa Hwb Hkeys.
  apply list_eq_same_length with (n := MATRIX_ROWS); [apply Hwb|apply Hwa|].
  intros i x y Hi Hx Hy. unfold MATRIX_ROWS in Hi.
  assert (is_u8 x) as Hux by (eapply Forall_lookup_1; [apply Hwa|exact Hx]).
  assert (is_u8 y) as Huy by (eapply Forall_lookup_1; [apply Hwb|exact Hy]).
  apply Z.bits_inj'. intros j Hj.
  destruct (Z.ltb_spec j 8) as [Hlow|Hhigh].
  - destruct (ROW_COL_of_cell (Z.of_nat i) j) as [Hrow Hcol]; [lia|].
    assert (is_u8 (8 * Z.of_nat i + j)) as Hd by (unfold is_u8; lia).
    specialize (Hkeys _ Hd). rewrite Hrow, Hcol in Hkeys.
    rewrite !matrix_is_on_testbit in Hkeys by lia.
    unfold matrix_get_row in Hkeys. rewrite Nat2Z.id, Hx, Hy in Hkeys. exact Hkeys.
  - rewrite !is_u8_high_bits by (assumption || lia). reflexivity.
Qed.

(** Worlds that differ from [w] in the matrix only are equal when their
    matrices are. *)
Lemma world_ext_matrix (w a b : world) :
  set_matrix (matrix w) a = w -> set_matrix (matrix w) b = w ->
  matrix a = matrix b -> a = b.
Proof.
  intros Ha Hb Hm. apply set_matrix_frame in Ha, Hb.
  rewrite Ha, Hb, Hm. reflexivity.
Qed.

(** Which keys are on after a make and after a break. *)
Lemma matrix_is_on_make (w : world) (c d : Z) :
  matrix_wf (matrix w) -> is_u8 c -> is_u8 d ->
  matrix_is_on (matrix_make c w) (ROW d) (COL d)
  = matrix_is_on w (ROW d) (COL d) || (c =? d).
Proof.
  intros Hwf Hc Hd. destruct (Z.eqb_spec c d) as [<-|Hne].
  - pose proof (COL_range c).
    destruct (matrix_make_bits w c Hwf Hc) as (_ & _ & _ & Hbits).
    rewrite !matrix_is_on_testbit, Hbits, Z.eqb_refl by lia.
    rewrite !orb_true_r. reflexivity.
  - rewrite matrix_make_other by assumption. symmetry. apply orb_false_r.
Qed.

Lemma matrix_is_on_break (w : world) (c d : Z) :
  matrix_wf (matrix w) -> is_u8 c -> is_u8 d ->
  matrix_is_on (matrix_break c w) (ROW d) (COL d)
  = matrix_is_on w (ROW d) (COL d) && negb (c =? d).
Proof.
  intros Hwf Hc Hd. destruct (Z.eqb_spec c d) as [<-|Hne].
  - rewrite matrix_break_is_off by assumption. symmetry. apply andb_false_r.
  - rewrite matrix_break_other by assumption. symmetry. apply andb_true_r.
Qed.

Lemma matrix_make_wf (w : world) (c : Z) :
  matrix_wf (matrix w) -> is_u8 c -> matrix_wf (matrix (matrix_make c w)).
Proof. intros Hwf Hc. apply (matrix_make_bits w c Hwf Hc). Qed.

Lemma matrix_break_wf (w : world) (c : Z) :
  matrix_wf (matrix w) -> is_u8 c -> matrix_wf (matrix (matrix_break c w)).
Proof. intros Hwf Hc. apply (matrix_break_bits w c Hwf Hc). Qed.

Lemma matrix_make_only_matrix (w : world) (c : Z) :
  matrix_make c w = set_matrix (matrix (matrix_make c w)) w.
Proof.
  unfold matrix_make. destruct (negb _); [reflexivity|].
  symmetry. apply set_matrix_id.
Qed.

Lemma matrix_break_only_matrix (w : world) (c : Z) :
  matrix_break c w = set_matrix (matrix (matrix_break c w)) w.
Proof.
  unfold matrix_break. destruct (matrix_is_on _ _ _); [reflexivity|].
  symmetry. apply set_matrix_id.
Qed.

Lemma frame_make (m : list Z) (a w : world) (c : Z) :
  set_matrix m a = w -> set_matrix m (matrix_make c a) = w.
Proof. intros <-. rewrite matrix_make_only_matrix. reflexivity. Qed.

Lemma frame_break (m : list Z) (a w : world) (c : Z) :
  set_matrix m a = w -> set_matrix m (matrix_break c a) = w.
Proof. intros <-. rewrite matrix_break_only_matrix. reflexivity. Qed.

(** Equality of two worlds obtained from [w] by makes and breaks: they only
    differ from [w] in the matrix, so it is enough that the same keys are on. *)
Lemma world_ext_keys (w a b : world) :
  set_matrix (matrix w) a = w -> set_matrix (matrix w) b = w ->
  matrix_wf (matrix a) -> matrix_wf (matrix b) ->
  (forall d, is_u8 d ->
     matrix_is_on a (ROW d) (COL d) = matrix_is_on b (ROW d) (COL d)) ->
  a = b.
Proof.
  intros Ha Hb Hwa Hwb Hkeys. apply (world_ext_matrix w); try assumption.
  apply matrix_ext_keys; assumption.
Qed.

Ltac frame_of_ops :=
  repeat first [apply frame_make | apply frame_break]; apply set_matrix_id.

Lemma matrix_make_after_break (w : world) (c : Z) :
  matrix_wf (matrix w) -> is_u8 c ->
  matrix_make c (matrix_break c w) = matrix_make c w.
Proof.
  intros Hwf Hc. pose proof (matrix_break_wf w c Hwf Hc) as Hwfb.
  apply (world_ext_keys w); try frame_of_ops.
  - apply matrix_make_wf; assumption.
  - apply matrix_make_wf; assumption.
  - intros d Hd. rewrite !matrix_is_on_make, matrix_is_on_break by assumption.
    destruct (matrix_is_on w (ROW d) (COL d)), (c =? d); reflexivity.
Qed.

(** X1: [matrix_make] turns the key on and [matrix_break] turns it off; each
    is idempotent, and a make after a break of the same key is that make. *)
Theorem matrix_make_break_effect (w : world) (c : Z) :
  matrix_wf (matrix w) -> is_u8 c ->
  matrix_is_on (matrix_make c w) (ROW c) (COL c) = true
  /\ matrix_is_on (matrix_break c w) (ROW c) (COL c) = false
  /\ matrix_make c (matrix_make c w) = matrix_make c w
  /\ matrix_break c (matrix_break c w) = matrix_break c w
  /\ matrix_make c (matrix_break c w) = matrix_make c w.
Proof.
  intros Hwf Hc.
  assert (matrix_is_on (matrix_make c w) (ROW c) (COL c) = true) as Hon
    by (rewrite matrix_is_on_make, Z.eqb_refl by assumption; apply orb_true_r).
  pose proof (matrix_break_is_off w c Hwf Hc) as Hoff.
  split; [exact Hon|]. split; [exact Hoff|].
  split; [apply matrix_make_on, Hon|].
  split; [apply matrix_break_off, Hoff|].
  apply matrix_make_after_break; assumption.
Qed.

Lemma matrix_make_break_effect_witness :
  matrix_is_on (matrix_make 0x1C power_on) (ROW 0x1C) (COL 0x1C) = true
  /\ matrix_is_on (matrix_break 0x1C key_A_down) (ROW 0x1C) (COL 0x1C) = false.
Proof.
  assert (matrix_wf (matrix power_on)) as Hwf by by_decide.
  assert (matrix_wf (matrix key_A_down)) as Hwf' by by_decide.
  assert (is_u8 0x1C) as Hc by by_decide.
  split.
  - apply (matrix_make_break_effect power_on 0x1C Hwf Hc).
  - apply (matrix_make_break_effect key_A_down 0x1C Hwf' Hc).
Defined.

(** X2: makes and breaks of keys commute: two makes, two breaks, and a make
    and a break of different keys give the same state in either order. *)
Theorem matrix_make_break_commute (w : world) (c d : Z) :
  matrix_wf (matrix w) -> is_u8 c -> is_u8 d ->
  matrix_make c (matrix_make d w) = matrix_make d (matrix_make c w)
  /\ matrix_break c (matrix_break d w) = matrix_break d (matrix_break c w)
  /\ (c <> d -> matrix_make c (matrix_break d w) = matrix_break d (matrix_make c w)).
Proof.
  intros Hwf Hc Hd.
  pose proof (matrix_make_wf w c Hwf Hc) as Hmc.
  pose proof (matrix_make_wf w d Hwf Hd) as Hmd.
  pose proof (matrix_break_wf w c Hwf Hc) as Hbc.
  pose proof (matrix_break_wf w d Hwf Hd) as Hbd.
  split; [|split; [|intros Hne]]; apply (world_ext_keys w);
    try frame_of_ops;
    try (apply matrix_make_wf; assumption);
    try (apply matrix_break_wf; assumption);
    intros k Hk;
    rewrite ?matrix_is_on_make, ?matrix_is_on_break, ?matrix_is_on_make,
      ?matrix_is_on_break by assumption;
    destruct (matrix_is_on w (ROW k) (COL k));
    destruct (Z.eqb_spec c k), (Z.eqb_spec d k); try reflexivity; congruence.
Qed.

Lemma matrix_make_break_commute_witness :
  matrix_make 0x1C (matrix_break 0x1B key_A_down)
  = matrix_break 0x1B (matrix_make 0x1C key_A_down).
Proof.
  assert (matrix_wf (matrix key_A_down)) as Hwf by by_decide.
  assert (is_u8 0x1C) as Hc by by_decide.
  assert (is_u8 0x1B) as Hd by by_decide.
  apply (matrix_make_break_commute key_A_down 0x1C 0x1B Hwf Hc Hd). lia.
Defined.

(** X3: [matrix_clear] leaves every row zero and no key on, writes nothing
    but the matrix, and is where a make followed by a break of the same key
    comes back to. *)
Theorem matrix_clear_effect (w : world) (c : Z) :
  matrix_wf (matrix w) -> is_u8 c ->
  matrix (matrix_clear w) = matrix_zero
  /\ set_matrix (matrix w) (matrix_clear w) = w
  /\ (forall r k, matrix_is_on (matrix_clear w) r k = false)
  /\ matrix_clear (matrix_clear w) = matrix_clear w
  /\ matrix_break c (matrix_make c (matrix_clear w)) = matrix_clear w.
Proof.
  intros Hwf Hc.
  pose proof (matrix_clear_zero w (proj1 Hwf)) as Hzero.
  assert (forall r k, matrix_is_on (matrix_clear w) r k = false) as Hoff
    by (intros r k; apply matrix_zero_off, Hzero).
  assert (forall a, set_matrix (matrix w) a = w ->
            set_matrix (matrix w) (matrix_clear a) = w) as Hframe
    by (intros a <-; reflexivity).
  split; [exact Hzero|].
  split; [apply Hframe, set_matrix_id|].
  split; [exact Hoff|]. split.
  - apply (world_ext_matrix w); [apply Hframe, Hframe|apply Hframe|];
      try apply set_matrix_id.
    rewrite (matrix_clear_zero (matrix_clear w)) by (rewrite Hzero; reflexivity).
    symmetry. exact Hzero.
  - apply matrix_make_break_off; [|exact Hc|apply Hoff].
    rewrite Hzero. by_decide.
Qed.

Lemma matrix_clear_effect_witness :
  matrix_is_on key_A_down 3 4 = true
  /\ matrix (matrix_clear key_A_down) = matrix_zero.
Proof.
  assert (matrix_wf (matrix key_A_down)) as Hwf by by_decide.
  assert (is_u8 0x1C) as Hc by by_decide.
  split; [reflexivity|].
  apply (matrix_clear_effect key_A_down 0x1C Hwf Hc).
Defined.

(** ** Key count *)

Lemma foldl_ext_in {A B : Type} (f g : A -> B -> A) (l : list B) (a : A) :
  (forall x y, In y l -> f x y = g x y) -> foldl f a l = foldl g a l.
Proof.
  revert a. induction l as [|y l IH]; intros a Hfg; [reflexivity|].
  simpl. rewrite Hfg by (left; reflexivity).
  apply IH. intros x z Hz. apply Hfg. right. exact Hz.
Qed.

(** A sum kept in a [uint8_t] is the sum modulo 256. *)
Lemma foldl_u8_sum {B : Type} (f : B -> Z) (l : list B) (a : Z) :
  foldl (fun c x => u8 (c + f x)) (u8 a) l = u8 (foldl (fun c x => c + f x) a l).
Proof.
  revert a. induction l as [|x l IH]; intros a; [reflexivity|].
  cbn [foldl].
  assert (u8 (u8 a + f x) = u8 (a + f x)) as ->
    by (unfold u8; apply Z.add_mod_idemp_l; lia).
  apply (IH (a + f x)).
Qed.

Lemma foldl_sum_shift {B : Type} (f : B -> Z) (l : list B) (a : Z) :
  foldl (fun c x => c + f x) a l = a + foldl (fun c x => c + f x) 0 l.
Proof.
  revert a. induction l as [|x l IH]; intros a; simpl; [lia|].
  rewrite (IH (a + f x)), (IH (0 + f x)). lia.
Qed.

Lemma foldl_sum_add {B : Type} (f g : B -> Z) (l : list B) :
  foldl (fun c x => c + (f x + g x)) 0 l
  = foldl (fun c x => c + f x) 0 l + foldl (fun c x => c + g x) 0 l.
Proof.
  induction l as [|x l IH] using rev_ind; [reflexivity|].
  rewrite !foldl_app. simpl. rewrite IH. lia.
Qed.

(** The 256 cells counted code by code, and row by row. *)
Lemma sum_cells (f : Z -> Z -> Z) :
  foldl (fun n c => n + f (ROW (Z.of_nat c)) (COL (Z.of_nat c))) 0 (seq 0 256)
  = foldl (fun n i =>
             n + foldl (fun c j => c + f (Z.of_nat i) (Z.of_nat j)) 0 (seq 0 8))
          0 (seq 0 32).
Proof. cbv -[Z.add]. lia. Qed.

Lemma keys_on_testbit (w : world) :
  keys_on w
  = foldl (fun n c => n + Z.b2z (Z.testbit (matrix_get_row w (ROW (Z.of_nat c)))
                                           (COL (Z.of_nat c)))) 0 (seq 0 256).
Proof.
  unfold keys_on. apply foldl_ext_in. intros n c _.
  rewrite matrix_is_on_testbit by apply COL_range. reflexivity.
Qed.

(** The count row by row is the count key by key, in a [uint8_t]. *)
Lemma matrix_key_count_sum (w : world) :
  matrix_key_count w = u8 (keys_on w).
Proof.
  unfold matrix_key_count. change 0 with (u8 0) at 1.
  rewrite (foldl_u8_sum (fun i => bitpop (matrix_get_row w (Z.of_nat i)))).
  f_equal. rewrite keys_on_testbit.
  rewrite (sum_cells (fun i j => Z.b2z (Z.testbit (matrix_get_row w i) j))).
  reflexivity.
Qed.

Lemma foldl_b2z_bounds {B : Type} (f : B -> bool) (l : list B) (a : Z) :
  a <= foldl (fun n c => n + Z.b2z (f c)) a l <= a + Z.of_nat (length l).
Proof.
  revert a. induction l as [|x l IH]; intros a; cbn [foldl length]; [lia|].
  specialize (IH (a + Z.b2z (f x))). destruct (f x); cbn [Z.b2z] in *; lia.
Qed.

(** X4: [matrix_key_count] is the number of keys that [matrix_is_on] reports
    on, modulo 256 (the count is a [uint8_t]): the number itself with up to
    255 keys on, and 0 with all 256 on. *)
Theorem matrix_key_count_keys_on (w : world) :
  matrix_key_count w = u8 (keys_on w)
  /\ 0 <= keys_on w <= 256
  /\ (keys_on w < 256 -> matrix_key_count w = keys_on w)
  /\ (keys_on w = 256 -> matrix_key_count w = 0).
Proof.
  rewrite matrix_key_count_sum.
  assert (0 <= keys_on w <= 256) as Hb.
  { unfold keys_on.
    pose proof (foldl_b2z_bounds
                  (fun c => matrix_is_on w (ROW (Z.of_nat c)) (COL (Z.of_nat c)))
                  (seq 0 256) 0) as Hb.
    rewrite length_seq in Hb. exact Hb. }
  split; [reflexivity|]. split; [exact Hb|]. split.
  - intros Hlt. apply u8_id. unfold is_u8. lia.
  - intros ->. reflexivity.
Qed.

Lemma sum_one_code (c : Z) (n : nat) :
  foldl (fun s k => s + Z.b2z (c =? Z.of_nat k)) 0 (seq 0 n)
  = Z.b2z ((0 <=? c) && (c <? Z.of_nat n)).
Proof.
  induction n as [|n IH].
  - simpl. destruct (Z.leb_spec 0 c), (Z.ltb_spec c (Z.of_nat 0)); simpl; lia.
  - rewrite seq_S, foldl_app, IH. cbn [foldl plus].
    destruct (Z.leb_spec 0 c), (Z.ltb_spec c (Z.of_nat n)),
      (Z.ltb_spec c (Z.of_nat (S n))), (Z.eqb_spec c (Z.of_nat n)); simpl; lia.
Qed.

Lemma code_of_seq (k : nat) : In k (seq 0 256) -> is_u8 (Z.of_nat k).
Proof. intros Hk. apply in_seq in Hk. unfold is_u8. lia. Qed.

Lemma keys_on_make (w : world) (c : Z) :
  matrix_wf (matrix w) -> is_u8 c ->
  matrix_is_on w (ROW c) (COL c) = false ->
  keys_on (matrix_make c w) = keys_on w + 1.
Proof.
  intros Hwf Hc Hoff. unfold keys_on.
  rewrite (foldl_ext_in _
    (fun n k => n + (Z.b2z (matrix_is_on w (ROW (Z.of_nat k)) (COL (Z.of_nat k)))
                     + Z.b2z (c =? Z.of_nat k)))).
  - rewrite (foldl_sum_add
      (fun k => Z.b2z (matrix_is_on w (ROW (Z.of_nat k)) (COL (Z.of_nat k))))
      (fun k => Z.b2z (c =? Z.of_nat k))).
    rewrite sum_one_code. f_equal. unfold is_u8 in Hc.
    destruct (Z.leb_spec 0 c), (Z.ltb_spec c (Z.of_nat 256)); simpl; lia.
  - intros n k Hk. rewrite matrix_is_on_make by auto using code_of_seq.
    destruct (Z.eqb_spec c (Z.of_nat k)) as [<-|_].
    + rewrite Hoff. reflexivity.
    + rewrite orb_false_r. simpl. lia.
Qed.

Lemma keys_on_break (w : world) (c : Z) :
  matrix_wf (matrix w) -> is_u8 c ->
  matrix_is_on w (ROW c) (COL c) = true ->
  keys_on (matrix_break c w) = keys_on w - 1.
Proof.
  intros Hwf Hc Hon.
  pose proof (matrix_break_wf w c Hwf Hc) as Hwfb.
  pose proof (matrix_break_is_off w c Hwf Hc) as Hoff.
  pose proof (keys_on_make (matrix_break c w) c Hwfb Hc Hoff) as Hmake.
  assert (matrix_make c (matrix_break c w) = w) as Hback.
  { rewrite matrix_make_after_break by assumption. apply matrix_make_on, Hon. }
  rewrite Hback in Hmake. lia.
Qed.

Lemma keys_on_none (w : world) :
  (forall r k, matrix_is_on w r k = false) -> keys_on w = 0.
Proof.
  intros Hoff. unfold keys_on.
  rewrite (foldl_ext_in _ (fun n (_ : nat) => n + 0)).
  - generalize (seq 0 256). intros l. induction l as [|k l IH]; [reflexivity|].
    exact IH.
  - intros n k _. rewrite Hoff. reflexivity.
Qed.

Lemma u8_succ (a : Z) : u8 (u8 a + 1) = u8 (a + 1).
Proof. unfold u8. apply Z.add_mod_idemp_l. lia. Qed.

Lemma u8_pred (a : Z) : u8 (u8 a - 1) = u8 (a - 1).
Proof. unfold u8. apply Zminus_mod_idemp_l. Qed.

(** X5: the key count follows the keys: it is 0 after [matrix_clear], one
    more (modulo 256) after the make of a key that was off, and one less
    (modulo 256) after the break of a key that was on. *)
Theorem matrix_key_count_changes (w : world) (c : Z) :
  matrix_wf (matrix w) -> is_u8 c ->
  matrix_key_count (matrix_clear w) = 0
  /\ (matrix_is_on w (ROW c) (COL c) = false ->
        matrix_key_count (matrix_make c w) = u8 (matrix_key_count w + 1))
  /\ (matrix_is_on w (ROW c) (COL c) = true ->
        matrix_key_count (matrix_break c w) = u8 (matrix_key_count w - 1)).
Proof.
  intros Hwf Hc. rewrite !matrix_key_count_sum.
  split; [|split].
  - rewrite keys_on_none; [reflexivity|].
    intros r k. apply matrix_zero_off, (matrix_clear_zero w), Hwf.
  - intros Hoff. rewrite (keys_on_make w c Hwf Hc Hoff). symmetry. apply u8_succ.
  - intros Hon. rewrite (keys_on_break w c Hwf Hc Hon). symmetry. apply u8_pred.
Qed.

Lemma matrix_key_count_changes_witness :
  matrix_key_count power_on = 0
  /\ matrix_key_count (matrix_make 0x1C power_on) = 1.
Proof.
  assert (matrix_wf (matrix power_on)) as Hwf by by_decide.
  assert (is_u8 0x1C) as Hc by by_decide.
  destruct (matrix_key_count_changes power_on 0x1C Hwf Hc) as (_ & Hmake & _).
  split; [vm_compute; reflexivity|].
  rewrite Hmake by (vm_compute; reflexivity). vm_compute. reflexivity.
Defined.

(** ** The decoder: what it keeps and what it leaves alone *)

Lemma outside_decoder_set_matrix (m : list Z) (w : world) :
  outside_decoder (set_matrix m w) = outside_decoder w.
Proof. reflexivity. Qed.

Lemma outside_decoder_make (c : Z) (w : world) :
  outside_decoder (matrix_make c w) = outside_decoder w.
Proof. rewrite matrix_make_only_matrix. reflexivity. Qed.

Lemma outside_decoder_break (c : Z) (w : world) :
  outside_decoder (matrix_break c w) = outside_decoder w.
Proof. rewrite matrix_break_only_matrix. reflexivity. Qed.

Lemma outside_decoder_pseudo_break (w : world) :
  outside_decoder (pause_pseudo_break w) = outside_decoder w.
Proof. rewrite pause_pseudo_break_frame. reflexivity. Qed.

Lemma outside_decoder_recv (w : world) :
  outside_decoder (snd (ibmpc_host_recv w)) = outside_decoder w.
Proof. unfold ibmpc_host_recv. destruct (rx w); reflexivity. Qed.

Lemma trace_make (c : Z) (w : world) : trace (matrix_make c w) = trace w.
Proof. rewrite matrix_make_only_matrix. reflexivity. Qed.

Lemma trace_break (c : Z) (w : world) : trace (matrix_break c w) = trace w.
Proof. rewrite matrix_break_only_matrix. reflexivity. Qed.

Lemma rx_make (c : Z) (w : world) : rx (matrix_make c w) = rx w.
Proof. rewrite matrix_make_only_matrix. reflexivity. Qed.

Lemma rx_break (c : Z) (w : world) : rx (matrix_break c w) = rx w.
Proof. rewrite matrix_break_only_matrix. reflexivity. Qed.

Lemma matrix_wf_recover (fmt : string) (w : world) :
  matrix_wf (matrix w) ->
  matrix_wf (matrix (xprintf fmt [] (clear_keyboard (matrix_clear w)))).
Proof. intros Hwf. rewrite (matrix_after_recover fmt w Hwf). by_decide. Qed.

(** What the switch does to everything but the decoder state: the world it
    returns is the one it got, after at most one make, break or recovery. *)
Lemma process_cs2_switch_shape (code : Z) (w : world) :
  exists st, snd (process_cs2_switch code w) = set_cs2_state st w
    \/ (exists c, is_u8 c /\ snd (process_cs2_switch code w)
                             = set_cs2_state st (matrix_make c w))
    \/ (exists c, is_u8 c /\ snd (process_cs2_switch code w)
                             = set_cs2_state st (matrix_break c w))
    \/ (exists fmt, snd (process_cs2_switch code w)
                    = set_cs2_state st
                        (xprintf fmt [] (clear_keyboard (matrix_clear w)))).
Proof.
  unfold process_cs2_switch.
  destruct (cs2_state w); cases_on_code; cbn [snd]; eexists;
    first [ left; reflexivity
          | right; left; eexists; split; [|reflexivity];
            first [apply u8_is_u8 | by_decide]
          | right; right; left; eexists; split; [|reflexivity];
            first [apply u8_is_u8 | by_decide]
          | right; right; right; eexists; reflexivity ].
Qed.

Lemma process_cs2_switch_keeps (code : Z) (w : world) :
  matrix_wf (matrix w) ->
  matrix_wf (matrix (snd (process_cs2_switch code w)))
  /\ outside_decoder (snd (process_cs2_switch code w)) = outside_decoder w
  /\ rx (snd (process_cs2_switch code w)) = rx w
  /\ ibmpc_error (snd (process_cs2_switch code w)) = ibmpc_error w
  /\ (trace (snd (process_cs2_switch code w)) = trace w
      \/ exists fmt, trace (snd (process_cs2_switch code w))
                     = trace w ++ [EvClearKeyboard; EvPrint fmt []]).
Proof.
  intros Hwf.
  destruct (process_cs2_switch_shape code w)
    as (st & [-> | [(c & Hc & ->) | [(c & Hc & ->) | (fmt & ->)]]]).
  - split; [exact Hwf|]. split; [reflexivity|]. split; [reflexivity|].
    split; [reflexivity|left; reflexivity].
  - split; [apply matrix_make_wf; assumption|].
    split; [apply (outside_decoder_make c w)|].
    split; [apply (rx_make c w)|].
    split; [rewrite matrix_make_only_matrix; reflexivity|].
    left. apply (trace_make c w).
  - split; [apply matrix_break_wf; assumption|].
    split; [apply (outside_decoder_break c w)|].
    split; [apply (rx_break c w)|].
    split; [rewrite matrix_break_only_matrix; reflexivity|].
    left. apply (trace_break c w).
  - split; [apply (matrix_wf_recover fmt w Hwf)|].
    split; [reflexivity|]. split; [reflexivity|]. split; [reflexivity|].
    right. exists fmt. apply trace_after_recover.
Qed.

(** X6: [process_cs2] keeps the matrix well formed (MATRIX_ROWS bytes) and
    leaves the lifecycle state, the family, the ID, the protocol, the send
    script and the clock alone; it takes one answer off the receive script,
    and all it ever asks of the outside is [clear_keyboard] with a console
    message: it never sends to the keyboard.  With nothing to receive the
    decoder state stays where it is. *)
Theorem process_cs2_keeps (w : world) :
  matrix_wf (matrix w) ->
  matrix_wf (matrix (snd (process_cs2 w)))
  /\ outside_decoder (snd (process_cs2 w)) = outside_decoder w
  /\ rx (snd (process_cs2 w)) = tail (rx w)
  /\ (trace (snd (process_cs2 w)) = trace w
      \/ exists fmt, trace (snd (process_cs2 w))
                     = trace w ++ [EvClearKeyboard; EvPrint fmt []])
  /\ (fst (ibmpc_host_recv w) = -1 ->
      cs2_state (snd (process_cs2 w)) = cs2_state w
      /\ matrix (snd (process_cs2 w)) = matrix (pause_pseudo_break w)
      /\ trace (snd (process_cs2 w)) = trace w).
Proof.
  intros Hwf. rewrite process_cs2_eq. cbv zeta.
  destruct (ibmpc_host_recv_frame (pause_pseudo_break w)) as (Hm & Hst & Htr & Hrx).
  pose proof (outside_decoder_recv (pause_pseudo_break w)) as Hout.
  rewrite outside_decoder_pseudo_break in Hout.
  rewrite (pause_pseudo_break_frame w) in Hst at 2. cbn [cs2_state set_matrix] in Hst.
  rewrite (pause_pseudo_break_frame w) in Htr at 2. cbn [trace set_matrix] in Htr.
  rewrite (pause_pseudo_break_frame w) in Hrx at 2. cbn [rx set_matrix] in Hrx.
  set (w' := snd (ibmpc_host_recv (pause_pseudo_break w))) in *.
  assert (matrix_wf (matrix w')) as Hwf'
    by (rewrite Hm; apply pause_pseudo_break_wf, Hwf).
  destruct (Z.eqb_spec (next_code w) 0xFFFF) as [Hnone|Hsome].
  - cbn [snd]. split; [exact Hwf'|]. split; [exact Hout|]. split; [exact Hrx|].
    split; [left; exact Htr|]. intros _. auto.
  - destruct (process_cs2_switch_keeps (next_code w) w' Hwf')
      as (Hwf2 & Hout2 & Hrx2 & _ & Htr2).
    split; [exact Hwf2|]. split; [congruence|]. split; [congruence|].
    split; [rewrite <- Htr; exact Htr2|].
    intros Hnone. apply next_code_empty in Hnone. contradiction.
Qed.

Lemma process_cs2_keeps_witness :
  matrix_wf (matrix (snd (process_cs2 stray_byte)))
  /\ trace (snd (process_cs2 pause_interrupted)) = []
  /\ cs2_state (snd (process_cs2 (set_cs2_state cs2.E0 key_A_down))) = cs2.E0.
Proof.
  assert (matrix_wf (matrix stray_byte)) as Hwf by by_decide.
  assert (matrix_wf (matrix (set_cs2_state cs2.E0 key_A_down))) as Hwf' by by_decide.
  split; [apply (process_cs2_keeps stray_byte Hwf)|].
  split; [reflexivity|].
  apply (process_cs2_keeps (set_cs2_state cs2.E0 key_A_down) Hwf'). reflexivity.
Defined.

(** ** The decoder on complete sequences *)

Lemma matrix_make_matrix_ext (c : Z) (a b : world) :
  matrix a = matrix b -> matrix (matrix_make c a) = matrix (matrix_make c b).
Proof.
  intros Hm. unfold matrix_make, matrix_is_on, matrix_get_row. rewrite Hm.
  destruct (negb _); [reflexivity|exact Hm].
Qed.

Lemma matrix_break_matrix_ext (c : Z) (a b : world) :
  matrix a = matrix b -> matrix (matrix_break c a) = matrix (matrix_break c b).
Proof.
  intros Hm. unfold matrix_break, matrix_is_on, matrix_get_row. rewrite Hm.
  destruct (negb _); [reflexivity|exact Hm].
Qed.

(** One call whose byte moves the decoder to [st] and applies [op], an
    operation on the matrix, on the way. *)
Lemma process_cs2_op_step (w : world) (r : reply) (rest : list reply)
    (st : cs2.state) (op : world -> world) :
  rx w = r :: rest -> is_u8 (reply_value r) ->
  (forall w', cs2_state w' = cs2_state w ->
     process_cs2_switch (reply_value r) w' = (0, set_cs2_state st (op w'))) ->
  (forall a b, matrix a = matrix b -> matrix (op a) = matrix (op b)) ->
  (forall a, op a = set_matrix (matrix (op a)) a) ->
  fst (process_cs2 w) = 0
  /\ cs2_state (snd (process_cs2 w)) = st
  /\ matrix (snd (process_cs2 w)) = matrix (op (pause_pseudo_break w))
  /\ trace (snd (process_cs2 w)) = trace w
  /\ rx (snd (process_cs2 w)) = rest.
Proof.
  intros Hrx Hb Hswitch Hext Hframe. rewrite (process_cs2_step w r rest Hrx Hb).
  rewrite Hswitch by (rewrite pause_pseudo_break_frame; reflexivity).
  cbn [fst snd]. split; [reflexivity|]. split; [reflexivity|].
  set (x := set_ibmpc_error _ _).
  assert (matrix x = matrix (pause_pseudo_break w)) as Hmx by reflexivity.
  assert (trace x = trace w) as Htx
    by (unfold x; rewrite pause_pseudo_break_frame; reflexivity).
  assert (rx x = rest) as Hrxx by reflexivity.
  cbn [matrix trace rx set_cs2_state].
  split; [apply Hext, Hmx|]. rewrite (Hframe x). split; assumption.
Qed.

(** A quiet path followed by one byte with an operation: the calls return
    0, the decoder ends in INIT, the matrix is the one after the pseudo break
    of the first call with the operation applied, and nothing is asked of
    the host. *)
Lemma process_cs2_sequence (p : list (Z * cs2.state)) :
  forall (w : world) (replies : list reply) (r : reply) (rest : list reply)
         (op : world -> world),
  matrix_wf (matrix w) ->
  quiet_path (cs2_state w) p ->
  is_u8 (reply_value r) ->
  (forall w', cs2_state w' = path_end (cs2_state w) p ->
     process_cs2_switch (reply_value r) w' = (0, set_cs2_state cs2.INIT (op w'))) ->
  (forall a b, matrix a = matrix b -> matrix (op a) = matrix (op b)) ->
  (forall a, op a = set_matrix (matrix (op a)) a) ->
  rx w = replies ++ r :: rest ->
  map reply_value replies = map fst p ->
  fst (process_cs2_n (S (length p)) w) = replicate (S (length p)) 0
  /\ cs2_state (snd (process_cs2_n (S (length p)) w)) = cs2.INIT
  /\ matrix (snd (process_cs2_n (S (length p)) w))
     = matrix (op (pause_pseudo_break w))
  /\ trace (snd (process_cs2_n (S (length p)) w)) = trace w
  /\ rx (snd (process_cs2_n (S (length p)) w)) = rest.
Proof.
  induction p as [|[b1 s1] p IH];
    intros w replies r rest op Hwf Hpath Hb Hlast Hext Hframe Hrx Hmap.
  - destruct replies; [|discriminate Hmap]. cbn [app] in Hrx.
    cbn [path_end] in Hlast.
    destruct (process_cs2_op_step w r rest cs2.INIT op Hrx Hb Hlast Hext Hframe)
      as (H0 & Hst & Hm & Ht & Hr).
    rewrite process_cs2_n_S. cbn [process_cs2_n fst snd length replicate].
    rewrite H0. auto.
  - destruct replies as [|r1 replies]; [discriminate Hmap|].
    cbn [map fst] in Hmap. injection Hmap as Hb1 Hmap. cbn [app] in Hrx.
    destruct Hpath as [[Hu1 Hq1] Hpath]. subst b1.
    destruct (process_cs2_quiet_step w r1 _ s1 Hwf Hrx Hu1)
      as (H0 & Hst1 & Hm1 & Ht1 & Hrx1);
      [intros w' Hw'; apply Hq1; exact Hw'|].
    destruct (process_cs2_quiet_next _ _ Hwf Hm1) as [Hwf1 Hidle1].
    cbn [path_end] in Hlast. rewrite <- Hst1 in Hpath, Hlast.
    destruct (IH _ replies r rest op Hwf1 Hpath Hb Hlast Hext Hframe Hrx1 Hmap)
      as (Hrets & Hst & Hm & Ht & Hr).
    rewrite process_cs2_n_S. cbn [fst snd length].
    rewrite Hrets, H0, Hst, Hm, Ht, Ht1, Hr, Hidle1.
    split; [reflexivity|]. split; [reflexivity|].
    split; [apply Hext, Hm1|]. split; reflexivity.
Qed.

Ltac op_make_ok :=
  first [ intros a b Hab; apply matrix_make_matrix_ext, Hab
        | intros a; apply matrix_make_only_matrix ].

Ltac op_break_ok :=
  first [ intros a b Hab; apply matrix_break_matrix_ext, Hab
        | intros a; apply matrix_break_only_matrix ].

Ltac quiet_transition_ok :=
  split; [by_decide|];
  let w' := fresh "w'" in let Hw' := fresh "Hw'" in
  intros w' Hw'; unfold process_cs2_switch; rewrite Hw'; reflexivity.

Lemma quiet_path_E0 : quiet_path cs2.INIT [(0xE0, cs2.E0)].
Proof. split; [quiet_transition_ok|exact I]. Qed.

Lemma quiet_path_F0 : quiet_path cs2.INIT [(0xF0, cs2.F0)].
Proof. split; [quiet_transition_ok|exact I]. Qed.

Lemma quiet_path_E0_F0 : quiet_path cs2.INIT [(0xE0, cs2.E0); (0xF0, cs2.E0_F0)].
Proof. split; [quiet_transition_ok|]. split; [quiet_transition_ok|exact I]. Qed.

Lemma quiet_path_pause : quiet_path cs2.INIT pause_path.
Proof. unfold pause_path. repeat (split; [quiet_transition_ok|]). exact I. Qed.

Lemma quiet_path_ctrl_pause : quiet_path cs2.INIT ctrl_pause_path.
Proof. unfold ctrl_pause_path. repeat (split; [quiet_transition_ok|]). exact I. Qed.

Lemma u8_lor_0x80 (c : Z) : 0 <= c < 0x80 -> u8 (Z.lor c 0x80) = Z.lor c 0x80.
Proof. intros Hc. rewrite lor_0x80 by exact Hc. apply u8_id. unfold is_u8. lia. Qed.

(** The replies that carry a given list of bytes. *)
Lemma replies_of_bytes (replies : list reply) (r : reply) (l : list Z) (b : Z) :
  map reply_value (replies ++ [r]) = l ++ [b] ->
  map reply_value replies = l /\ reply_value r = b.
Proof.
  rewrite map_app. cbn [map]. intros Heq.
  apply app_inj_tail in Heq. exact Heq.
Qed.

Ltac final_switch Hst :=
  let w' := fresh "w'" in
  let Hw' := fresh "Hw'" in
  intros w' Hw'; rewrite Hst in Hw'; cbn [path_end] in Hw';
  unfold process_cs2_switch; rewrite Hw'; cases_on_code; try lia;
  rewrite ?u8_id, ?u8_lor_0x80 by (unfold is_u8; lia); reflexivity.

Ltac replies_shape replies Hmap :=
  repeat (destruct replies as [|? replies]; try discriminate Hmap);
  cbn [map] in Hmap; injection Hmap as; subst.

(** X7: a key code [c] (0 < c < 0x80) received in INIT makes key [c], and
    [F0 c] breaks it; in both cases the decoder is back in INIT, every call
    returns 0, and nothing is asked of the host. *)
Theorem decode_plain_key (w : world) (c : Z) (rest : list reply) :
  matrix_wf (matrix w) -> cs2_state w = cs2.INIT -> 0 < c < 0x80 ->
  (forall replies,
     map reply_value replies = [c] -> rx w = replies ++ rest ->
     fst (process_cs2_n 1 w) = [0]
     /\ cs2_state (snd (process_cs2_n 1 w)) = cs2.INIT
     /\ matrix (snd (process_cs2_n 1 w)) = matrix (matrix_make c (pause_pseudo_break w))
     /\ matrix_is_on (snd (process_cs2_n 1 w)) (ROW c) (COL c) = true
     /\ trace (snd (process_cs2_n 1 w)) = trace w
     /\ rx (snd (process_cs2_n 1 w)) = rest)
  /\ (forall replies,
        map reply_value replies = [0xF0; c] -> rx w = replies ++ rest ->
        fst (process_cs2_n 2 w) = [0; 0]
        /\ cs2_state (snd (process_cs2_n 2 w)) = cs2.INIT
        /\ matrix (snd (process_cs2_n 2 w))
           = matrix (matrix_break c (pause_pseudo_break w))
        /\ matrix_is_on (snd (process_cs2_n 2 w)) (ROW c) (COL c) = false
        /\ trace (snd (process_cs2_n 2 w)) = trace w
        /\ rx (snd (process_cs2_n 2 w)) = rest).
Proof.
  intros Hwf Hst Hc.
  assert (is_u8 c) as Hu by (unfold is_u8; lia).
  pose proof (pause_pseudo_break_wf w Hwf) as Hwf1.
  split; intros replies Hmap Hrx; replies_shape replies Hmap.
  - destruct (process_cs2_sequence [] w [] _ rest (matrix_make (reply_value r)) Hwf I Hu)
      as (H0 & Hs & Hm & Ht & Hr);
      [final_switch Hst|op_make_ok|op_make_ok|exact Hrx|reflexivity|].
    split; [exact H0|]. split; [exact Hs|]. split; [exact Hm|].
    split; [|split; assumption].
    rewrite (matrix_is_on_ext _ _ _ _ Hm), matrix_is_on_make, Z.eqb_refl by assumption.
    apply orb_true_r.
  - destruct (process_cs2_sequence [(0xF0, cs2.F0)] w [r] r0 rest
                (matrix_break (reply_value r0)) Hwf)
      as (H0 & Hs & Hm & Ht & Hr);
      [rewrite Hst; exact quiet_path_F0|exact Hu|final_switch Hst
      |op_break_ok|op_break_ok|exact Hrx|cbn [map fst]; congruence|].
    split; [exact H0|]. split; [exact Hs|]. split; [exact Hm|].
    split; [|split; assumption].
    rewrite (matrix_is_on_ext _ _ _ _ Hm). apply matrix_break_is_off; assumption.
Qed.

Lemma decode_plain_key_witness :
  matrix_is_on key_A_release 3 4 = true
  /\ matrix_is_on (snd (process_cs2_n 2 key_A_release)) (ROW 0x1C) (COL 0x1C) = false.
Proof.
  assert (matrix_wf (matrix key_A_release)) as Hwf by by_decide.
  assert (0 < 0x1C < 0x80) as Hc by lia.
  destruct (decode_plain_key key_A_release 0x1C [] Hwf eq_refl Hc) as [_ Hbreak].
  destruct (Hbreak (bytes [0xF0; 0x1C]) eq_refl eq_refl) as (_ & _ & _ & Hoff & _).
  split; [reflexivity|exact Hoff].
Defined.

(** The same for bytes rather than replies: a quiet path, then a byte with
    an operation. *)
Lemma decode_sequence (w : world) (p : list (Z * cs2.state)) (b : Z)
    (op : world -> world) (replies rest : list reply) :
  matrix_wf (matrix w) ->
  quiet_path (cs2_state w) p ->
  is_u8 b ->
  (forall w', cs2_state w' = path_end (cs2_state w) p ->
     process_cs2_switch b w' = (0, set_cs2_state cs2.INIT (op w'))) ->
  (forall a b, matrix a = matrix b -> matrix (op a) = matrix (op b)) ->
  (forall a, op a = set_matrix (matrix (op a)) a) ->
  map reply_value replies = map fst p ++ [b] ->
  rx w = replies ++ rest ->
  fst (process_cs2_n (S (length p)) w) = replicate (S (length p)) 0
  /\ cs2_state (snd (process_cs2_n (S (length p)) w)) = cs2.INIT
  /\ matrix (snd (process_cs2_n (S (length p)) w))
     = matrix (op (pause_pseudo_break w))
  /\ trace (snd (process_cs2_n (S (length p)) w)) = trace w
  /\ rx (snd (process_cs2_n (S (length p)) w)) = rest.
Proof.
  intros Hwf Hpath Hb Hlast Hext Hframe Hmap Hrx.
  assert (replies <> []) as Hne
    by (intros ->; destruct (map fst p); discriminate Hmap).
  destruct (exists_last Hne) as (init & r & ->).
  apply replies_of_bytes in Hmap as [Hinit Hr]. subst b.
  rewrite <- app_assoc in Hrx. cbn [app] in Hrx.
  exact (process_cs2_sequence p w init r rest op Hwf Hpath Hb Hlast Hext Hframe
           Hrx Hinit).
Qed.

(** X8: an E0-prefixed key code: [E0 c] makes key [c | 0x80] and [E0 F0 c]
    breaks it, for every [c] below 0x80 other than the shadow shifts 0x12
    and 0x59 (and, for the make, other than 0x7E, which starts Control'd
    Pause). *)
Theorem decode_extended_key (w : world) (c : Z) (rest : list reply) :
  matrix_wf (matrix w) -> cs2_state w = cs2.INIT ->
  0 <= c < 0x80 -> c <> 0x12 -> c <> 0x59 ->
  Z.lor c 0x80 = c + 0x80
  /\ (c <> 0x7E ->
      forall replies,
        map reply_value replies = [0xE0; c] -> rx w = replies ++ rest ->
        fst (process_cs2_n 2 w) = [0; 0]
        /\ cs2_state (snd (process_cs2_n 2 w)) = cs2.INIT
        /\ matrix (snd (process_cs2_n 2 w))
           = matrix (matrix_make (Z.lor c 0x80) (pause_pseudo_break w))
        /\ matrix_is_on (snd (process_cs2_n 2 w))
             (ROW (Z.lor c 0x80)) (COL (Z.lor c 0x80)) = true
        /\ trace (snd (process_cs2_n 2 w)) = trace w
        /\ rx (snd (process_cs2_n 2 w)) = rest)
  /\ (forall replies,
        map reply_value replies = [0xE0; 0xF0; c] -> rx w = replies ++ rest ->
        fst (process_cs2_n 3 w) = [0; 0; 0]
        /\ cs2_state (snd (process_cs2_n 3 w)) = cs2.INIT
        /\ matrix (snd (process_cs2_n 3 w))
           = matrix (matrix_break (Z.lor c 0x80) (pause_pseudo_break w))
        /\ matrix_is_on (snd (process_cs2_n 3 w))
             (ROW (Z.lor c 0x80)) (COL (Z.lor c 0x80)) = false
        /\ trace (snd (process_cs2_n 3 w)) = trace w
        /\ rx (snd (process_cs2_n 3 w)) = rest).
Proof.
  intros Hwf Hst Hc H12 H59.
  pose proof (lor_0x80 c Hc) as Hlor.
  assert (is_u8 c) as Hu by (unfold is_u8; lia).
  assert (is_u8 (Z.lor c 0x80)) as Hu' by (rewrite Hlor; unfold is_u8; lia).
  pose proof (pause_pseudo_break_wf w Hwf) as Hwf1.
  split; [exact Hlor|]. split.
  - intros H7E replies Hmap Hrx.
    destruct (decode_sequence w [(0xE0, cs2.E0)] c (matrix_make (Z.lor c 0x80))
                replies rest Hwf)
      as (H0 & Hs & Hm & Ht & Hr);
      [rewrite Hst; exact quiet_path_E0|exact Hu|final_switch Hst
      |op_make_ok|op_make_ok|exact Hmap|exact Hrx|].
    split; [exact H0|]. split; [exact Hs|]. split; [exact Hm|].
    split; [|split; assumption].
    rewrite (matrix_is_on_ext _ _ _ _ Hm), matrix_is_on_make, Z.eqb_refl by assumption.
    apply orb_true_r.
  - intros replies Hmap Hrx.
    destruct (decode_sequence w [(0xE0, cs2.E0); (0xF0, cs2.E0_F0)] c
                (matrix_break (Z.lor c 0x80)) replies rest Hwf)
      as (H0 & Hs & Hm & Ht & Hr);
      [rewrite Hst; exact quiet_path_E0_F0|exact Hu|final_switch Hst
      |op_break_ok|op_break_ok|exact Hmap|exact Hrx|].
    split; [exact H0|]. split; [exact Hs|]. split; [exact Hm|].
    split; [|split; assumption].
    rewrite (matrix_is_on_ext _ _ _ _ Hm). apply matrix_break_is_off; assumption.
Qed.

Lemma decode_extended_key_witness :
  matrix_is_on (snd (process_cs2_n 2 up_arrow_press)) 0x1E 5 = true.
Proof.
  assert (matrix_wf (matrix up_arrow_press)) as Hwf by by_decide.
  assert (0 <= 0x75 < 0x80) as Hc by lia.
  assert (0x75 <> 0x12) as H12 by lia.
  assert (0x75 <> 0x59) as H59 by lia.
  assert (0x75 <> 0x7E) as H7E by lia.
  destruct (decode_extended_key up_arrow_press 0x75 [] Hwf eq_refl Hc H12 H59)
    as (_ & Hmake & _).
  destruct (Hmake H7E (bytes [0xE0; 0x75]) eq_refl eq_refl) as (_ & _ & _ & Hon & _).
  exact Hon.
Defined.

(** X9: the Pause sequence [E1 14 77 E1 F0 14 F0 77] and the Control'd Pause
    sequence [E0 7E E0 F0 7E], received in INIT, make the Pause key (row
    0x1F, column 6) with their last byte and nothing before it; the decoder
    is back in INIT and nothing is asked of the host. *)
Theorem decode_pause_sequences (w : world) (rest : list reply) :
  matrix_wf (matrix w) -> cs2_state w = cs2.INIT ->
  (forall replies,
     map reply_value replies = [0xE1; 0x14; 0x77; 0xE1; 0xF0; 0x14; 0xF0; 0x77] ->
     rx w = replies ++ rest ->
     fst (process_cs2_n 8 w) = replicate 8 0
     /\ cs2_state (snd (process_cs2_n 8 w)) = cs2.INIT
     /\ matrix (snd (process_cs2_n 8 w))
        = matrix (matrix_make PAUSE (pause_pseudo_break w))
     /\ matrix_is_on (snd (process_cs2_n 8 w)) 0x1F 6 = true
     /\ trace (snd (process_cs2_n 8 w)) = trace w
     /\ rx (snd (process_cs2_n 8 w)) = rest)
  /\ (forall replies,
        map reply_value replies = [0xE0; 0x7E; 0xE0; 0xF0; 0x7E] ->
        rx w = replies ++ rest ->
        fst (process_cs2_n 5 w) = replicate 5 0
        /\ cs2_state (snd (process_cs2_n 5 w)) = cs2.INIT
        /\ matrix (snd (process_cs2_n 5 w))
           = matrix (matrix_make PAUSE (pause_pseudo_break w))
        /\ matrix_is_on (snd (process_cs2_n 5 w)) 0x1F 6 = true
        /\ trace (snd (process_cs2_n 5 w)) = trace w
        /\ rx (snd (process_cs2_n 5 w)) = rest).
Proof.
  intros Hwf Hst.
  pose proof (pause_pseudo_break_wf w Hwf) as Hwf1.
  assert (forall w1, matrix w1 = matrix (matrix_make PAUSE (pause_pseudo_break w)) ->
            matrix_is_on w1 0x1F 6 = true) as Hon.
  { intros w1 Hm. change 0x1F with (ROW PAUSE). change 6 with (COL PAUSE).
    rewrite (matrix_is_on_ext _ _ _ _ Hm), matrix_is_on_make, Z.eqb_refl
      by auto using is_u8_PAUSE.
    apply orb_true_r. }
  split; intros replies Hmap Hrx.
  - destruct (decode_sequence w pause_path 0x77 (matrix_make PAUSE) replies rest Hwf)
      as (H0 & Hs & Hm & Ht & Hr);
      [rewrite Hst; exact quiet_path_pause|by_decide|final_switch Hst
      |op_make_ok|op_make_ok|exact Hmap|exact Hrx|].
    split; [exact H0|]. split; [exact Hs|]. split; [exact Hm|].
    split; [apply Hon, Hm|split; assumption].
  - destruct (decode_sequence w ctrl_pause_path 0x7E (matrix_make PAUSE) replies rest Hwf)
      as (H0 & Hs & Hm & Ht & Hr);
      [rewrite Hst; exact quiet_path_ctrl_pause|by_decide|final_switch Hst
      |op_make_ok|op_make_ok|exact Hmap|exact Hrx|].
    split; [exact H0|]. split; [exact Hs|]. split; [exact Hm|].
    split; [apply Hon, Hm|split; assumption].
Qed.

Lemma decode_pause_sequences_witness :
  matrix_is_on (snd (process_cs2_n 8 pause_then_shadow_shift)) 0x1F 6 = true
  /\ rx (snd (process_cs2_n 8 pause_then_shadow_shift)) = bytes [0xE0; 0x12].
Proof.
  assert (matrix_wf (matrix pause_then_shadow_shift)) as Hwf by by_decide.
  destruct (decode_pause_sequences pause_then_shadow_shift (bytes [0xE0; 0x12]) Hwf eq_refl)
    as [Hpause _].
  destruct (Hpause (bytes [0xE1; 0x14; 0x77; 0xE1; 0xF0; 0x14; 0xF0; 0x77])
              eq_refl eq_refl) as (_ & _ & _ & Hon & _ & Hrest).
  split; assumption.
Defined.

(** X10: PrintScreen has one matrix position, 0xFC, for its two encodings:
    [84] and [E0 7C] make it, [F0 84] and [E0 F0 7C] break it; and F7, whose
    code 0x83 is above 0x7F, is made by [83] and broken by [F0 83] at
    position 0x83. *)
Theorem decode_print_screen_f7 (w : world) (rest : list reply) :
  matrix_wf (matrix w) -> cs2_state w = cs2.INIT ->
  (forall replies,
     rx w = replies ++ rest ->
     (map reply_value replies = [0x84] ->
        matrix (snd (process_cs2_n 1 w))
        = matrix (matrix_make 0xFC (pause_pseudo_break w)))
     /\ (map reply_value replies = [0xE0; 0x7C] ->
        matrix (snd (process_cs2_n 2 w))
        = matrix (matrix_make 0xFC (pause_pseudo_break w)))
     /\ (map reply_value replies = [0xF0; 0x84] ->
        matrix (snd (process_cs2_n 2 w))
        = matrix (matrix_break 0xFC (pause_pseudo_break w)))
     /\ (map reply_value replies = [0xE0; 0xF0; 0x7C] ->
        matrix (snd (process_cs2_n 3 w))
        = matrix (matrix_break 0xFC (pause_pseudo_break w)))
     /\ (map reply_value replies = [0x83] ->
        matrix (snd (process_cs2_n 1 w))
        = matrix (matrix_make 0x83 (pause_pseudo_break w)))
     /\ (map reply_value replies = [0xF0; 0x83] ->
        matrix (snd (process_cs2_n 2 w))
        = matrix (matrix_break 0x83 (pause_pseudo_break w)))).
Proof.
  intros Hwf Hst replies Hrx.
  split; [|split; [|split; [|split; [|split]]]]; intros Hmap.
  - apply (decode_sequence w [] 0x84 (matrix_make 0xFC) replies rest Hwf);
      [exact I|by_decide|final_switch Hst|op_make_ok|op_make_ok|exact Hmap|exact Hrx].
  - apply (decode_sequence w [(0xE0, cs2.E0)] 0x7C (matrix_make 0xFC) replies rest Hwf);
      [rewrite Hst; exact quiet_path_E0|by_decide|final_switch Hst
      |op_make_ok|op_make_ok|exact Hmap|exact Hrx].
  - apply (decode_sequence w [(0xF0, cs2.F0)] 0x84 (matrix_break 0xFC) replies rest Hwf);
      [rewrite Hst; exact quiet_path_F0|by_decide|final_switch Hst
      |op_break_ok|op_break_ok|exact Hmap|exact Hrx].
  - apply (decode_sequence w [(0xE0, cs2.E0); (0xF0, cs2.E0_F0)] 0x7C
             (matrix_break 0xFC) replies rest Hwf);
      [rewrite Hst; exact quiet_path_E0_F0|by_decide|final_switch Hst
      |op_break_ok|op_break_ok|exact Hmap|exact Hrx].
  - apply (decode_sequence w [] 0x83 (matrix_make 0x83) replies rest Hwf);
      [exact I|by_decide|final_switch Hst|op_make_ok|op_make_ok|exact Hmap|exact Hrx].
  - apply (decode_sequence w [(0xF0, cs2.F0)] 0x83 (matrix_break 0x83) replies rest Hwf);
      [rewrite Hst; exact quiet_path_F0|by_decide|final_switch Hst
      |op_break_ok|op_break_ok|exact Hmap|exact Hrx].
Qed.

Lemma decode_print_screen_f7_witness :
  matrix (snd (process_cs2_n 1 alt_print_screen_press))
  = matrix (snd (process_cs2_n 2 print_screen_press)).
Proof.
  assert (matrix_wf (matrix power_on)) as Hwf by by_decide.
  destruct (decode_print_screen_f7 alt_print_screen_press [] Hwf eq_refl
              (bytes [0x84]) eq_refl) as (Halt & _).
  destruct (decode_print_screen_f7 print_screen_press [] Hwf eq_refl
              (bytes [0xE0; 0x7C]) eq_refl) as (_ & Hplain & _).
  rewrite (Halt eq_refl), (Hplain eq_refl). reflexivity.
Defined.

(** ** Positions the decoder reaches *)

Lemma process_cs2_wf (w : world) :
  matrix_wf (matrix w) -> matrix_wf (matrix (snd (process_cs2 w))).
Proof.
  intros Hwf. rewrite process_cs2_eq. cbv zeta.
  destruct (ibmpc_host_recv_frame (pause_pseudo_break w)) as (Hm & _).
  assert (matrix_wf (matrix (snd (ibmpc_host_recv (pause_pseudo_break w))))) as Hwf'
    by (rewrite Hm; apply pause_pseudo_break_wf, Hwf).
  destruct (next_code w =? 0xFFFF); [exact Hwf'|].
  apply process_cs2_switch_keeps, Hwf'.
Qed.

Lemma is_u8_never_made (p : Z) : In p never_made -> is_u8 p.
Proof. intros [<-|[<-|[<-|[]]]]; by_decide. Qed.

Lemma process_cs2_switch_never_made (code : Z) (w : world) (p : Z) :
  matrix_wf (matrix w) -> 0 <= code -> In p never_made ->
  matrix_is_on w (ROW p) (COL p) = false ->
  matrix_is_on (snd (process_cs2_switch code w)) (ROW p) (COL p) = false.
Proof.
  intros Hwf Hcode Hin Hoff. pose proof (is_u8_never_made p Hin) as Hp.
  assert (Hclear : forall fmt,
    matrix_is_on (xprintf fmt [] (clear_keyboard (matrix_clear w)))
                 (ROW p) (COL p) = false).
  { intros fmt. apply matrix_zero_off.
    change (matrix (matrix_clear w) = matrix_zero).
    apply (matrix_clear_zero w), Hwf. }
  assert (Hmake : forall c, is_u8 c -> c <> p ->
    matrix_is_on (matrix_make c w) (ROW p) (COL p) = false).
  { intros c Hc Hne. rewrite matrix_make_other; auto. }
  assert (Hbreak : forall c, is_u8 c ->
    matrix_is_on (matrix_break c w) (ROW p) (COL p) = false).
  { intros c Hc. rewrite matrix_is_on_break, Hoff by assumption. reflexivity. }
  assert (p = 0x00 \/ p = 0x92 \/ p = 0xD9) as Hcases
    by (destruct Hin as [<-|[<-|[<-|[]]]]; auto).
  unfold process_cs2_switch.
  destruct (cs2_state w); cases_on_code; cbn [snd orb];
    match goal with
    | |- matrix_is_on (set_cs2_state ?s ?x) ?r ?c = false =>
        change (matrix_is_on x r c = false)
    end;
    try exact Hoff; try apply Hclear;
    first [ apply Hbreak; first [apply u8_is_u8 | by_decide]
          | apply Hmake;
            [ first [apply u8_is_u8 | by_decide]
            | unfold PAUSE, F7, PRINT_SCREEN, u8; rewrite ?lor_0x80 by lia;
              try rewrite Z.mod_small by lia; lia ] ].
Qed.

(** X11: the matrix positions 0x00, 0x92 and 0xD9 are never turned on: the
    byte 00 is the overrun report, and E0 12 and E0 59 are dropped as shadow
    shifts.  Off before any number of calls of [process_cs2], they are off
    after them, whatever the bytes and the decoder state. *)
Theorem process_cs2_never_made (n : nat) (w : world) (p : Z) :
  matrix_wf (matrix w) -> In p never_made ->
  matrix_is_on w (ROW p) (COL p) = false ->
  matrix_is_on (snd (process_cs2_n n w)) (ROW p) (COL p) = false.
Proof.
  revert w. induction n as [|n IH]; intros w Hwf Hin Hoff; [exact Hoff|].
  rewrite process_cs2_n_S. cbn [snd].
  apply IH; [apply process_cs2_wf, Hwf|exact Hin|].
  pose proof (is_u8_never_made p Hin) as Hp.
  rewrite process_cs2_eq. cbv zeta.
  destruct (ibmpc_host_recv_frame (pause_pseudo_break w)) as (Hm & _).
  set (w' := snd (ibmpc_host_recv (pause_pseudo_break w))) in *.
  assert (matrix_is_on w' (ROW p) (COL p) = false) as Hoff'.
  { rewrite (matrix_is_on_ext _ _ _ _ Hm). unfold pause_pseudo_break.
    destruct (matrix_is_on w (ROW PAUSE) (COL PAUSE)); [|exact Hoff].
    rewrite matrix_is_on_break, Hoff by auto using is_u8_PAUSE. reflexivity. }
  destruct (next_code w =? 0xFFFF); [exact Hoff'|].
  apply process_cs2_switch_never_made; try assumption.
  - rewrite Hm. apply pause_pseudo_break_wf, Hwf.
  - unfold next_code, u16. apply Z.mod_pos_bound. lia.
Qed.

Lemma process_cs2_never_made_witness :
  matrix_is_on (snd (process_cs2_n 10 pause_then_shadow_shift))
    (ROW 0x92) (COL 0x92) = false.
Proof.
  assert (matrix_wf (matrix pause_then_shadow_shift)) as Hwf by by_decide.
  assert (In 0x92 never_made) as Hin by (right; left; reflexivity).
  apply (process_cs2_never_made 10 pause_then_shadow_shift 0x92 Hwf Hin).
  vm_compute. reflexivity.
Defined.

(** X12: every other position is reachable: for each code [p] of 0..255
    but those three there are at most 8 bytes that, received in INIT, leave
    key [p] on and the decoder in INIT. *)
Theorem every_other_position_made (p : Z) :
  is_u8 p -> ~ In p never_made ->
  exists codes : list Z,
    (length codes <= 8)%nat
    /\ forall (w : world) (rest : list reply),
         matrix_wf (matrix w) -> cs2_state w = cs2.INIT ->
         rx w = bytes codes ++ rest ->
         matrix_is_on (snd (process_cs2_n (length codes) w)) (ROW p) (COL p) = true
         /\ cs2_state (snd (process_cs2_n (length codes) w)) = cs2.INIT.
Proof.
  intros Hp Hnever. unfold is_u8 in Hp.
  assert (p <> 0x00 /\ p <> 0x92 /\ p <> 0xD9) as (Hp0 & Hp92 & HpD9).
  { repeat split; intros ->; apply Hnever; simpl; auto. }
  assert (Hmade : forall (w : world) (c : Z) (w1 : world),
            matrix_wf (matrix w) -> is_u8 c ->
            matrix w1 = matrix (matrix_make c (pause_pseudo_break w)) ->
            matrix_is_on w1 (ROW c) (COL c) = true).
  { intros w c w1 Hwf Hc Hm.
    rewrite (matrix_is_on_ext _ _ _ _ Hm), matrix_is_on_make, Z.eqb_refl
      by auto using pause_pseudo_break_wf.
    apply orb_true_r. }
  destruct (Z.eq_dec p PAUSE) as [->|Hpause].
  - exists [0xE1; 0x14; 0x77; 0xE1; 0xF0; 0x14; 0xF0; 0x77].
    split; [cbn; lia|]. intros w rest Hwf Hst Hrx.
    destruct (decode_sequence w pause_path 0x77 (matrix_make PAUSE)
                (bytes [0xE1; 0x14; 0x77; 0xE1; 0xF0; 0x14; 0xF0; 0x77]) rest Hwf)
      as (H0 & Hs & Hm & Ht & Hr);
      [rewrite Hst; exact quiet_path_pause|by_decide|final_switch Hst
      |op_make_ok|op_make_ok|reflexivity|exact Hrx|].
    split; [|exact Hs]. apply (Hmade w PAUSE); auto using is_u8_PAUSE.
  - destruct (Z.lt_ge_cases p 0x80) as [Hlow|Hhigh].
    + exists [p]. split; [cbn; lia|]. intros w rest Hwf Hst Hrx.
      destruct (decode_sequence w [] p (matrix_make p) (bytes [p]) rest Hwf)
        as (H0 & Hs & Hm & Ht & Hr);
        [exact I|unfold is_u8; lia|final_switch Hst
        |op_make_ok|op_make_ok|reflexivity|exact Hrx|].
      split; [|exact Hs]. apply (Hmade w p); [exact Hwf|unfold is_u8; lia|exact Hm].
    + exists [0xE0; p - 0x80]. split; [cbn; lia|]. intros w rest Hwf Hst Hrx.
      unfold PAUSE in Hpause.
      assert (Z.lor (p - 0x80) 0x80 = p) as Hlor by (rewrite lor_0x80; lia).
      destruct (decode_sequence w [(0xE0, cs2.E0)] (p - 0x80)
                  (matrix_make (Z.lor (p - 0x80) 0x80))
                  (bytes [0xE0; p - 0x80]) rest Hwf)
        as (H0 & Hs & Hm & Ht & Hr);
        [rewrite Hst; exact quiet_path_E0|unfold is_u8; lia|final_switch Hst
        |op_make_ok|op_make_ok|reflexivity|exact Hrx|].
      split; [|exact Hs]. rewrite Hlor in Hm.
      apply (Hmade w p); [exact Hwf|unfold is_u8; lia|exact Hm].
Qed.

Lemma every_other_position_made_witness :
  exists codes : list Z,
    (length codes <= 8)%nat
    /\ matrix_is_on
         (snd (process_cs2_n (length codes) (set_rx (bytes codes) power_on)))
         (ROW 0xF5) (COL 0xF5) = true.
Proof.
  assert (is_u8 0xF5) as Hp by by_decide.
  assert (~ In 0xF5 never_made) as Hnever
    by (intros [H|[H|[H|[]]]]; discriminate H).
  destruct (every_other_position_made 0xF5 Hp Hnever) as (codes & Hlen & Hmade).
  exists codes. split; [exact Hlen|].
  assert (matrix_wf (matrix power_on)) as Hwf by by_decide.
  apply (Hmade (set_rx (bytes codes) power_on) [] Hwf eq_refl).
  cbn [rx set_rx]. rewrite app_nil_r. reflexivity.
Defined.

(** ** When the decoder gives the matrix up *)

Lemma process_cs2_switch_clears (code : Z) (w : world) :
  matrix_wf (matrix w) -> 0 <= code ->
  if cs2_clears (cs2_state w) code
  then matrix (snd (process_cs2_switch code w)) = matrix_zero
       /\ cs2_state (snd (process_cs2_switch code w)) = cs2.INIT
       /\ exists fmt, trace (snd (process_cs2_switch code w))
                      = trace w ++ [EvClearKeyboard; EvPrint fmt []]
  else trace (snd (process_cs2_switch code w)) = trace w.
Proof.
  intros Hwf Hcode. unfold process_cs2_switch, cs2_clears, unexpected.
  destruct (cs2_state w); cbn [pause_next has_case];
    cases_on_code; cbn [snd andb orb negb]; try lia;
    first [ reflexivity
          | apply trace_make
          | apply trace_break
          | split; [apply matrix_after_recover, Hwf
                   |split; [reflexivity|eexists; apply trace_after_recover]] ].
Qed.

(** X13: [process_cs2] clears the matrix and calls [clear_keyboard] on the
    overrun byte 00 in INIT and on the unexpected bytes of INIT, E0, F0 and
    E0_F0, and on no other byte: on every other one it asks nothing of the
    host. *)
Theorem process_cs2_clear_keyboard_iff (w : world) :
  matrix_wf (matrix w) ->
  (next_code w <> 0xFFFF ->
   cs2_clears (cs2_state w) (next_code w) = true ->
   matrix (snd (process_cs2 w)) = matrix_zero
   /\ cs2_state (snd (process_cs2 w)) = cs2.INIT
   /\ exists fmt, trace (snd (process_cs2 w))
                  = trace w ++ [EvClearKeyboard; EvPrint fmt []])
  /\ (next_code w = 0xFFFF \/ cs2_clears (cs2_state w) (next_code w) = false ->
      trace (snd (process_cs2 w)) = trace w).
Proof.
  intros Hwf. rewrite process_cs2_eq. cbv zeta.
  destruct (ibmpc_host_recv_frame (pause_pseudo_break w)) as (Hm & Hst & Htr & _).
  rewrite (pause_pseudo_break_frame w) in Hst at 2. cbn [cs2_state set_matrix] in Hst.
  rewrite (pause_pseudo_break_frame w) in Htr at 2. cbn [trace set_matrix] in Htr.
  set (w' := snd (ibmpc_host_recv (pause_pseudo_break w))) in *.
  assert (matrix_wf (matrix w')) as Hwf'
    by (rewrite Hm; apply pause_pseudo_break_wf, Hwf).
  assert (0 <= next_code w) as Hpos
    by (unfold next_code, u16; apply Z.mod_pos_bound; lia).
  pose proof (process_cs2_switch_clears (next_code w) w' Hwf' Hpos) as Hsw.
  rewrite Hst, Htr in Hsw.
  destruct (Z.eqb_spec (next_code w) 0xFFFF) as [Hnone|Hsome].
  - split; [intros Hne; contradiction|]. intros _. exact Htr.
  - split.
    + intros _ Hclears. rewrite Hclears in Hsw. exact Hsw.
    + intros [Hnone|Hkeeps]; [contradiction|]. rewrite Hkeeps in Hsw. exact Hsw.
Qed.

Lemma process_cs2_clear_keyboard_iff_witness :
  matrix (snd (process_cs2 (set_rx (bytes [0x00]) key_A_down))) = matrix_zero
  /\ trace (snd (process_cs2 pause_interrupted)) = trace pause_interrupted.
Proof.
  assert (matrix_wf (matrix (set_rx (bytes [0x00]) key_A_down))) as Hwf by by_decide.
  assert (matrix_wf (matrix pause_interrupted)) as Hwf' by by_decide.
  split.
  - apply (process_cs2_clear_keyboard_iff _ Hwf); [vm_compute; discriminate|reflexivity].
  - apply (process_cs2_clear_keyboard_iff _ Hwf'). right. reflexivity.
Defined.

(** ** The lifecycle of [matrix_scan] *)

Lemma process_cs2_switch_selftest (code : Z) (w : world) :
  fst (process_cs2_switch code w) = -1 ->
  snd (process_cs2_switch code w) = set_cs2_state cs2.INIT w.
Proof.
  unfold process_cs2_switch.
  destruct (cs2_state w); cases_on_code; cbn [fst snd orb];
    intros Hret; try discriminate Hret; reflexivity.
Qed.

Lemma process_cs2_outside (w : world) :
  outside_decoder (snd (process_cs2 w)) = outside_decoder w.
Proof.
  rewrite process_cs2_eq. cbv zeta.
  pose proof (outside_decoder_recv (pause_pseudo_break w)) as Hout.
  rewrite outside_decoder_pseudo_break in Hout.
  destruct (next_code w =? 0xFFFF); [exact Hout|].
  destruct (process_cs2_switch_shape (next_code w)
              (snd (ibmpc_host_recv (pause_pseudo_break w))))
    as (st & [-> | [(c & Hc & ->) | [(c & Hc & ->) | (fmt & ->)]]]).
  - exact Hout.
  - rewrite <- Hout. apply outside_decoder_make.
  - rewrite <- Hout. apply outside_decoder_break.
  - exact Hout.
Qed.

(** ** What the collaborators leave alone *)

Lemma process_cs2_rx (w : world) :
  matrix_wf (matrix w) -> rx (snd (process_cs2 w)) = tail (rx w).
Proof.
  intros Hwf. rewrite process_cs2_eq. cbv zeta.
  destruct (ibmpc_host_recv_frame (pause_pseudo_break w)) as (Hm & _ & _ & Hrx).
  rewrite (pause_pseudo_break_frame w) in Hrx at 2. cbn [rx set_matrix] in Hrx.
  destruct (next_code w =? 0xFFFF); [exact Hrx|].
  destruct (process_cs2_switch_keeps (next_code w)
              (snd (ibmpc_host_recv (pause_pseudo_break w))))
    as (_ & _ & Hrx2 & _).
  - rewrite Hm. apply pause_pseudo_break_wf, Hwf.
  - congruence.
Qed.

Lemma statics_proj (w w' : world) :
  converter_statics w' = converter_statics w ->
  matrix w' = matrix w /\ scan_state w' = scan_state w
  /\ keyboard_kind w' = keyboard_kind w.
Proof. unfold converter_statics. intros [= -> _ -> -> _ _ _]. auto. Qed.

Lemma statics_send (data : Z) (w : world) :
  converter_statics (snd (ibmpc_host_send data w)) = converter_statics w.
Proof. unfold ibmpc_host_send. cbn. destruct (tx w); reflexivity. Qed.

Lemma statics_recv (w : world) :
  converter_statics (snd (ibmpc_host_recv w)) = converter_statics w.
Proof. unfold ibmpc_host_recv. destruct (rx w); reflexivity. Qed.

Lemma statics_timer_read (w : world) :
  converter_statics (snd (timer_read w)) = converter_statics w.
Proof. unfold timer_read. destruct (ticks w); reflexivity. Qed.

Lemma statics_timer_elapsed (last : Z) (w : world) :
  converter_statics (snd (timer_elapsed last w)) = converter_statics w.
Proof.
  unfold timer_elapsed. pose proof (statics_timer_read w) as Hs.
  destruct (timer_read w) as [t w1]. exact Hs.
Qed.

Lemma statics_read_wait_loop (fuel : nat) (start wait_ms : Z) (w w' : world)
    (code : Z) :
  read_wait_loop fuel start wait_ms w = Some (code, w') ->
  converter_statics w' = converter_statics w.
Proof.
  revert w. induction fuel as [|fuel IH]; intros w; cbn [read_wait_loop];
    [discriminate|].
  pose proof (statics_recv w) as Hr.
  destruct (ibmpc_host_recv w) as [c w1]. cbn [snd] in Hr.
  destruct (c =? -1).
  - pose proof (statics_timer_elapsed start w1) as He.
    destruct (timer_elapsed start w1) as [el w2]. cbn [snd] in He.
    destruct (el <? wait_ms).
    + intros Hloop. rewrite (IH _ Hloop). congruence.
    + intros [= _ <-]. congruence.
  - intros [= _ <-]. exact Hr.
Qed.

Lemma statics_read_wait (fuel : nat) (wait_ms : Z) (w w' : world) (code : Z) :
  read_wait fuel wait_ms w = Some (code, w') ->
  converter_statics w' = converter_statics w.
Proof.
  unfold read_wait. pose proof (statics_timer_read w) as Ht.
  destruct (timer_read w) as [t w1]. cbn [snd] in Ht.
  intros Hloop. rewrite (statics_read_wait_loop _ _ _ _ _ _ Hloop). exact Ht.
Qed.

Lemma statics_read_keyboard_id (fuel : nat) (w w' : world) (id : Z) :
  read_keyboard_id fuel w = Some (id, w') ->
  converter_statics w' = converter_statics w.
Proof.
  unfold read_keyboard_id.
  pose proof (statics_send 0xF5 w) as H0.
  destruct (ibmpc_host_send 0xF5 w) as [c0 w0]. cbn [snd] in H0.
  pose proof (statics_send 0xF2 w0) as H1.
  destruct (ibmpc_host_send 0xF2 w0) as [c1 w1]. cbn [snd] in H1.
  destruct (c1 =? -1); [intros [= _ <-]; congruence|].
  destruct (negb (c1 =? 0xFA)); [intros [= _ <-]; congruence|].
  destruct (read_wait fuel 1000 w1) as [[c2 w2]|] eqn:Hfirst;
    cbn [mbind option_bind]; [|discriminate].
  apply statics_read_wait in Hfirst.
  destruct (c2 =? -1); [intros [= _ <-]; congruence|].
  destruct (read_wait fuel 1000 w2) as [[c3 w3]|] eqn:Hsecond;
    cbn [mbind option_bind]; [|discriminate].
  apply statics_read_wait in Hsecond.
  pose proof (statics_send 0xF4 w3) as H4.
  destruct (ibmpc_host_send 0xF4 w3) as [c4 w4]. cbn [snd] in H4.
  intros [= _ <-]. congruence.
Qed.

Lemma classify_keyboard_id_never_other (w : world) :
  keyboard_kind (classify_keyboard_id w) <> OTHER
  /\ matrix (classify_keyboard_id w) = matrix w.
Proof.
  unfold classify_keyboard_id. cases_on_code; split; (discriminate || reflexivity).
Qed.

Section Scan.
Context `{headers}.

Lemma scan_error_check_quiet (w : world) :
  ibmpc_error w = 0 -> scan_error_check w = w.
Proof. intros Herr. unfold scan_error_check. rewrite Herr. reflexivity. Qed.

(** X14: in the INIT state [matrix_scan] sets the protocol to AT, forgets
    the family and the ID, clears the matrix and goes to WAIT_STARTUP,
    without reading a byte.  It does not reset the decoder: the state of
    [process_cs2] is what it was. *)
Theorem matrix_scan_init (fuel : nat) (w : world) :
  matrix_wf (matrix w) -> scan_state w = scan.INIT ->
  exists w',
    matrix_scan fuel w = Some (1, w')
    /\ scan_state w' = scan.WAIT_STARTUP
    /\ matrix w' = matrix_zero
    /\ keyboard_kind w' = NONE
    /\ keyboard_id w' = 0x0000
    /\ ibmpc_protocol w' = IBMPC_PROTOCOL_AT
    /\ cs2_state w' = cs2_state w
    /\ rx w' = rx w
    /\ tx w' = tx w.
Proof.
  intros Hwf Hst. unfold matrix_scan.
  assert (scan_state (scan_error_check w) = scan.INIT
          /\ matrix (scan_error_check w) = matrix w
          /\ cs2_state (scan_error_check w) = cs2_state w
          /\ rx (scan_error_check w) = rx w
          /\ tx (scan_error_check w) = tx w) as (Hst' & Hm & Hcs & Hrx & Htx).
  { unfold scan_error_check. destruct (negb (ibmpc_error w =? 0)); [|auto].
    cbn [xprintf set_trace ibmpc_error scan_state]. rewrite Hst.
    destruct (Z.land _ _ =? 0); cbn; auto. }
  rewrite Hst'. set (w0 := scan_error_check w) in *.
  unfold timer_read. cbn [set_ibmpc_protocol set_keyboard_kind set_keyboard_id
                          ticks now].
  destruct (ticks w0) as [|d ds]; cbn [mbind option_bind]; eexists;
    (split; [reflexivity|]);
    (split; [reflexivity|]);
    (split; [apply matrix_clear_zero; cbn [matrix set_scan_state set_last_time
               set_ticks set_now set_keyboard_id set_keyboard_kind
               set_ibmpc_protocol]; rewrite Hm; apply Hwf|]);
    unfold matrix_clear; cbn; auto 10.
Qed.

Lemma scan_error_check_frame (w : world) :
  matrix (scan_error_check w) = matrix w
  /\ cs2_state (scan_error_check w) = cs2_state w
  /\ keyboard_kind (scan_error_check w) = keyboard_kind w
  /\ keyboard_id (scan_error_check w) = keyboard_id w
  /\ rx (scan_error_check w) = rx w
  /\ tx (scan_error_check w) = tx w.
Proof.
  unfold scan_error_check. destruct (negb (ibmpc_error w =? 0)); [|auto 10].
  cbn [xprintf set_trace ibmpc_error scan_state].
  destruct (Z.land _ _ =? 0); [destruct (scan_state w)|]; cbn; auto 10.
Qed.



(** X16: in LOOP, with no transport error, a family other than AT gets no
    decoder at all: [matrix_scan] returns without reading a byte or changing
    anything. *)
Theorem matrix_scan_loop_no_decoder (fuel : nat) (w : world) :
  scan_state w = scan.LOOP -> ibmpc_error w = 0 -> keyboard_kind w <> PC_AT ->
  matrix_scan fuel w = Some (1, w).
Proof.
  intros Hst Herr Hkind. unfold matrix_scan.
  rewrite (scan_error_check_quiet w Herr), Hst. unfold scan_loop.
  destruct (keyboard_kind w); try reflexivity. contradiction.
Qed.

(** X17: in LOOP with the AT family [matrix_scan] calls [process_cs2] and
    drops what it returns: after a self-test byte, for which [process_cs2]
    returns -1, the lifecycle is in LOOP all the same, with the family and
    the ID it had and the keys that were down still in the matrix. *)
Theorem matrix_scan_loop_drops_result (fuel : nat) (w : world) :
  scan_state w = scan.LOOP -> ibmpc_error w = 0 -> keyboard_kind w = PC_AT ->
  matrix_scan fuel w = Some (1, snd (process_cs2 w))
  /\ scan_state (snd (process_cs2 w)) = scan.LOOP
  /\ keyboard_kind (snd (process_cs2 w)) = PC_AT
  /\ keyboard_id (snd (process_cs2 w)) = keyboard_id w
  /\ (fst (process_cs2 w) = -1 ->
      matrix (snd (process_cs2 w)) = matrix (pause_pseudo_break w)).
Proof.
  intros Hst Herr Hkind.
  pose proof (process_cs2_outside w) as Hout.
  unfold outside_decoder in Hout. injection Hout as. intros.
  split; [|split; [congruence|split; [congruence|split; [congruence|]]]].
  - unfold matrix_scan. rewrite (scan_error_check_quiet w Herr), Hst.
    unfold scan_loop. rewrite Hkind. reflexivity.
  - rewrite process_cs2_eq. cbv zeta.
    destruct (ibmpc_host_recv_frame (pause_pseudo_break w)) as (Hm & _).
    destruct (next_code w =? 0xFFFF); cbn [fst snd]; [discriminate|].
    intros Hret. rewrite (process_cs2_switch_selftest _ _ Hret). exact Hm.
Qed.


Lemma scan_error_check_state (w : world) :
  scan_state (scan_error_check w) = scan_state w
  \/ scan_state (scan_error_check w) = scan.INIT.
Proof.
  unfold scan_error_check. destruct (negb (ibmpc_error w =? 0)); [|auto].
  cbn [xprintf set_trace ibmpc_error scan_state].
  destruct (Z.land _ _ =? 0); [destruct (scan_state w) eqn:Hs|];
    cbn; rewrite ?Hs; auto.
Qed.

Lemma led_set_statics (usb_led : Z) (w : world) :
  converter_statics (led_set usb_led w) = converter_statics w.
Proof. unfold led_set. destruct (keyboard_kind w); reflexivity. Qed.

Lemma scan_loop_keeps (w : world) :
  (matrix_wf (matrix w) -> matrix_wf (matrix (scan_loop w)))
  /\ scan_state (scan_loop w) = scan_state w
  /\ keyboard_kind (scan_loop w) = keyboard_kind w.
Proof.
  unfold scan_loop. pose proof (process_cs2_outside w) as Hout.
  unfold outside_decoder in Hout. injection Hout as. intros.
  destruct (keyboard_kind w) eqn:Hk; rewrite ?Hk; auto.
  split; [apply process_cs2_wf|]. split; congruence.
Qed.

(** X19: what every call of [matrix_scan] keeps: it returns 1; the matrix
    stays MATRIX_ROWS bytes; the lifecycle never gets to END; and the family
    is never OTHER. *)
Theorem matrix_scan_invariants (fuel : nat) (w w' : world) (r : Z) :
  matrix_scan fuel w = Some (r, w') ->
  r = 1
  /\ (matrix_wf (matrix w) -> matrix_wf (matrix w'))
  /\ (scan_state w <> scan.END -> scan_state w' <> scan.END)
  /\ (keyboard_kind w <> OTHER -> keyboard_kind w' <> OTHER).
Proof.
  unfold matrix_scan.
  destruct (scan_error_check_frame w) as (Hm & _ & Hk & _).
  pose proof (scan_error_check_state w) as Hs.
  set (w0 := scan_error_check w) in *.
  destruct (scan_state w0) eqn:Hs0.
  - (* INIT *)
    unfold timer_read. cbn [set_ibmpc_protocol set_keyboard_kind set_keyboard_id
                            ticks now].
    destruct (ticks w0); cbn [mbind option_bind]; intros [= <- <-];
      (split; [reflexivity|]);
      (split; [intros Hwf; rewrite matrix_clear_zero;
               [by_decide|cbn [matrix set_scan_state set_last_time set_ticks
                  set_now set_keyboard_id set_keyboard_kind set_ibmpc_protocol];
                rewrite Hm; apply Hwf]|]);
      unfold matrix_clear; cbn; split; intros _; discriminate.
  - (* WAIT_STARTUP *)
    pose proof (statics_recv w0) as Hr.
    destruct (ibmpc_host_recv w0) as [c w1]. cbn [snd] in Hr.
    pose proof (statics_timer_elapsed (last_time w1) w1) as He.
    destruct (timer_elapsed (last_time w1) w1) as [el w2]. cbn [snd] in He.
    rewrite Hr in He. destruct (statics_proj _ _ He) as (Hm1 & Hs1 & Hk1).
    cbn [mbind option_bind].
    destruct (1000 <? el); intros [= <- <-];
      cbn [matrix scan_state keyboard_kind set_scan_state];
      (split; [reflexivity|]); (split; [congruence|]);
      (split; [intros _; first [discriminate | congruence]|congruence]).
  - (* READ_ID *)
    unfold scan_read_id.
    destruct (read_keyboard_id fuel w0) as [[id w1]|] eqn:Hread;
      cbn [mbind option_bind]; [|discriminate].
    apply statics_read_keyboard_id in Hread.
    destruct (statics_proj _ _ Hread) as (Hm1 & Hs1 & Hk1).
    set (w2 := if negb (ibmpc_error (set_keyboard_id id w1) =? 0)
               then set_ibmpc_error (u8 IBMPC_ERR_NONE)
                      (xprintf "err: %02X\n" [ibmpc_error (set_keyboard_id id w1)]
                         (set_keyboard_id id w1))
               else set_keyboard_id id w1).
    assert (matrix w2 = matrix w1) as Hm2
      by (unfold w2; destruct (negb (_ =? 0)); reflexivity).
    set (w3 := xprintf "ID: %04X\n" [keyboard_id w2] w2).
    destruct (classify_keyboard_id_never_other w3) as [Hnever Hm3].
    destruct (select_protocol_spec (classify_keyboard_id w3)) as (_ & Hk4 & _).
    assert (matrix (select_protocol (classify_keyboard_id w3))
            = matrix (classify_keyboard_id w3)) as Hm4
      by (unfold select_protocol;
          destruct (keyboard_kind (classify_keyboard_id w3)); reflexivity).
    intros [= <- <-].
    cbn [matrix scan_state keyboard_kind set_scan_state].
    split; [reflexivity|]. split; [|split; [intros _; discriminate|]].
    + intros Hwf. rewrite Hm4, Hm3. change (matrix w3) with (matrix w2).
      rewrite Hm2. congruence.
    + intros _. rewrite Hk4. exact Hnever.
  - (* LED_SET *)
    cbn [mbind option_bind]. intros [= <- <-].
    destruct (statics_proj _ _ (led_set_statics (host_keyboard_leds w0) w0))
      as (Hm1 & Hs1 & Hk1).
    set (w1 := set_scan_state scan.LOOP (led_set (host_keyboard_leds w0) w0)).
    destruct (scan_loop_keeps w1) as (Hwf2 & Hs2 & Hk2).
    split; [reflexivity|]. split; [|split].
    + intros Hwf. apply Hwf2. change (matrix w1)
        with (matrix (led_set (host_keyboard_leds w0) w0)). congruence.
    + intros _. rewrite Hs2. discriminate.
    + intros Hne. rewrite Hk2. change (keyboard_kind w1)
        with (keyboard_kind (led_set (host_keyboard_leds w0) w0)). congruence.
  - (* LOOP *)
    cbn [mbind option_bind]. intros [= <- <-].
    destruct (scan_loop_keeps w0) as (Hwf1 & Hs1 & Hk1).
    split; [reflexivity|]. split; [|split].
    + intros Hwf. apply Hwf1. congruence.
    + intros _. rewrite Hs1, Hs0. discriminate.
    + intros Hne. congruence.
  - (* END *)
    cbn [mbind option_bind]. intros [= <- <-].
    split; [reflexivity|]. split; [congruence|]. split; [|congruence].
    intros Hne. destruct Hs as [Hs|Hs]; congruence.
Qed.

(** X20: [led_set] does nothing for a family other than AT.  For AT it
    calls [ibmpc_host_set_led] once, with a mask in which the Scroll, Num
    and Caps bits of the keyboard are those of the host (as long as the
    header gives the three keyboard LEDs distinct bits of a byte), and
    changes none of the converter's variables. *)
Theorem led_set_effect (usb_led : Z) (w : world) :
  0 <= IBMPC_LED_SCROLL_LOCK < 8 -> 0 <= IBMPC_LED_NUM_LOCK < 8 ->
  0 <= IBMPC_LED_CAPS_LOCK < 8 ->
  IBMPC_LED_SCROLL_LOCK <> IBMPC_LED_NUM_LOCK ->
  IBMPC_LED_SCROLL_LOCK <> IBMPC_LED_CAPS_LOCK ->
  IBMPC_LED_NUM_LOCK <> IBMPC_LED_CAPS_LOCK ->
  0 <= USB_LED_SCROLL_LOCK -> 0 <= USB_LED_NUM_LOCK -> 0 <= USB_LED_CAPS_LOCK ->
  (keyboard_kind w <> PC_AT -> led_set usb_led w = w)
  /\ (keyboard_kind w = PC_AT ->
      exists led,
        led_set usb_led w = ibmpc_host_set_led led w
        /\ is_u8 led
        /\ Z.testbit led IBMPC_LED_SCROLL_LOCK = Z.testbit usb_led USB_LED_SCROLL_LOCK
        /\ Z.testbit led IBMPC_LED_NUM_LOCK = Z.testbit usb_led USB_LED_NUM_LOCK
        /\ Z.testbit led IBMPC_LED_CAPS_LOCK = Z.testbit usb_led USB_LED_CAPS_LOCK
        /\ (forall k, k <> IBMPC_LED_SCROLL_LOCK -> k <> IBMPC_LED_NUM_LOCK ->
                      k <> IBMPC_LED_CAPS_LOCK -> Z.testbit led k = false)).
Proof.
  intros Hs Hn Hc Hsn Hsc Hnc Hus Hun Huc. unfold led_set. split.
  - intros Hk. destruct (keyboard_kind w); try reflexivity. contradiction.
  - intros ->. eexists. split; [reflexivity|]. split; [apply u8_is_u8|].
    rewrite !land_bit_testbit by assumption. rewrite !negb_involutive.
    set (s := Z.testbit usb_led USB_LED_SCROLL_LOCK).
    set (n := Z.testbit usb_led USB_LED_NUM_LOCK).
    set (c := Z.testbit usb_led USB_LED_CAPS_LOCK).
    match goal with
    | |- Z.testbit ?l IBMPC_LED_SCROLL_LOCK = _ /\ _ => set (led := l)
    end.
    assert (Hbit : forall k,
      Z.testbit led k
      = (k <? 8) && ((s && (IBMPC_LED_SCROLL_LOCK =? k))
                     || (n && (IBMPC_LED_NUM_LOCK =? k))
                     || (c && (IBMPC_LED_CAPS_LOCK =? k)))).
    { intros k. subst led. rewrite u8_testbit. f_equal.
      destruct s, n, c;
        rewrite ?Z.lor_spec, ?Z.shiftl_1_l, ?Z.pow2_bits_eqb, ?Z.bits_0 by lia;
        cbn [andb orb]; rewrite ?orb_false_r; reflexivity. }
    clearbody led.
    assert (Hlt : forall k, 0 <= k < 8 -> (k <? 8) = true)
      by (intros k Hk; apply Z.ltb_lt; lia).
    assert (Hne : forall a b : Z, a <> b -> (a =? b) = false)
      by (intros a b Hab; apply Z.eqb_neq; exact Hab).
    split; [|split; [|split]].
    + rewrite Hbit, Hlt, Z.eqb_refl, (Hne IBMPC_LED_NUM_LOCK),
        (Hne IBMPC_LED_CAPS_LOCK) by (assumption || congruence).
      cbn [andb]. rewrite !andb_false_r, !orb_false_r, andb_true_r. reflexivity.
    + rewrite Hbit, Hlt, Z.eqb_refl, (Hne IBMPC_LED_SCROLL_LOCK),
        (Hne IBMPC_LED_CAPS_LOCK) by (assumption || congruence).
      cbn [andb]. rewrite !andb_false_r, !orb_false_r, andb_true_r. reflexivity.
    + rewrite Hbit, Hlt, Z.eqb_refl, (Hne IBMPC_LED_SCROLL_LOCK),
        (Hne IBMPC_LED_NUM_LOCK) by (assumption || congruence).
      cbn [andb]. rewrite !andb_false_r, andb_true_r. reflexivity.
    + intros k Hks Hkn Hkc.
      rewrite Hbit, !Hne by congruence. rewrite !andb_false_r. reflexivity.
Qed.

(** X21: the LED_SET case falls through into LOOP: the call of [matrix_scan]
    that sets the LEDs already runs the decoder.  For the AT family one LED
    mask goes out and one answer is taken off the receive script in the same
    call; for any other family the call only moves the lifecycle to LOOP. *)
Theorem matrix_scan_led_set (fuel : nat) (w : world) :
  matrix_wf (matrix w) -> scan_state w = scan.LED_SET -> ibmpc_error w = 0 ->
  (keyboard_kind w <> PC_AT ->
   matrix_scan fuel w = Some (1, set_scan_state scan.LOOP w))
  /\ (keyboard_kind w = PC_AT ->
      exists led,
        is_u8 led
        /\ matrix_scan fuel w
           = Some (1, snd (process_cs2
                             (set_scan_state scan.LOOP (ibmpc_host_set_led led w))))
        /\ scan_state
             (snd (process_cs2
                     (set_scan_state scan.LOOP (ibmpc_host_set_led led w))))
           = scan.LOOP
        /\ rx (snd (process_cs2
                      (set_scan_state scan.LOOP (ibmpc_host_set_led led w))))
           = tail (rx w)).
Proof.
  intros Hwf Hst Herr. unfold matrix_scan, scan_error_check.
  rewrite Herr. cbn [Z.eqb negb]. rewrite Hst. cbn [mbind option_bind].
  unfold scan_loop, led_set. split.
  - intros Hk. destruct (keyboard_kind w) eqn:Hkind; cbn [keyboard_kind set_scan_state];
      rewrite ?Hkind; try reflexivity. contradiction.
  - intros Hk. rewrite Hk. cbn [keyboard_kind set_scan_state ibmpc_host_set_led set_trace].
    rewrite Hk. eexists. split; [apply u8_is_u8|]. split; [reflexivity|].
    match goal with
    | |- scan_state (snd (process_cs2 ?x)) = _ /\ _ => set (w1 := x)
    end.
    pose proof (process_cs2_outside w1) as Hout.
    unfold outside_decoder in Hout.
    split.
    + injection Hout as ->. reflexivity.
    + rewrite process_cs2_rx by exact Hwf. reflexivity.
Qed.

End Scan.

Lemma matrix_scan_init_witness :
  exists w',
    @matrix_scan tmk_headers 1 key_A_down = Some (1, w')
    /\ scan_state w' = scan.WAIT_STARTUP
    /\ matrix w' = matrix_zero.
Proof.
  assert (matrix_wf (matrix key_A_down)) as Hwf by by_decide.
  destruct (@matrix_scan_init tmk_headers 1 key_A_down Hwf eq_refl)
    as (w' & Hscan & Hst & Hm & _).
  exists w'. auto.
Defined.


Lemma matrix_scan_loop_no_decoder_witness :
  @matrix_scan tmk_headers 1 xt_loop = Some (1, xt_loop).
Proof.
  assert (scan_state xt_loop = scan.LOOP) as Hst by (vm_compute; reflexivity).
  assert (ibmpc_error xt_loop = 0) as Herr by (vm_compute; reflexivity).
  assert (keyboard_kind xt_loop <> PC_AT) as Hk by (vm_compute; discriminate).
  exact (@matrix_scan_loop_no_decoder tmk_headers 1 xt_loop Hst Herr Hk).
Defined.

Lemma matrix_scan_loop_drops_result_witness :
  @matrix_scan tmk_headers 1 at_loop = Some (1, snd (process_cs2 at_loop))
  /\ fst (process_cs2 at_loop) = -1
  /\ scan_state (snd (process_cs2 at_loop)) = scan.LOOP
  /\ matrix (snd (process_cs2 at_loop)) = matrix (pause_pseudo_break at_loop).
Proof.
  assert (scan_state at_loop = scan.LOOP) as Hst by (vm_compute; reflexivity).
  assert (ibmpc_error at_loop = 0) as Herr by (vm_compute; reflexivity).
  assert (keyboard_kind at_loop = PC_AT) as Hk by (vm_compute; reflexivity).
  assert (fst (process_cs2 at_loop) = -1) as Hret by (vm_compute; reflexivity).
  destruct (@matrix_scan_loop_drops_result tmk_headers 1 at_loop Hst Herr Hk)
    as (Hrun & Hs & _ & _ & Hm).
  auto.
Defined.


Lemma matrix_scan_invariants_witness :
  matrix_wf (matrix ps2_keyboard_scanned)
  /\ scan_state ps2_keyboard_scanned <> scan.END
  /\ keyboard_kind ps2_keyboard_scanned <> OTHER.
Proof.
  assert (@matrix_scan tmk_headers 1 ps2_keyboard = Some (1, ps2_keyboard_scanned))
    as Hrun by (vm_compute; reflexivity).
  assert (matrix_wf (matrix ps2_keyboard)) as Hwf by by_decide.
  assert (scan_state ps2_keyboard <> scan.END) as Hst by (vm_compute; discriminate).
  assert (keyboard_kind ps2_keyboard <> OTHER) as Hk by (vm_compute; discriminate).
  destruct (@matrix_scan_invariants tmk_headers 1 ps2_keyboard
              ps2_keyboard_scanned 1 Hrun) as (_ & Hwf' & Hst' & Hk').
  auto.
Defined.

Lemma led_set_effect_witness :
  exists led,
    @led_set tmk_headers 0x02 at_loop = ibmpc_host_set_led led at_loop
    /\ is_u8 led
    /\ Z.testbit led 0 = false /\ Z.testbit led 1 = false
    /\ Z.testbit led 2 = true.
Proof.
  assert (keyboard_kind at_loop = PC_AT) as Hk by (vm_compute; reflexivity).
  destruct (@led_set_effect tmk_headers 0x02 at_loop) as [_ Hat]; cbn; try lia.
  destruct (Hat Hk) as (led & Hset & Hled & Hs & Hn & Hc & _).
  exists led. cbn in Hs, Hn, Hc. auto.
Defined.

Lemma matrix_scan_led_set_witness :
  exists led,
    is_u8 led
    /\ @matrix_scan tmk_headers 1 at_led_set
       = Some (1, snd (process_cs2
                         (set_scan_state scan.LOOP (ibmpc_host_set_led led at_led_set))))
    /\ rx (snd (process_cs2
                  (set_scan_state scan.LOOP (ibmpc_host_set_led led at_led_set))))
       = [].
Proof.
  assert (matrix_wf (matrix at_led_set)) as Hwf by by_decide.
  assert (scan_state at_led_set = scan.LED_SET) as Hst by (vm_compute; reflexivity).
  assert (ibmpc_error at_led_set = 0) as Herr by (vm_compute; reflexivity).
  assert (keyboard_kind at_led_set = PC_AT) as Hk by (vm_compute; reflexivity).
  destruct (proj2 (@matrix_scan_led_set tmk_headers 1 at_led_set Hwf Hst Herr) Hk)
    as (led & Hled & Hrun & _ & Hrx).
  exists led. split; [exact Hled|]. split; [exact Hrun|]. rewrite Hrx.
  vm_compute. reflexivity.
Defined.

(** ** Waiting for a byte and reading the ID *)

Lemma timer_read_frame (w : world) :
  rx (snd (timer_read w)) = rx w
  /\ tx (snd (timer_read w)) = tx w
  /\ ibmpc_error (snd (timer_read w)) = ibmpc_error w
  /\ fst (timer_read w) = u16 (now (snd (timer_read w))).
Proof. unfold timer_read. destruct (ticks w); cbn; auto. Qed.

Lemma timer_read_ticks (w : world) :
  ticks (snd (timer_read w)) = tail (ticks w).
Proof.
  unfold timer_read. destruct (ticks w) eqn:Hticks; cbn; rewrite ?Hticks;
    reflexivity.
Qed.



Lemma u16_id (z : Z) : 0 <= z < 65536 -> u16 z = z.
Proof. intros Hz. unfold u16. apply Z.mod_small. exact Hz. Qed.

Lemma i16_byte (b : Z) : is_u8 b -> i16 b = b /\ b <> -1.
Proof.
  unfold is_u8, i16. intros Hb. rewrite Z.mod_small by lia. lia.
Qed.

Lemma lor_shift_byte (hi lo : Z) :
  is_u8 hi -> is_u8 lo -> Z.lor (Z.shiftl hi 8) lo = 256 * hi + lo.
Proof.
  intros Hhi Hlo.
  assert (Z.land (Z.shiftl hi 8) lo = 0) as Hland.
  { apply Z.bits_inj'. intros n Hn. rewrite Z.land_spec, Z.bits_0.
    destruct (Z.ltb_spec n 8).
    - rewrite Z.shiftl_spec_low by lia. reflexivity.
    - rewrite <- (u8_id lo Hlo), u8_testbit.
      destruct (Z.ltb_spec n 8); [lia|]. apply andb_false_r. }
  rewrite <- (Z.lxor_lor _ _ Hland), <- (Z.add_nocarry_lxor _ _ Hland).
  rewrite Z.shiftl_mul_pow2 by lia. lia.
Qed.

(** A byte that is there is returned at the first poll. *)
Lemma read_wait_loop_available (fuel : nat) (start wait_ms : Z) (w : world)
    (r : reply) (rest : list reply) :
  rx w = r :: rest -> i16 (reply_value r) <> -1 ->
  read_wait_loop (S fuel) start wait_ms w
  = Some (i16 (reply_value r), set_ibmpc_error (u8 (reply_error r)) (set_rx rest w)).
Proof.
  intros Hrx Hbyte. cbn [read_wait_loop]. unfold ibmpc_host_recv. rewrite Hrx.
  destruct (Z.eqb_spec (i16 (reply_value r)) (-1)); [contradiction|reflexivity].
Qed.

Lemma read_wait_loop_empty (fuel : nat) (start wait_ms : Z) (w w' : world)
    (code : Z) :
  rx w = [] -> read_wait_loop fuel start wait_ms w = Some (code, w') ->
  code = -1 /\ rx w' = [] /\ ibmpc_error w' = ibmpc_error w
  /\ wait_ms <= u16 (u16 (now w') - start).
Proof.
  revert w. induction fuel as [|fuel IH]; intros w Hrx; cbn [read_wait_loop];
    [discriminate|].
  unfold ibmpc_host_recv. rewrite Hrx. cbn [Z.eqb]. unfold timer_elapsed.
  destruct (timer_read_frame w) as (Hrx1 & _ & Herr1 & Ht).
  destruct (timer_read w) as [t w1]. cbn [fst snd] in *.
  destruct (Z.ltb_spec (u16 (t - start)) wait_ms) as [Hearly|Hlate].
  - intros Hloop. destruct (IH w1 (eq_trans Hrx1 Hrx) Hloop) as (Hc & Hr & He & Hw).
    split; [exact Hc|]. split; [exact Hr|]. split; [congruence|exact Hw].
  - intros [= <- <-]. split; [reflexivity|]. split; [congruence|].
    split; [exact Herr1|]. rewrite <- Ht. exact Hlate.
Qed.


Lemma read_wait_first_poll (fuel : nat) (wait_ms : Z) (w : world) (r : reply)
    (rest : list reply) :
  rx w = r :: rest -> i16 (reply_value r) <> -1 ->
  read_wait (S fuel) wait_ms w
  = Some (i16 (reply_value r),
          set_ibmpc_error (u8 (reply_error r)) (set_rx rest (snd (timer_read w)))).
Proof.
  intros Hrx Hbyte. unfold read_wait.
  destruct (timer_read_frame w) as (Hrx1 & _).
  destruct (timer_read w) as [t w1]. cbn [snd] in *.
  apply read_wait_loop_available; congruence.
Qed.

(** X22: [read_wait] hands over a byte that is already there at its first
    poll, whatever the time to wait: it reads the clock once, for the start
    time, takes that one answer off the line with its error flag, and sends
    and logs nothing. *)
Theorem read_wait_available (fuel : nat) (wait_ms : Z) (w : world) (r : reply)
    (rest : list reply) :
  rx w = r :: rest -> i16 (reply_value r) <> -1 ->
  exists w',
    read_wait (S fuel) wait_ms w = Some (i16 (reply_value r), w')
    /\ rx w' = rest
    /\ ibmpc_error w' = u8 (reply_error r)
    /\ ticks w' = tail (ticks w)
    /\ tx w' = tx w
    /\ trace w' = trace w
    /\ converter_statics w' = converter_statics w.
Proof.
  intros Hrx Hbyte. eexists. split; [apply read_wait_first_poll; eassumption|].
  destruct (timer_read_frame w) as (_ & Htx & _).
  pose proof (timer_read_trace w) as Htr. pose proof (statics_timer_read w) as Hst.
  pose proof (timer_read_ticks w) as Hticks.
  split; [reflexivity|]. split; [reflexivity|].
  split; [exact Hticks|]. split; [exact Htx|]. split; [exact Htr|exact Hst].
Qed.

Lemma read_wait_available_witness :
  exists w', read_wait 1 0 ps2_keyboard = Some (0xAB, w') /\ rx w' = bytes [0x83].
Proof.
  assert (rx ps2_keyboard = Reply 0xAB 0 :: bytes [0x83]) as Hrx
    by (vm_compute; reflexivity).
  assert (i16 (reply_value (Reply 0xAB 0)) <> -1) as Hbyte
    by (vm_compute; discriminate).
  destruct (read_wait_available 0 0 ps2_keyboard _ _ Hrx Hbyte)
    as (w' & Hrun & Hrx' & _).
  exists w'. split; [exact Hrun|exact Hrx'].
Defined.

(** X23: with nothing to read [read_wait] can only give up: what it returns
    is -1, it has taken nothing from the line, and by the clock (modulo
    2^16) at least [wait_ms] have passed since it started. *)
Theorem read_wait_gives_up (fuel : nat) (wait_ms : Z) (w w' : world) (code : Z) :
  rx w = [] -> read_wait fuel wait_ms w = Some (code, w') ->
  code = -1 /\ rx w' = [] /\ ibmpc_error w' = ibmpc_error w
  /\ wait_ms <= u16 (u16 (now w') - u16 (now (snd (timer_read w)))).
Proof.
  intros Hrx. unfold read_wait.
  destruct (timer_read_frame w) as (Hrx1 & _ & Herr1 & Ht).
  destruct (timer_read w) as [t w1]. cbn [fst snd] in *.
  intros Hloop.
  destruct (read_wait_loop_empty _ _ _ _ _ _ (eq_trans Hrx1 Hrx) Hloop)
    as (Hc & Hr & He & Hw).
  rewrite <- Ht. split; [exact Hc|]. split; [exact Hr|]. split; [congruence|exact Hw].
Qed.

Lemma read_wait_gives_up_witness :
  rx silent_line_timed_out = []
  /\ 1000 <= u16 (u16 (now silent_line_timed_out)
                  - u16 (now (snd (timer_read silent_line)))).
Proof.
  assert (rx silent_line = []) as Hrx by (vm_compute; reflexivity).
  assert (read_wait 2 1000 silent_line = Some (-1, silent_line_timed_out)) as Hrun
    by (vm_compute; reflexivity).
  destruct (read_wait_gives_up 2 1000 silent_line _ _ Hrx Hrun)
    as (_ & Hrx' & _ & Hwait).
  split; [exact Hrx'|exact Hwait].
Defined.




Lemma ibmpc_host_send_answer (data : Z) (w : world) (r : reply)
    (rest : list reply) :
  tx w = r :: rest ->
  ibmpc_host_send data w
  = (i16 (reply_value r),
     set_ibmpc_error (u8 (reply_error r))
       (set_tx rest (set_trace (trace w ++ [EvHostSend data]) w))).
Proof. unfold ibmpc_host_send. cbn [tx set_trace]. intros ->. reflexivity. Qed.

(** X25: a keyboard that acknowledges 0xF2 and has two ID bytes on the line
    is identified as [256 * first + second].  The answer to the Disable
    command 0xF5 is not looked at, nor that to the Enable command 0xF4,
    which may fail; the two bytes are taken off the line and the three
    commands are what is sent. *)
Theorem read_keyboard_id_two_bytes (fuel : nat) (w : world) (r5 r2 b1 b2 : reply)
    (txs rxs : list reply) :
  tx w = r5 :: r2 :: txs -> i16 (reply_value r2) = 0xFA ->
  rx w = b1 :: b2 :: rxs -> is_u8 (reply_value b1) -> is_u8 (reply_value b2) ->
  exists w',
    read_keyboard_id (S fuel) w
    = Some (256 * reply_value b1 + reply_value b2, w')
    /\ rx w' = rxs /\ tx w' = tail txs
    /\ trace w' = trace w ++ [EvHostSend 0xF5; EvHostSend 0xF2; EvHostSend 0xF4].
Proof.
  intros Htx Hack Hrx Hb1 Hb2.
  destruct (i16_byte _ Hb1) as [Hv1 Hne1]. destruct (i16_byte _ Hb2) as [Hv2 Hne2].
  unfold read_keyboard_id.
  rewrite (ibmpc_host_send_answer 0xF5 w r5 (r2 :: txs) Htx).
  set (w0 := set_ibmpc_error _ _).
  rewrite (ibmpc_host_send_answer 0xF2 w0 r2 txs eq_refl). rewrite Hack.
  cbn [Z.eqb Pos.eqb negb].
  set (w1 := set_ibmpc_error _ (set_tx txs _)).
  assert (rx w1 = b1 :: b2 :: rxs) as Hrx1 by exact Hrx.
  rewrite (read_wait_first_poll fuel 1000 w1 b1 (b2 :: rxs) Hrx1)
    by (rewrite Hv1; exact Hne1).
  cbn [mbind option_bind]. rewrite Hv1.
  destruct (Z.eqb_spec (reply_value b1) (-1)) as [|_]; [contradiction|].
  set (w2 := set_ibmpc_error _ (set_rx (b2 :: rxs) _)).
  assert (rx w2 = b2 :: rxs) as Hrx2 by reflexivity.
  rewrite (read_wait_first_poll fuel 1000 w2 b2 rxs Hrx2)
    by (rewrite Hv2; exact Hne2).
  cbn [mbind option_bind]. rewrite Hv2.
  set (w3 := set_ibmpc_error _ (set_rx rxs _)).
  assert (reply_value b1 = Z.land (reply_value b1) 0xFF) as Hm1.
  { change 0xFF with (Z.ones 8). rewrite Z.land_ones by lia.
    symmetry. apply Z.mod_small. exact Hb1. }
  assert (reply_value b2 = Z.land (reply_value b2) 0xFF) as Hm2.
  { change 0xFF with (Z.ones 8). rewrite Z.land_ones by lia.
    symmetry. apply Z.mod_small. exact Hb2. }
  rewrite <- Hm1, <- Hm2.
  assert (u16 (Z.lor (u16 (Z.shiftl (reply_value b1) 8)) (reply_value b2))
          = 256 * reply_value b1 + reply_value b2) as Hid.
  { unfold is_u8 in Hb1, Hb2.
    rewrite (u16_id (Z.shiftl _ 8)) by (rewrite Z.shiftl_mul_pow2 by lia; lia).
    rewrite lor_shift_byte by assumption. apply u16_id. lia. }
  rewrite Hid.
  assert (rx w3 = rxs /\ tx w3 = txs
          /\ trace w3 = (trace w ++ [EvHostSend 0xF5]) ++ [EvHostSend 0xF2])
    as (Hrx3 & Htx3 & Htr3).
  { destruct (timer_read_frame w2) as (_ & Htx2 & _).
    pose proof (timer_read_trace w2) as Htr2.
    destruct (timer_read_frame w1) as (_ & Htx1 & _).
    pose proof (timer_read_trace w1) as Htr1.
    split; [reflexivity|]. split.
    - change (tx w3) with (tx (snd (timer_read w2))). rewrite Htx2.
      change (tx w2) with (tx (snd (timer_read w1))). rewrite Htx1. reflexivity.
    - change (trace w3) with (trace (snd (timer_read w2))). rewrite Htr2.
      change (trace w2) with (trace (snd (timer_read w1))). rewrite Htr1.
      reflexivity. }
  clearbody w3. unfold ibmpc_host_send. cbn [tx set_trace]. rewrite Htx3.
  destruct txs as [|r4 txs']; eexists; (split; [reflexivity|]); cbn;
    rewrite Hrx3, Htr3, <- !app_assoc; auto.
Qed.

Lemma read_keyboard_id_two_bytes_witness :
  exists w',
    read_keyboard_id 1 ps2_keyboard = Some (0xAB83, w') /\ rx w' = [].
Proof.
  assert (tx ps2_keyboard = Reply 0xFA 0 :: Reply 0xFA 0 :: bytes [0xFA]) as Htx
    by (vm_compute; reflexivity).
  assert (rx ps2_keyboard = Reply 0xAB 0 :: Reply 0x83 0 :: []) as Hrx
    by (vm_compute; reflexivity).
  assert (i16 (reply_value (Reply 0xFA 0)) = 0xFA) as Hack
    by (vm_compute; reflexivity).
  assert (is_u8 (reply_value (Reply 0xAB 0))) as Hb1 by by_decide.
  assert (is_u8 (reply_value (Reply 0x83 0))) as Hb2 by by_decide.
  destruct (read_keyboard_id_two_bytes 0 ps2_keyboard _ _ _ _ _ _ Htx Hack Hrx Hb1 Hb2)
    as (w' & Hrun & Hrx' & _).
  exists w'. split; [exact Hrun|exact Hrx'].
Defined.

Lemma read_keyboard_id_sends_witness :
  trace ps2_keyboard_identified
  = trace ps2_keyboard ++ [EvHostSend 0xF5; EvHostSend 0xF2; EvHostSend 0xF4].
Proof.
  assert (read_keyboard_id 1 ps2_keyboard = Some (0xAB83, ps2_keyboard_identified))
    as Hrun by (vm_compute; reflexivity).
  assert ((fst (ibmpc_host_send 0xF2 (snd (ibmpc_host_send 0xF5 ps2_keyboard)))
           =? 0xFA)
          && negb (default (-1)
                     (fst <$> read_wait 1 1000
                        (snd (ibmpc_host_send 0xF2
                                (snd (ibmpc_host_send 0xF5 ps2_keyboard))))) =? -1)
          = true) as Hpath by (vm_compute; reflexivity).
  pose proof (read_keyboard_id_sends 1 ps2_keyboard _ _ Hrun) as Hsent.
  cbv zeta in Hsent. rewrite Hpath in Hsent. exact Hsent.
Defined.

(** ** The resolver's table indices *)

Lemma unimap_index_bounds (u : Z) :
  0 <= Z.shiftr (Z.land u 0x70) 4 < 8 /\ 0 <= Z.land u 0x0f < 16.
Proof.
  split.
  - rewrite Z.shiftr_land. change (Z.shiftr 0x70 4) with (Z.ones 3).
    rewrite Z.land_ones by lia. apply Z.mod_pos_bound. lia.
  - change 0x0f with (Z.ones 4). rewrite Z.land_ones by lia.
    apply Z.mod_pos_bound. lia.
Qed.

(** X26: whatever the translation tables hold, [action_for_key] reads the
    action table inside its 8 rows of 16 columns, on the layer it was given,
    or reads nothing and gives ACTION_NO; it changes nothing and looks at
    nothing of the converter but the family. *)
Theorem action_for_key_in_bounds
    (unimap_cs1 unimap_cs2 unimap_cs3 : Z -> Z -> Z) (actionmaps : Z -> Z -> Z -> Z)
    (UNIMAP_NO ACTION_NO : Z) (layer : Z) (key : keypos_t) (w : world) :
  (action_for_key unimap_cs1 unimap_cs2 unimap_cs3 actionmaps UNIMAP_NO ACTION_NO
     layer key w = ACTION_NO
   \/ exists r c,
        0 <= r < 8 /\ 0 <= c < 16
        /\ action_for_key unimap_cs1 unimap_cs2 unimap_cs3 actionmaps UNIMAP_NO
             ACTION_NO layer key w = actionmaps layer r c)
  /\ (forall w', keyboard_kind w' = keyboard_kind w ->
        action_for_key unimap_cs1 unimap_cs2 unimap_cs3 actionmaps UNIMAP_NO
          ACTION_NO layer key w'
        = action_for_key unimap_cs1 unimap_cs2 unimap_cs3 actionmaps UNIMAP_NO
            ACTION_NO layer key w).
Proof.
  unfold action_for_key. split.
  - assert (Hidx : forall u,
      (if u =? UNIMAP_NO then ACTION_NO
       else actionmaps layer (Z.shiftr (Z.land u 0x70) 4) (Z.land u 0x0f))
      = ACTION_NO
      \/ exists r c, 0 <= r < 8 /\ 0 <= c < 16
           /\ (if u =? UNIMAP_NO then ACTION_NO
               else actionmaps layer (Z.shiftr (Z.land u 0x70) 4) (Z.land u 0x0f))
              = actionmaps layer r c).
    { intros u. destruct (u =? UNIMAP_NO); [left; reflexivity|right].
      destruct (unimap_index_bounds u) as [Hr Hc]. eauto. }
    destruct (keyboard_kind w); auto.
  - intros w' ->. reflexivity.
Qed.
